(** * terraform-provider-kaiak: schema translation, value coercion and the
      instance controller, embedded in Rocq.

    The development follows the Go sources [schema.go] (schema translator
    and type coercer) and [resource.go] (the dynamic resource: Create, Read,
    Update, Delete, ImportState, extractAttrs, writeState).

    Go maps are finite maps ([gmap]); Go slices are lists, the nil slice
    being the empty list; Go strings are byte strings ([string]).  What the
    Go standard library and the Terraform plugin framework provide and the
    repository only calls (float64, [fmt.Sprintf] with the %v and %q verbs,
    [time.Parse], [time.Format]) is collected in two type classes the whole
    development is parametric in.  Logging ([tflog]) does not change what
    a function returns and is left out.

    The first part holds the definitions, translated from the sources; the
    second part the facts proved about them, and at the end the properties
    run on concrete inputs. *)

From Stdlib Require Import ZArith Ascii String List Bool Lia.
From stdpp Require Import gmap strings list fin_maps.

Set Warnings "-register-all".
Set Default Proof Using "Type".

(* ===================================================================== *)
(** * Go strings: the functions of package [strings] the sources call *)
(* ===================================================================== *)

Module gostrings.

(** [s[n:]] *)
Fixpoint from (n : nat) (s : string) : string :=
  match n, s with
  | O, _ => s
  | S n', String _ r => from n' r
  | S _, EmptyString => EmptyString
  end.

(** [strings.HasPrefix(s, p)] *)
Fixpoint HasPrefix (s p : string) : bool :=
  match p, s with
  | EmptyString, _ => true
  | String c p', String d s' => Ascii.eqb c d && HasPrefix s' p'
  | String _ _, EmptyString => false
  end.

(** [strings.Index(s, sep)] for a one-byte separator; [None] is Go's -1. *)
Fixpoint Index (s : string) (sep : ascii) : option nat :=
  match s with
  | EmptyString => None
  | String c r => if Ascii.eqb c sep then Some 0 else S <$> Index r sep
  end.

(** [strings.Cut(s, sep)] for a one-byte separator: the text before and
    after the first occurrence. *)
Fixpoint Cut (s : string) (sep : ascii) : option (string * string) :=
  match s with
  | EmptyString => None
  | String c r =>
      if Ascii.eqb c sep then Some (EmptyString, r)
      else match Cut r sep with
           | Some (a, b) => Some (String c a, b)
           | None => None
           end
  end.

(** [strings.SplitN(s, sep, 2)] for a one-byte separator: at most two
    parts, the second being the unsplit remainder. *)
Definition SplitN2 (s : string) (sep : ascii) : list string :=
  match Cut s sep with
  | Some (a, b) => [a; b]
  | None => [s]
  end.

(** [strings.ReplaceAll(s, old, new)] for one-byte [old] and [new]. *)
Fixpoint ReplaceAll (s : string) (old new : ascii) : string :=
  match s with
  | EmptyString => EmptyString
  | String c r =>
      String (if Ascii.eqb c old then new else c) (ReplaceAll r old new)
  end.

End gostrings.

Definition dot : ascii := "."%char.
Definition underscore : ascii := "_"%char.
Definition rbracket : ascii := "]"%char.

(* ===================================================================== *)
(** * Diagnostics (package [diag] of the plugin framework) *)
(* ===================================================================== *)

Module diag.

Inductive Severity := SeverityError | SeverityWarning.

Record Diagnostic := NewDiagnostic {
  Severity_of : Severity;
  Summary : string;
  Detail : string
}.

#[export] Instance Severity_eq_dec : EqDecision Severity.
Proof. solve_decision. Defined.

#[export] Instance Diagnostic_eq_dec : EqDecision Diagnostic.
Proof. solve_decision. Defined.

Definition Diagnostics := list Diagnostic.

Definition Contains (ds : Diagnostics) (d : Diagnostic) : bool :=
  bool_decide (d ∈ ds).

(** [Diagnostics.Append]: adds the diagnostics that are not in the
    collection yet. *)
Definition Append (ds : Diagnostics) (new : list Diagnostic) : Diagnostics :=
  fold_left (fun acc d => if Contains acc d then acc else acc ++ [d]) new ds.

Definition AddError (ds : Diagnostics) (summary detail : string) : Diagnostics :=
  Append ds [NewDiagnostic SeverityError summary detail].

Definition AddWarning (ds : Diagnostics) (summary detail : string) : Diagnostics :=
  Append ds [NewDiagnostic SeverityWarning summary detail].

Definition is_error (d : Diagnostic) : bool :=
  match Severity_of d with SeverityError => true | SeverityWarning => false end.

Definition HasError (ds : Diagnostics) : bool := existsb is_error ds.

End diag.
Export diag.

(* ===================================================================== *)
(** * The kaiak attribute descriptor (package [schema] of go-server) *)
(* ===================================================================== *)

Module schema.

(** [schema.Attribute]: one attribute as the server reports it.  The Go
    field [Type] is [Type_] here. *)
Record Attribute := {
  Name : string;
  Type_ : string;
  Description : string;
  Required : bool;
  ReadOnly : bool;
  Sensitive : bool;
  Reference : bool
}.

(** [schema.ResourceMeta] *)
Record ResourceMeta := {
  MetaName : string;
  Attributes : list Attribute
}.

End schema.

(* ===================================================================== *)
(** * Terraform types ([attr.Type]) and schema attributes ([tfschema]) *)
(* ===================================================================== *)

Inductive AttrType :=
  | BoolType
  | Int64Type
  | Float64Type
  | StringType
  | ListType (ElemType : AttrType)
  | MapType (ElemType : AttrType)
  | ObjectType (AttrTypes : gmap string AttrType).

(** [attr.Type.Equal] *)
Fixpoint AttrType_Equal (a b : AttrType) : bool :=
  match a, b with
  | BoolType, BoolType => true
  | Int64Type, Int64Type => true
  | Float64Type, Float64Type => true
  | StringType, StringType => true
  | ListType x, ListType y => AttrType_Equal x y
  | MapType x, MapType y => AttrType_Equal x y
  | ObjectType m1, ObjectType m2 =>
      bool_decide (dom m1 = dom m2) &&
      map_fold (fun k t1 acc =>
                  acc && match m2 !! k with
                         | Some t2 => AttrType_Equal t1 t2
                         | None => false
                         end) true m1
  | _, _ => false
  end.

Module tfschema.

Inductive PlanModifier := RequiresReplace | UseStateForUnknown.

(** [tfschema.Attribute]: the attribute kinds the translator builds. *)
Inductive Attribute :=
  | StringAttribute (Description : string)
      (Required Optional Computed Sensitive : bool)
      (PlanModifiers : list PlanModifier)
  | BoolAttribute (Description : string)
      (Required Optional Computed Sensitive : bool)
  | Int64Attribute (Description : string)
      (Required Optional Computed Sensitive : bool)
  | Float64Attribute (Description : string)
      (Required Optional Computed Sensitive : bool)
  | ListAttribute (Description : string) (ElementType : AttrType)
      (Required Optional Computed Sensitive : bool)
  | MapAttribute (Description : string) (ElementType : AttrType)
      (Required Optional Computed Sensitive : bool)
  | SingleNestedAttribute (Attributes : gmap string Attribute)
      (Required Optional Computed : bool).

(** [tfschema.Schema]; the zero value [Schema{}] has no description and
    a nil attribute map. *)
Record Schema := {
  Description : string;
  Attributes : gmap string Attribute
}.

Definition empty : Schema := {| Description := EmptyString; Attributes := ∅ |}.

End tfschema.

(** The terraform type of a schema attribute ([Attribute.GetType]). *)
Fixpoint attrTypeOf (a : tfschema.Attribute) : AttrType :=
  match a with
  | tfschema.StringAttribute _ _ _ _ _ _ => StringType
  | tfschema.BoolAttribute _ _ _ _ _ => BoolType
  | tfschema.Int64Attribute _ _ _ _ _ => Int64Type
  | tfschema.Float64Attribute _ _ _ _ _ => Float64Type
  | tfschema.ListAttribute _ e _ _ _ _ => ListType e
  | tfschema.MapAttribute _ e _ _ _ _ => MapType e
  | tfschema.SingleNestedAttribute attrs _ _ _ => ObjectType (attrTypeOf <$> attrs)
  end.

(* ===================================================================== *)
(** * schema.go: attribute naming *)
(* ===================================================================== *)

(** [attrInfo] maps a single kaiak attribute to its terraform
    representation. *)
Record attrInfo := {
  kaiakName : string;
  tfBlock : string;
  tfField : string;
  attr : schema.Attribute
}.

(** [newAttrInfo]: dots split into block and field at the first dot; the
    remaining dots of the field become underscores. *)
Definition newAttrInfo (a : schema.Attribute) : attrInfo :=
  match gostrings.SplitN2 (schema.Name a) dot with
  | [p0; p1] =>
      {| kaiakName := schema.Name a;
         tfBlock := p0;
         tfField := gostrings.ReplaceAll p1 dot underscore;
         attr := a |}
  | _ =>
      {| kaiakName := schema.Name a;
         tfBlock := EmptyString;
         tfField := schema.Name a;
         attr := a |}
  end.

(* ===================================================================== *)
(** * schema.go: attribute type helpers *)
(* ===================================================================== *)

(** The body of [kaiakMapElemType], over the function used for the value
    type. *)
Definition kaiakMapElemType_with (rec : string -> AttrType) (t : string) : AttrType :=
  match gostrings.Index t rbracket with
  | Some idx =>
      if idx + 1 <? String.length t then rec (gostrings.from (idx + 1) t)
      else StringType
  | None => StringType
  end.

(** [kaiakTypeToAttrType] recurses on a strict suffix of the type string;
    the recursion is bounded by a counter that starts at the length. *)
Fixpoint kaiakTypeToAttrType_fuel (n : nat) (t : string) : AttrType :=
  match n with
  | O => StringType
  | S n' =>
      if String.eqb t "bool" then BoolType
      else if String.eqb t "int" || String.eqb t "uint" then Int64Type
      else if String.eqb t "float" then Float64Type
      else if gostrings.HasPrefix t "[]" then
        ListType (kaiakTypeToAttrType_fuel n' (gostrings.from 2 t))
      else if gostrings.HasPrefix t "map[" then
        MapType (kaiakMapElemType_with (kaiakTypeToAttrType_fuel n') t)
      else StringType
  end.

Definition kaiakTypeToAttrType (t : string) : AttrType :=
  kaiakTypeToAttrType_fuel (String.length t) t.

Definition kaiakMapElemType (t : string) : AttrType :=
  kaiakMapElemType_with kaiakTypeToAttrType t.

(** [kaiakAttrToTF] converts a single kaiak attribute to a terraform schema
    attribute. *)
Definition kaiakAttrToTF (a : schema.Attribute) : tfschema.Attribute :=
  let opt := negb (schema.Required a) && negb (schema.ReadOnly a) in
  let computed := schema.ReadOnly a || opt in
  let t := schema.Type_ a in
  if String.eqb t "bool" then
    tfschema.BoolAttribute (schema.Description a) (schema.Required a) opt
      computed (schema.Sensitive a)
  else if String.eqb t "int" || String.eqb t "uint" then
    tfschema.Int64Attribute (schema.Description a) (schema.Required a) opt
      computed (schema.Sensitive a)
  else if String.eqb t "float" then
    tfschema.Float64Attribute (schema.Description a) (schema.Required a) opt
      computed (schema.Sensitive a)
  else if gostrings.HasPrefix t "[]" then
    tfschema.ListAttribute (schema.Description a)
      (kaiakTypeToAttrType (gostrings.from 2 t))
      (schema.Required a) opt computed (schema.Sensitive a)
  else if gostrings.HasPrefix t "map[" then
    tfschema.MapAttribute (schema.Description a) (kaiakMapElemType t)
      (schema.Required a) opt computed (schema.Sensitive a)
  else
    tfschema.StringAttribute (schema.Description a) (schema.Required a) opt
      computed (schema.Sensitive a) [].

(* ===================================================================== *)
(** * The Go runtime the provider relies on *)
(* ===================================================================== *)

(** Library functions the sources call and do not define.  [float64] and
    its conversions are the language's; [strconv_Quote] is the %q verb of
    [fmt.Sprintf] on a string; [time_Parse_RFC3339 s] is
    [time.Parse(time.RFC3339, s)] ([None] when it returns an error) and
    [time_Format_RFC3339 p] is [p.Format(time.RFC3339)]. *)
Class GoRuntime := {
  float64 : Type;
  float64_of_int : Z -> float64;
  int64_of_float64 : float64 -> Z;
  strconv_Quote : string -> string;
  Time : Type;
  time_Parse_RFC3339 : string -> option Time;
  time_Format_RFC3339 : Time -> string
}.

(** The double quote character, for message texts. *)
Definition dquote : string := String (ascii_of_nat 34) EmptyString.

Section SchemaTranslator.
Context `{RT : GoRuntime}.

(* ===================================================================== *)
(** * schema.go: buildResourceSchema *)
(* ===================================================================== *)

(** Top-level names reserved for internal use; a missing key reads as
    [false], as in Go. *)
Definition reserved : gmap string bool := {[ "name" := true; "id" := true ]}.

Definition is_reserved (f : string) : bool := default false (reserved !! f).

(** The key of the [seen] map: block, a slash, field. *)
Definition seenKey (info : attrInfo) : string :=
  tfBlock info +:+ "/" +:+ tfField info.

(** One iteration of the first loop of [buildResourceSchema], on the
    triple ([infos], [seen], [diags]). *)
Definition scanAttr (resourceName : string)
    (st : list attrInfo * gmap string string * Diagnostics)
    (a : schema.Attribute) : list attrInfo * gmap string string * Diagnostics :=
  let '(infos, seen, diags) := st in
  let info := newAttrInfo a in
  if String.eqb (tfBlock info) EmptyString && is_reserved (tfField info) then
    (infos, seen,
     AddError diags "Reserved attribute name"
       ("Resource " +:+ strconv_Quote resourceName +:+ ": attribute " +:+
        strconv_Quote (schema.Name a) +:+
        " conflicts with reserved terraform attribute " +:+
        strconv_Quote (tfField info)))
  else
    match seen !! seenKey info with
    | Some prev =>
        (infos, seen,
         AddError diags "Attribute naming collision"
           ("Resource " +:+ strconv_Quote resourceName +:+ ": attributes " +:+
            strconv_Quote prev +:+ " and " +:+ strconv_Quote (schema.Name a) +:+
            " both map to terraform field " +:+ strconv_Quote (tfField info) +:+
            " (block " +:+ strconv_Quote (tfBlock info) +:+ ")"))
    | None =>
        (infos ++ [info], <[seenKey info := schema.Name a]> seen, diags)
    end.

Definition scanAttrs (resourceName : string) (kaiakAttrs : list schema.Attribute)
    : list attrInfo * gmap string string * Diagnostics :=
  fold_left (scanAttr resourceName) kaiakAttrs ([], ∅, []).

(** The fixed [name] and [id] attributes. *)
Definition fixedAttrs : gmap string tfschema.Attribute :=
  {[ "name" :=
       tfschema.StringAttribute
         ("Instance label (e.g. " +:+ dquote +:+ "main" +:+ dquote +:+ ").")
         true false false false [tfschema.RequiresReplace];
     "id" :=
       tfschema.StringAttribute
         "Fully qualified instance name (resource_type.label)."
         false false true false [tfschema.UseStateForUnknown] ]}.

(** One iteration of the grouping loop, on the pair ([tfAttrs], [blocks]).
    The inner map of a block is created on first use and updated in place. *)
Definition groupAttr
    (st : gmap string tfschema.Attribute * gmap string (gmap string tfschema.Attribute))
    (info : attrInfo)
    : gmap string tfschema.Attribute * gmap string (gmap string tfschema.Attribute) :=
  let '(tfAttrs, blocks) := st in
  let tfAttr := kaiakAttrToTF (attr info) in
  if negb (String.eqb (tfBlock info) EmptyString) then
    (tfAttrs,
     <[tfBlock info := <[tfField info := tfAttr]> (default ∅ (blocks !! tfBlock info))]> blocks)
  else
    (<[tfField info := tfAttr]> tfAttrs, blocks).

(** The [Required] flag read by the type switch of the last loop; an
    attribute kind the switch has no case for leaves [required] as it is. *)
Definition attrRequired (a : tfschema.Attribute) : bool :=
  match a with
  | tfschema.StringAttribute _ r _ _ _ _ => r
  | tfschema.BoolAttribute _ r _ _ _ => r
  | tfschema.Int64Attribute _ r _ _ _ => r
  | tfschema.Float64Attribute _ r _ _ _ => r
  | tfschema.ListAttribute _ _ r _ _ _ => r
  | tfschema.MapAttribute _ _ r _ _ _ => r
  | tfschema.SingleNestedAttribute _ _ _ _ => false
  end.

Definition blockRequired (blockAttrs : gmap string tfschema.Attribute) : bool :=
  map_fold (fun _ a required => if attrRequired a then true else required)
    false blockAttrs.

Definition nestBlock (blockAttrs : gmap string tfschema.Attribute) : tfschema.Attribute :=
  let required := blockRequired blockAttrs in
  tfschema.SingleNestedAttribute blockAttrs required (negb required) (negb required).

(** The last loop: every block becomes a SingleNestedAttribute stored under
    the block name. *)
Definition nestBlocks (tfAttrs : gmap string tfschema.Attribute)
    (blocks : gmap string (gmap string tfschema.Attribute))
    : gmap string tfschema.Attribute :=
  map_fold (fun blockName blockAttrs acc => <[blockName := nestBlock blockAttrs]> acc)
    tfAttrs blocks.

Definition buildResourceSchema (resourceName : string)
    (kaiakAttrs : list schema.Attribute)
    : tfschema.Schema * list attrInfo * Diagnostics :=
  let '(infos, _, diags) := scanAttrs resourceName kaiakAttrs in
  if HasError diags then (tfschema.empty, [], diags)
  else
    let '(tfAttrs, blocks) := fold_left groupAttr infos (fixedAttrs, ∅) in
    ({| tfschema.Description :=
          "Manages a " +:+ resourceName +:+
          " resource instance on a running Kaiak server.";
        tfschema.Attributes := nestBlocks tfAttrs blocks |},
     infos, diags).

(* --------------------------------------------------------------------- *)
(** ** Predicates used to state the properties of the translator *)
(* --------------------------------------------------------------------- *)

(** A descriptor the reserved-name check rejects. *)
Definition topReserved (info : attrInfo) : bool :=
  String.eqb (tfBlock info) EmptyString && is_reserved (tfField info).

(** The two diagnostics of the first loop. *)
Definition conflictDiagnostic (d : Diagnostic) : Prop :=
  Severity_of d = SeverityError ∧
  (Summary d = "Reserved attribute name" ∨ Summary d = "Attribute naming collision").

(** The invariant of the first loop.  The keys of [seen] are the keys of
    the infos kept so far, which are pairwise distinct; every diagnostic is
    an error of the loop; and as long as there is none, every descriptor
    was kept and none was reserved. *)
Definition scanInvariant (l : list schema.Attribute)
    (st : list attrInfo * gmap string string * Diagnostics) : Prop :=
  let '(infos, seen, diags) := st in
  (∀ k, is_Some (seen !! k) ↔ k ∈ map seenKey infos) ∧
  NoDup (map seenKey infos) ∧
  Forall conflictDiagnostic diags ∧
  (diags = [] →
   infos = map newAttrInfo l ∧
   Forall (fun a => topReserved (newAttrInfo a) = false) l).

(** The [Optional] and [Computed] flags of a schema attribute. *)
Definition attrOptional (a : tfschema.Attribute) : bool :=
  match a with
  | tfschema.StringAttribute _ _ o _ _ _ => o
  | tfschema.BoolAttribute _ _ o _ _ => o
  | tfschema.Int64Attribute _ _ o _ _ => o
  | tfschema.Float64Attribute _ _ o _ _ => o
  | tfschema.ListAttribute _ _ _ o _ _ => o
  | tfschema.MapAttribute _ _ _ o _ _ => o
  | tfschema.SingleNestedAttribute _ _ o _ => o
  end.

Definition attrComputed (a : tfschema.Attribute) : bool :=
  match a with
  | tfschema.StringAttribute _ _ _ c _ _ => c
  | tfschema.BoolAttribute _ _ _ c _ => c
  | tfschema.Int64Attribute _ _ _ c _ => c
  | tfschema.Float64Attribute _ _ _ c _ => c
  | tfschema.ListAttribute _ _ _ _ c _ => c
  | tfschema.MapAttribute _ _ _ _ c _ => c
  | tfschema.SingleNestedAttribute _ _ _ c => c
  end.

(** The attribute kinds [kaiakAttrToTF] builds. *)
Definition isLeaf (a : tfschema.Attribute) : Prop :=
  match a with tfschema.SingleNestedAttribute _ _ _ _ => False | _ => True end.

End SchemaTranslator.

(* ===================================================================== *)
(** * Dynamic values, terraform values *)
(* ===================================================================== *)

Section Values.
Context `{RT : GoRuntime}.

(** The dynamic values ([any]) the provider handles: what decoding JSON
    yields (nil, bool, float64, string, []interface{},
    map[string]interface{}), and the Go values read from a plan (bool,
    int64, float64, string, slices and maps of these); [go_int] is Go's
    [int], which only [kaiakValueToTF] has a case for. *)
Inductive any :=
  | go_nil
  | go_bool (b : bool)
  | go_int (n : Z)
  | go_int64 (n : Z)
  | go_float64 (f : float64)
  | go_string (s : string)
  | go_slice (items : list any)
  | go_map (items : gmap string any).

(** [attr.Value]: each kind is null, unknown or known. *)
Inductive Value :=
  | BoolNull | BoolUnknown | BoolValue (b : bool)
  | Int64Null | Int64Unknown | Int64Value (n : Z)
  | Float64Null | Float64Unknown | Float64Value (f : float64)
  | StringNull | StringUnknown | StringValue (s : string)
  | ListNull (ElemType : AttrType)
  | ListUnknown (ElemType : AttrType)
  | ListKnown (ElemType : AttrType) (elems : list Value)
  | MapNull (ElemType : AttrType)
  | MapUnknown (ElemType : AttrType)
  | MapKnown (ElemType : AttrType) (elems : gmap string Value)
  | ObjectNull (AttrTypes : gmap string AttrType)
  | ObjectUnknown (AttrTypes : gmap string AttrType)
  | ObjectKnown (AttrTypes : gmap string AttrType) (attrs : gmap string Value).

(** [Value.Type] *)
Definition Value_Type (v : Value) : AttrType :=
  match v with
  | BoolNull | BoolUnknown | BoolValue _ => BoolType
  | Int64Null | Int64Unknown | Int64Value _ => Int64Type
  | Float64Null | Float64Unknown | Float64Value _ => Float64Type
  | StringNull | StringUnknown | StringValue _ => StringType
  | ListNull e | ListUnknown e | ListKnown e _ => ListType e
  | MapNull e | MapUnknown e | MapKnown e _ => MapType e
  | ObjectNull ts | ObjectUnknown ts | ObjectKnown ts _ => ObjectType ts
  end.

Definition IsNull (v : Value) : bool :=
  match v with
  | BoolNull | Int64Null | Float64Null | StringNull
  | ListNull _ | MapNull _ | ObjectNull _ => true
  | _ => false
  end.

Definition IsUnknown (v : Value) : bool :=
  match v with
  | BoolUnknown | Int64Unknown | Float64Unknown | StringUnknown
  | ListUnknown _ | MapUnknown _ | ObjectUnknown _ => true
  | _ => false
  end.

(** The concrete kinds a type assertion [v.(types.Bool)] and the typed
    target of [GetAttribute] distinguish. *)
Inductive Kind := KBool | KInt64 | KFloat64 | KString | KList | KMap | KObject.

#[export] Instance Kind_eq_dec : EqDecision Kind.
Proof. solve_decision. Defined.

Definition kindOf (v : Value) : Kind :=
  match v with
  | BoolNull | BoolUnknown | BoolValue _ => KBool
  | Int64Null | Int64Unknown | Int64Value _ => KInt64
  | Float64Null | Float64Unknown | Float64Value _ => KFloat64
  | StringNull | StringUnknown | StringValue _ => KString
  | ListNull _ | ListUnknown _ | ListKnown _ _ => KList
  | MapNull _ | MapUnknown _ | MapKnown _ _ => KMap
  | ObjectNull _ | ObjectUnknown _ | ObjectKnown _ _ => KObject
  end.

(** A diagnostic raised inside the plugin framework; only its summary is
    recorded. *)
Definition frameworkError (summary : string) : Diagnostic :=
  NewDiagnostic SeverityError summary EmptyString.

(** [types.ListValue]: every element must have the element type. *)
Definition ListValue (elemType : AttrType) (elems : list Value) : Value * Diagnostics :=
  if forallb (fun e => AttrType_Equal elemType (Value_Type e)) elems
  then (ListKnown elemType elems, [])
  else (ListUnknown elemType, [frameworkError "Invalid List Element Type"]).

(** [types.MapValue] *)
Definition MapValue (elemType : AttrType) (elems : gmap string Value) : Value * Diagnostics :=
  if map_fold (fun _ e acc => acc && AttrType_Equal elemType (Value_Type e)) true elems
  then (MapKnown elemType elems, [])
  else (MapUnknown elemType, [frameworkError "Invalid Map Element Type"]).

(** [types.ObjectValue]: the values must be those of the declared
    attributes, each of its declared type. *)
Definition ObjectValue (attrTypes : gmap string AttrType) (attrValues : gmap string Value)
    : Value * Diagnostics :=
  if bool_decide (dom attrTypes = dom attrValues) &&
     map_fold (fun k v acc =>
                 acc && match attrTypes !! k with
                        | Some t => AttrType_Equal t (Value_Type v)
                        | None => false
                        end) true attrValues
  then (ObjectKnown attrTypes attrValues, [])
  else (ObjectUnknown attrTypes, [frameworkError "Invalid Object Attribute Type"]).

(** The accessors [ValueBool], [ValueInt64], [ValueFloat64], [ValueString],
    [Elements], [Attributes]: the zero value unless the value is known. *)
Definition ValueBool (v : Value) : bool :=
  match v with BoolValue b => b | _ => false end.
Definition ValueInt64 (v : Value) : Z :=
  match v with Int64Value n => n | _ => 0%Z end.
Definition ValueFloat64 (v : Value) : float64 :=
  match v with Float64Value f => f | _ => float64_of_int 0 end.
Definition ValueString (v : Value) : string :=
  match v with StringValue s => s | _ => EmptyString end.
Definition ListElements (v : Value) : list Value :=
  match v with ListKnown _ l => l | _ => [] end.
Definition MapElements (v : Value) : gmap string Value :=
  match v with MapKnown _ m => m | _ => ∅ end.
Definition ObjectAttributes (v : Value) : gmap string Value :=
  match v with ObjectKnown _ m => m | _ => ∅ end.

(** [fmt.Sprintf] with the %v verb, on a dynamic value and on an
    [attr.Value] (which prints through its [String] method). *)
Class GoFmt := {
  fmt_Sprint_v : any -> string;
  fmt_Sprint_Value : Value -> string
}.

End Values.

Arguments GoFmt {RT}.

Section TypeCoercer.
Context `{RT : GoRuntime} `{FM : !GoFmt}.

(* ===================================================================== *)
(** * schema.go: kaiakNullValue, kaiakValueToTF *)
(* ===================================================================== *)

(** [kaiakNullValue] returns a typed null for the given kaiak type. *)
Definition kaiakNullValue (t : string) : Value :=
  if String.eqb t "bool" then BoolNull
  else if String.eqb t "int" || String.eqb t "uint" then Int64Null
  else if String.eqb t "float" then Float64Null
  else if gostrings.HasPrefix t "[]" then
    ListNull (kaiakTypeToAttrType (gostrings.from 2 t))
  else if gostrings.HasPrefix t "map[" then MapNull (kaiakMapElemType t)
  else StringNull.

(** The last statement of [kaiakValueToTF]: the string rendering. *)
Definition stringFallback (v : any) : Value := StringValue (fmt_Sprint_v v).

(** [kaiakSliceToTF], over the function used on the items. *)
Definition kaiakSliceToTF_with (rec : any -> string -> Value) (v : any) (t : string) : Value :=
  let elemType := kaiakTypeToAttrType (gostrings.from 2 t) in
  match v with
  | go_slice items =>
      let elems := map (fun item => rec item (gostrings.from 2 t)) items in
      let '(list, diags) := ListValue elemType elems in
      if HasError diags then ListNull elemType else list
  | _ => ListNull elemType
  end.

(** [kaiakMapToTF], over the function used on the items. *)
Definition kaiakMapToTF_with (rec : any -> string -> Value) (v : any) (t : string) : Value :=
  let elemType := kaiakMapElemType t in
  match v with
  | go_map items =>
      match gostrings.Index t rbracket with
      | Some idx =>
          if idx + 1 <? String.length t then
            let valType := gostrings.from (idx + 1) t in
            let elems := (fun item => rec item valType) <$> items in
            let '(m, diags) := MapValue elemType elems in
            if HasError diags then MapNull elemType else m
          else MapNull StringType
      | None => MapNull StringType
      end
  | _ => MapNull elemType
  end.

(** [kaiakValueToTF] converts a kaiak state value to a terraform value.
    The recursion is on the dynamic value: list and map items are
    converted at the element type tag. *)
Fixpoint kaiakValueToTF (v : any) (t : string) {struct v} : Value :=
  match v with
  | go_nil => kaiakNullValue t
  | _ =>
      if String.eqb t "bool" then
        match v with
        | go_bool b => BoolValue b
        | _ => stringFallback v
        end
      else if String.eqb t "int" || String.eqb t "uint" then
        match v with
        | go_float64 n => Int64Value (int64_of_float64 n)
        | go_int n => Int64Value n
        | _ => stringFallback v
        end
      else if String.eqb t "float" then
        match v with
        | go_float64 n => Float64Value n
        | go_int n => Float64Value (float64_of_int n)
        | _ => stringFallback v
        end
      else if gostrings.HasPrefix t "[]" then
        kaiakSliceToTF_with kaiakValueToTF v t
      else if gostrings.HasPrefix t "map[" then
        kaiakMapToTF_with kaiakValueToTF v t
      else if String.eqb t "time" then
        match v with
        | go_string s =>
            match time_Parse_RFC3339 s with
            | Some parsed => StringValue (time_Format_RFC3339 parsed)
            | None => StringValue s
            end
        | _ => stringFallback v
        end
      else stringFallback v
  end.

Definition kaiakSliceToTF : any -> string -> Value := kaiakSliceToTF_with kaiakValueToTF.
Definition kaiakMapToTF : any -> string -> Value := kaiakMapToTF_with kaiakValueToTF.

(** Whether the runtime type of [v] is the one the case of tag [t] in
    [kaiakValueToTF] asserts: bool for bool; float64 or int for int, uint
    and float; a slice for a list tag; a map for a map tag; a string for
    time and for every other tag. *)
Definition shapeMatches (t : string) (v : any) : bool :=
  if String.eqb t "bool" then
    match v with go_bool _ => true | _ => false end
  else if String.eqb t "int" || String.eqb t "uint" || String.eqb t "float" then
    match v with go_float64 _ | go_int _ => true | _ => false end
  else if gostrings.HasPrefix t "[]" then
    match v with go_slice _ => true | _ => false end
  else if gostrings.HasPrefix t "map[" then
    match v with go_map _ => true | _ => false end
  else
    match v with go_string _ => true | _ => false end.

End TypeCoercer.

(* ===================================================================== *)
(** * resource.go: the dynamic resource *)
(* ===================================================================== *)

(** [hex.EncodeToString] *)
Definition hexDigit (n : N) : ascii :=
  if (n <? 10)%N then ascii_of_N (48 + n) else ascii_of_N (87 + n).

Definition hex_EncodeToString (b : list ascii) : string :=
  fold_right (fun c acc =>
                String (hexDigit (N_of_ascii c / 16))
                  (String (hexDigit (N_of_ascii c mod 16)) acc))
    EmptyString b.

(** The result of a call that returns a value and an error. *)
Inductive result (A : Type) :=
  | Ok (a : A)
  | Err (msg : string).
Arguments Ok {A} a.
Arguments Err {A} msg.

Section Controller.
Context `{RT : GoRuntime} `{FM : !GoFmt}.
(** The state of the remote Kaiak server; the client's calls act on it. *)
Context {Server : Type}.

(** [httpclient.Client]: the four calls the resource makes, each returning
    the error text of a failed call. *)
Record Client := {
  CreateResourceInstance : string -> Server -> option string * Server;
  UpdateResourceInstance :
    string -> gmap string any -> bool -> Server -> option string * Server;
  DestroyResourceInstance : string -> bool -> Server -> option string * Server;
  GetResourceInstance : string -> Server -> result (gmap string any) * Server
}.

(** [dynamicResource] implements a Terraform resource whose schema is
    discovered at runtime from the Kaiak server. *)
Record dynamicResource := {
  client : option Client;
  meta : schema.ResourceMeta;
  infos : list attrInfo
}.

Definition newDynamicResource (meta : schema.ResourceMeta) : dynamicResource :=
  {| client := None; meta := meta; infos := [] |}.

(** The requests sent to the server, in order. *)
Inductive Call :=
  | CallCreate (name : string)
  | CallUpdate (name : string) (attributes : gmap string any) (apply : bool)
  | CallDestroy (name : string) (force : bool)
  | CallGet (name : string).

(** What a method of the resource acts on: the receiver, the remote
    server, the log of requests, and the bytes [crypto/rand] will yield. *)
Record World := {
  self : dynamicResource;
  remote : Server;
  calls : list Call;
  random : list ascii
}.

Definition M (A : Type) : Type := World -> A * World.

#[export] Instance M_ret : MRet M := fun A a w => (a, w).
#[export] Instance M_bind : MBind M :=
  fun A B f m w => let '(a, w') := m w in f a w'.

Definition get_self : M dynamicResource := fun w => (self w, w).

Definition set_infos (l : list attrInfo) : M unit := fun w =>
  (tt, {| self := {| client := client (self w); meta := meta (self w); infos := l |};
          remote := remote w; calls := calls w; random := random w |}).

Definition set_client (c : Client) : M unit := fun w =>
  (tt, {| self := {| client := Some c; meta := meta (self w); infos := infos (self w) |};
          remote := remote w; calls := calls w; random := random w |}).

(** A request: it acts on the server and is logged. *)
Definition request {A : Type} (c : Call) (f : Server -> A * Server) : M A := fun w =>
  let '(a, s) := f (remote w) in
  (a, {| self := self w; remote := s; calls := calls w ++ [c]; random := random w |}).

(** [rand.Read(b)] for a buffer of [n] bytes. *)
Definition rand_Read (n : nat) : M (list ascii) := fun w =>
  (take n (random w ++ replicate n Ascii.zero),
   {| self := self w; remote := remote w; calls := calls w;
      random := drop n (random w) |}).

(** [getInfos] returns the cached attrInfo slice, building it on first
    call. *)
Definition getInfos : M (list attrInfo) :=
  r ← get_self;
  match infos r with
  | [] =>
      let infos := (buildResourceSchema (schema.MetaName (meta r))
                      (schema.Attributes (meta r))).1.2 in
      _ ← set_infos infos;
      mret infos
  | _ => mret (infos r)
  end.

(** [fullName] returns the fully-qualified kaiak instance name. *)
Definition fullName (r : dynamicResource) (label : string) : string :=
  schema.MetaName (meta r) +:+ "." +:+ label.

(** [generateLabel] returns a short random hex string. *)
Definition generateLabel : M string :=
  b ← rand_Read 4;
  mret ("tf_" +:+ hex_EncodeToString b).

(** A diagnostic the framework attaches to an attribute path: its summary
    is recorded, and the path stands for its detail. *)
Definition attributeError (summary p : string) : Diagnostic :=
  NewDiagnostic SeverityError summary p.

(** The schema of the states the framework hands to the methods of a
    resource ([tfsdk.State.Schema]): the schema the resource answers to
    [Schema], which [buildResourceSchema] makes from the metadata. *)
Definition resourceSchema (r : dynamicResource) : gmap string tfschema.Attribute :=
  tfschema.Attributes
    (buildResourceSchema (schema.MetaName (meta r)) (schema.Attributes (meta r))).1.1.

(** The terraform state, plan and config of one resource: the values of
    the root attributes.  [State.SetAttribute] stores a root attribute of
    a state with schema [sch]: the framework looks up the type of the
    attribute at the path and converts the value to it; a value of another
    type is refused with Value Conversion Error and nothing is written,
    and so is a path the schema does not have, with State Write Error. *)
Definition SetAttribute (sch : gmap string tfschema.Attribute) (st : gmap string Value)
    (p : string) (v : Value) : gmap string Value * Diagnostics :=
  match sch !! p with
  | Some a =>
      if AttrType_Equal (attrTypeOf a) (Value_Type v) then (<[p := v]> st, [])
      else (st, [attributeError "Value Conversion Error" p])
  | None => (st, [attributeError "State Write Error" p])
  end.

(** [GetAttribute] into a typed target of kind [k]: the target is the
    value at the path when it has that kind; otherwise the call reports an
    error and the target keeps its zero value ([None]), which is null. *)
Definition GetAttribute (src : gmap string Value) (p : string) (k : Kind)
    : option Value * Diagnostics :=
  match src !! p with
  | Some v =>
      if decide (kindOf v = k) then (Some v, [])
      else (None, [frameworkError "Value Conversion Error"])
  | None => (None, [frameworkError "Attribute Not Found"])
  end.

(** [!v.IsNull() && !v.IsUnknown()] on a target. *)
Definition isKnown (target : option Value) : option Value :=
  match target with
  | Some v => if negb (IsNull v) && negb (IsUnknown v) then Some v else None
  | None => None
  end.

(** The state and diagnostics a request hands to a method and gets back. *)
Record Response := {
  State : gmap string Value;
  Diagnostics_of : Diagnostics
}.

Definition Metadata (r : dynamicResource) (providerTypeName : string) : string :=
  providerTypeName +:+ "_" +:+ schema.MetaName (meta r).

Record SchemaResponse := {
  Schema_of : tfschema.Schema;
  SchemaDiagnostics : Diagnostics
}.

Definition Schema (resp : SchemaResponse) : M SchemaResponse :=
  r ← get_self;
  let '(s, infos, diags) :=
    buildResourceSchema (schema.MetaName (meta r)) (schema.Attributes (meta r)) in
  let ds := Append (SchemaDiagnostics resp) diags in
  if HasError ds then mret {| Schema_of := Schema_of resp; SchemaDiagnostics := ds |}
  else
    _ ← set_infos infos;
    mret {| Schema_of := s; SchemaDiagnostics := ds |}.

(** [req.ProviderData] *)
Inductive ProviderData :=
  | ProviderNil
  | ProviderClient (c : Client)
  | ProviderOther (typeName : string).

Definition Configure (data : ProviderData) (diags : Diagnostics) : M Diagnostics :=
  match data with
  | ProviderNil => mret diags
  | ProviderOther typeName =>
      mret (AddError diags "Unexpected provider data type"
              ("Expected *httpclient.Client, got " +:+ typeName))
  | ProviderClient c => _ ← set_client c; mret diags
  end.

(** [requireClient]: the client, or the diagnostics with the error added. *)
Definition requireClient (r : dynamicResource) (diags : Diagnostics)
    : option Client * Diagnostics :=
  match client r with
  | Some c => (Some c, diags)
  | None =>
      (None,
       AddError diags "Resource not configured"
         "The provider has not been configured. Ensure the provider block is present and valid.")
  end.

(* --------------------------------------------------------------------- *)
(** ** Extraction: terraform plan or config to kaiak state *)
(* --------------------------------------------------------------------- *)

(** [tfElemToGo] converts a terraform value to its Go equivalent for a
    given kaiak type string. *)
Definition tfElemToGo (v : Value) (t : string) : any :=
  let rest :=
    if decide (kindOf v = KString) then go_string (ValueString v)
    else go_string (fmt_Sprint_Value v) in
  if String.eqb t "bool" then
    if decide (kindOf v = KBool) then go_bool (ValueBool v) else rest
  else if String.eqb t "int" || String.eqb t "uint" then
    if decide (kindOf v = KInt64) then go_int64 (ValueInt64 v) else rest
  else if String.eqb t "float" then
    if decide (kindOf v = KFloat64) then go_float64 (ValueFloat64 v) else rest
  else rest.

Definition tfListToKaiak (list : Value) (elemType : string) : any :=
  go_slice (map (fun e => tfElemToGo e elemType) (ListElements list)).

Definition tfMapToKaiak (m : Value) (valType : string) : any :=
  go_map ((fun e => tfElemToGo e valType) <$> MapElements m).

(** The value [extractSingleAttr] and [extractBlockAttr] store for a known
    value [v] of the kind the type string asks for; [None] when the map
    type string has no value type and nothing is stored. *)
Definition goValueOf (t : string) (v : Value) : option any :=
  if String.eqb t "bool" then Some (go_bool (ValueBool v))
  else if String.eqb t "int" || String.eqb t "uint" then Some (go_int64 (ValueInt64 v))
  else if String.eqb t "float" then Some (go_float64 (ValueFloat64 v))
  else if gostrings.HasPrefix t "[]" then Some (tfListToKaiak v (gostrings.from 2 t))
  else if gostrings.HasPrefix t "map[" then
    match gostrings.Index t rbracket with
    | Some idx =>
        if idx + 1 <? String.length t
        then Some (tfMapToKaiak v (gostrings.from (idx + 1) t))
        else None
    | None => None
    end
  else Some (go_string (ValueString v)).

(** The kind of the typed variable each case of the switch declares. *)
Definition kindFor (t : string) : Kind :=
  if String.eqb t "bool" then KBool
  else if String.eqb t "int" || String.eqb t "uint" then KInt64
  else if String.eqb t "float" then KFloat64
  else if gostrings.HasPrefix t "[]" then KList
  else if gostrings.HasPrefix t "map[" then KMap
  else KString.

(** [extractSingleAttr] reads a single top-level terraform attribute and
    stores the Go value into the kaiak state map. *)
Definition extractSingleAttr (src : gmap string Value) (p : string) (info : attrInfo)
    (state : gmap string any) (diags : Diagnostics)
    : gmap string any * Diagnostics :=
  let t := schema.Type_ (attr info) in
  let '(v, d) := GetAttribute src p (kindFor t) in
  let diags := Append diags d in
  match isKnown v with
  | Some v =>
      match goValueOf t v with
      | Some g => (<[kaiakName info := g]> state, diags)
      | None => (state, diags)
      end
  | None => (state, diags)
  end.

(** [extractBlockAttr] reads a single attribute from a block object value
    and stores the Go value into the kaiak state map. *)
Definition extractBlockAttr (info : attrInfo) (v : Value) (state : gmap string any)
    : gmap string any :=
  let t := schema.Type_ (attr info) in
  if decide (kindOf v = kindFor t) then
    match isKnown (Some v) with
    | Some v =>
        match goValueOf t v with
        | Some g => <[kaiakName info := g]> state
        | None => state
        end
    | None => state
    end
  else state.

(** The groups of the second loop of [extractAttrs] and of [writeState]:
    the infos of each block, in order; [skip] tells which infos the loop
    passes over. *)
Definition groupByBlock (skip : attrInfo -> bool) (infos : list attrInfo)
    : gmap string (list attrInfo) :=
  fold_left (fun groups info =>
               if skip info then groups
               else <[tfBlock info := default [] (groups !! tfBlock info) ++ [info]]> groups)
    infos ∅.

(** The first loop of [extractAttrs]: the top-level attributes. *)
Definition extractTop (infos : list attrInfo) (src : gmap string Value)
    (st : gmap string any * Diagnostics) : gmap string any * Diagnostics :=
  fold_left (fun '(state, diags) info =>
               if schema.ReadOnly (attr info) || negb (String.eqb (tfBlock info) EmptyString)
               then (state, diags)
               else extractSingleAttr src (tfField info) info state diags)
    infos st.

(** The body of the last loop of [extractAttrs], for one block. *)
Definition extractBlock (src : gmap string Value) (blockName : string)
    (infos : list attrInfo) (st : gmap string any * Diagnostics)
    : gmap string any * Diagnostics :=
  let '(state, diags) := st in
  let '(block, d) := GetAttribute src blockName KObject in
  let diags := Append diags d in
  match isKnown block with
  | None => (state, diags)
  | Some block =>
      let attrs := ObjectAttributes block in
      (fold_left (fun state info =>
                    match attrs !! tfField info with
                    | Some v => extractBlockAttr info v state
                    | None => state
                    end) infos state,
       diags)
  end.

(** The second and last loops of [extractAttrs]: the block attributes,
    grouped by block name. *)
Definition extractBlocks (infos : list attrInfo) (src : gmap string Value)
    (st : gmap string any * Diagnostics) : gmap string any * Diagnostics :=
  let blockGroups :=
    groupByBlock (fun info => schema.ReadOnly (attr info) || String.eqb (tfBlock info) EmptyString)
      infos in
  map_fold (extractBlock src) st blockGroups.

(** [extractAttrs] reads all non-readonly kaiak attributes from a terraform
    plan (or config). *)
Definition extractAttrs (src : gmap string Value) (diags : Diagnostics)
    : M (gmap string any * Diagnostics) :=
  infos1 ← getInfos;
  let top := extractTop infos1 src (∅, diags) in
  infos2 ← getInfos;
  mret (extractBlocks infos2 src top).

(* --------------------------------------------------------------------- *)
(** ** Reconciliation: kaiak state to terraform state *)
(* --------------------------------------------------------------------- *)

Definition is_nil (v : any) : bool :=
  match v with go_nil => true | _ => false end.

(** The merge of [writeState]: the server state wins, then the planned
    value of a writable attribute the server state lacks is taken. *)
Definition mergePlanned (infos : list attrInfo) (merged plannedAttrs : gmap string any)
    : gmap string any :=
  fold_left (fun merged info =>
               if schema.ReadOnly (attr info) then merged
               else match merged !! kaiakName info with
                    | Some _ => merged
                    | None =>
                        match plannedAttrs !! kaiakName info with
                        | Some pv => <[kaiakName info := pv]> merged
                        | None => merged
                        end
                    end)
    infos merged.

(** [merged] of [writeState]: a copy of the server state, completed from
    [plannedAttrs] unless that is nil ([None]). *)
Definition mergeState (kaiakState : gmap string any)
    (plannedAttrs : option (gmap string any)) : M (gmap string any) :=
  match plannedAttrs with
  | Some planned => infos ← getInfos; mret (mergePlanned infos kaiakState planned)
  | None => mret kaiakState
  end.

(** The types and values of one block, and whether any value is set. *)
Definition blockObject (merged : gmap string any) (infos : list attrInfo)
    : gmap string AttrType * gmap string Value * bool :=
  fold_left (fun '(attrTypes, attrValues, hasValue) info =>
               let t := schema.Type_ (attr info) in
               let attrTypes := <[tfField info := kaiakTypeToAttrType t]> attrTypes in
               match merged !! kaiakName info with
               | Some v =>
                   if negb (is_nil v)
                   then (attrTypes, <[tfField info := kaiakValueToTF v t]> attrValues, true)
                   else (attrTypes, <[tfField info := kaiakNullValue t]> attrValues, hasValue)
               | None =>
                   (attrTypes, <[tfField info := kaiakNullValue t]> attrValues, hasValue)
               end)
    infos (∅, ∅, false).

(** The loop of [writeState] over the top-level attributes. *)
Definition writeTop (sch : gmap string tfschema.Attribute) (infos : list attrInfo)
    (merged : gmap string any)
    (st : gmap string Value * Diagnostics) : gmap string Value * Diagnostics :=
  fold_left (fun '(tfState, diags) info =>
               if negb (String.eqb (tfBlock info) EmptyString) then (tfState, diags)
               else
                 let v := default go_nil (merged !! kaiakName info) in
                 let '(tfState, d) :=
                   SetAttribute sch tfState (tfField info)
                     (kaiakValueToTF v (schema.Type_ (attr info))) in
                 (tfState, Append diags d))
    infos st.

(** The body of the last loop of [writeState], for one block. *)
Definition writeBlock (sch : gmap string tfschema.Attribute) (merged : gmap string any)
    (blockName : string)
    (infos : list attrInfo) (st : gmap string Value * Diagnostics)
    : gmap string Value * Diagnostics :=
  let '(tfState, diags) := st in
  let '(attrTypes, attrValues, hasValue) := blockObject merged infos in
  if hasValue then
    let '(obj, d) := ObjectValue attrTypes attrValues in
    let diags := Append diags d in
    let '(tfState, d) := SetAttribute sch tfState blockName obj in
    (tfState, Append diags d)
  else
    let '(tfState, d) := SetAttribute sch tfState blockName (ObjectNull attrTypes) in
    (tfState, Append diags d).

(** The loops of [writeState] over the block attributes: each block is set
    as a typed object. *)
Definition writeBlocks (sch : gmap string tfschema.Attribute) (infos : list attrInfo)
    (merged : gmap string any)
    (st : gmap string Value * Diagnostics) : gmap string Value * Diagnostics :=
  let blockGroups :=
    groupByBlock (fun info => String.eqb (tfBlock info) EmptyString) infos in
  map_fold (writeBlock sch merged) st blockGroups.

(** [writeState] fetches the instance from the server and populates the
    terraform state with the id and all resource attributes.  The caller
    holds the client [c] (every caller passes [requireClient] first).  The
    state [tfState] has the schema of the resource. *)
Definition writeState (c : Client) (fullName : string) (tfState : gmap string Value)
    (diags : Diagnostics) (plannedAttrs : option (gmap string any))
    : M (gmap string Value * Diagnostics) :=
  res ← request (CallGet fullName) (GetResourceInstance c fullName);
  match res with
  | Err e => mret (tfState, AddError diags "Failed to read resource instance" e)
  | Ok kaiakState =>
      r ← get_self;
      let sch := resourceSchema r in
      let '(tfState, d) := SetAttribute sch tfState "id" (StringValue fullName) in
      let diags := Append diags d in
      merged ← mergeState kaiakState plannedAttrs;
      infos1 ← getInfos;
      let top := writeTop sch infos1 merged (tfState, diags) in
      infos2 ← getInfos;
      mret (writeBlocks sch infos2 merged top)
  end.

(* --------------------------------------------------------------------- *)
(** ** Create, Read, Update, Delete, ImportState *)
(* --------------------------------------------------------------------- *)

Definition ValueString_of (target : option Value) : string :=
  match target with Some v => ValueString v | None => EmptyString end.

Definition cleanupWarning (diags : Diagnostics) (what fullName : string)
    (cleanupErr : option string) : Diagnostics :=
  match cleanupErr with
  | Some e =>
      AddWarning diags "Cleanup failed"
        ("Instance " +:+ fullName +:+ " was created but " +:+ what +:+ " failed. " +:+
         "Attempted to destroy the instance but cleanup also failed: " +:+ e +:+ ". " +:+
         "The instance may need manual removal.")
  | None => diags
  end.

Definition Create (plan : gmap string Value) (resp : Response) : M Response :=
  r ← get_self;
  let '(c, diags) := requireClient r (Diagnostics_of resp) in
  match c with
  | None => mret {| State := State resp; Diagnostics_of := diags |}
  | Some c =>
      label ← generateLabel;
      let fullName := fullName r label in
      err ← request (CallCreate fullName) (CreateResourceInstance c fullName);
      match err with
      | Some e =>
          mret {| State := State resp;
                  Diagnostics_of := AddError diags "Failed to create resource instance" e |}
      | None =>
          '(attrs, diags) ← extractAttrs plan diags;
          if HasError diags then
            cleanupErr ← request (CallDestroy fullName false)
                           (DestroyResourceInstance c fullName false);
            mret {| State := State resp;
                    Diagnostics_of :=
                      cleanupWarning diags "attribute extraction" fullName cleanupErr |}
          else if 0 <? size attrs then
            err ← request (CallUpdate fullName attrs true)
                    (UpdateResourceInstance c fullName attrs true);
            match err with
            | Some e =>
                cleanupErr ← request (CallDestroy fullName false)
                               (DestroyResourceInstance c fullName false);
                let diags := cleanupWarning diags "applying attributes" fullName cleanupErr in
                mret {| State := State resp;
                        Diagnostics_of := AddError diags "Failed to apply attributes" e |}
            | None =>
                '(st, diags) ← writeState c fullName (State resp) diags (Some attrs);
                mret {| State := st; Diagnostics_of := diags |}
            end
          else
            '(st, diags) ← writeState c fullName (State resp) diags (Some attrs);
            mret {| State := st; Diagnostics_of := diags |}
      end
  end.

Definition Read (reqState : gmap string Value) (resp : Response) : M Response :=
  r ← get_self;
  let '(c, diags) := requireClient r (Diagnostics_of resp) in
  match c with
  | None => mret {| State := State resp; Diagnostics_of := diags |}
  | Some c =>
      let '(id, d) := GetAttribute reqState "id" KString in
      let diags := Append diags d in
      if HasError diags then mret {| State := State resp; Diagnostics_of := diags |}
      else
        '(st, diags) ← writeState c (ValueString_of id) (State resp) diags None;
        mret {| State := st; Diagnostics_of := diags |}
  end.

Definition Update (reqState plan : gmap string Value) (resp : Response) : M Response :=
  r ← get_self;
  let '(c, diags) := requireClient r (Diagnostics_of resp) in
  match c with
  | None => mret {| State := State resp; Diagnostics_of := diags |}
  | Some c =>
      let '(id, d) := GetAttribute reqState "id" KString in
      let diags := Append diags d in
      if HasError diags then mret {| State := State resp; Diagnostics_of := diags |}
      else
        let fullName := ValueString_of id in
        '(attrs, diags) ← extractAttrs plan diags;
        if HasError diags then mret {| State := State resp; Diagnostics_of := diags |}
        else
          err ← request (CallUpdate fullName attrs true)
                  (UpdateResourceInstance c fullName attrs true);
          match err with
          | Some e =>
              mret {| State := State resp;
                      Diagnostics_of := AddError diags "Failed to update resource instance" e |}
          | None =>
              '(st, diags) ← writeState c fullName (State resp) diags (Some attrs);
              mret {| State := st; Diagnostics_of := diags |}
          end
  end.

Definition Delete (reqState : gmap string Value) (resp : Response) : M Response :=
  r ← get_self;
  let '(c, diags) := requireClient r (Diagnostics_of resp) in
  match c with
  | None => mret {| State := State resp; Diagnostics_of := diags |}
  | Some c =>
      let '(id, d) := GetAttribute reqState "id" KString in
      let diags := Append diags d in
      if HasError diags then mret {| State := State resp; Diagnostics_of := diags |}
      else
        err ← request (CallDestroy (ValueString_of id) false)
                (DestroyResourceInstance c (ValueString_of id) false);
        match err with
        | Some e =>
            mret {| State := State resp;
                    Diagnostics_of := AddError diags "Failed to destroy resource instance" e |}
        | None => mret {| State := ∅; Diagnostics_of := diags |}
        end
  end.

(** [ImportState]: import by fully qualified name (e.g. httpstatic.docs).
    It reads the receiver's [meta] only; the state of the response has the
    schema of the resource. *)
Definition ImportState (r : dynamicResource) (ID : string) (resp : Response) : Response :=
  let formatError :=
    {| State := State resp;
       Diagnostics_of :=
         AddError (Diagnostics_of resp) "Invalid import ID"
           ("Expected format " +:+ dquote +:+ "resource_type.label" +:+ dquote +:+
            " (e.g. " +:+ dquote +:+ "httpstatic.docs" +:+ dquote +:+ "), got " +:+
            strconv_Quote ID) |} in
  match gostrings.SplitN2 ID dot with
  | [p0; p1] =>
      if String.eqb p0 EmptyString || String.eqb p1 EmptyString then formatError
      else if negb (String.eqb p0 (schema.MetaName (meta r))) then
        {| State := State resp;
           Diagnostics_of :=
             AddError (Diagnostics_of resp) "Resource type mismatch"
               ("Import ID " +:+ strconv_Quote ID +:+ " has resource type " +:+
                strconv_Quote p0 +:+ ", but this resource block is kaiak_" +:+
                schema.MetaName (meta r) +:+ ". " +:+
                "Use the matching resource type or correct the import ID.") |}
      else
        let sch := resourceSchema r in
        let '(st, d1) := SetAttribute sch (State resp) "id" (StringValue ID) in
        let diags := Append (Diagnostics_of resp) d1 in
        let '(st, d2) := SetAttribute sch st "name" (StringValue p1) in
        {| State := st; Diagnostics_of := Append diags d2 |}
  | _ => formatError
  end.

(* --------------------------------------------------------------------- *)
(** ** Predicates used to state the properties of the controller *)
(* --------------------------------------------------------------------- *)

(** The attrInfo table of the resource type: what [buildResourceSchema]
    returns for the receiver's [meta]. *)
Definition builtInfos (r : dynamicResource) : list attrInfo :=
  (buildResourceSchema (schema.MetaName (meta r)) (schema.Attributes (meta r))).1.2.

(** The cache [infos] of a resource is empty or holds the table: it is so
    after [newDynamicResource], and [Schema] and [getInfos] keep it so. *)
Definition cacheOK (r : dynamicResource) : Prop :=
  infos r = [] ∨ infos r = builtInfos r.

(** Two worlds that differ in the receiver's cache only. *)
Definition sameButCache (w w' : World) : Prop :=
  remote w' = remote w ∧ calls w' = calls w ∧ random w' = random w ∧
  meta (self w') = meta (self w) ∧ client (self w') = client (self w) ∧
  cacheOK (self w').

(** Whether the table has a writable attribute of the given kaiak name. *)
Definition writable (infos : list attrInfo) (k : string) : bool :=
  existsb (fun info => String.eqb (kaiakName info) k && negb (schema.ReadOnly (attr info)))
    infos.

(** An entry of the extracted state comes from a writable attribute of the
    table whose planned value is known: at the top level the root
    attribute, in a block the member of a known block object. *)
Definition extractedFrom (infos : list attrInfo) (src : gmap string Value)
    (k : string) (g : any) : Prop :=
  ∃ info, info ∈ infos ∧ kaiakName info = k ∧ schema.ReadOnly (attr info) = false ∧
    if String.eqb (tfBlock info) EmptyString then
      ∃ v, src !! tfField info = Some v ∧ IsNull v = false ∧ IsUnknown v = false ∧
           goValueOf (schema.Type_ (attr info)) v = Some g
    else
      ∃ tys attrs v, src !! tfBlock info = Some (ObjectKnown tys attrs) ∧
           attrs !! tfField info = Some v ∧ IsNull v = false ∧ IsUnknown v = false ∧
           goValueOf (schema.Type_ (attr info)) v = Some g.

End Controller.

(* ===================================================================== *)
(** * A small runtime and a scripted client, to run the model on inputs *)
(* ===================================================================== *)

(** Floats are whole numbers, a time is the text it was parsed from, and a
    text parses as a time when it has the twenty bytes of
    2006-01-02T15:04:05Z; %q wraps the text in double quotes. *)
Definition sampleRuntime : GoRuntime := {|
  float64 := Z;
  float64_of_int := fun n => n;
  int64_of_float64 := fun f => f;
  strconv_Quote := fun s => dquote +:+ s +:+ dquote;
  Time := string;
  time_Parse_RFC3339 := fun s => if String.length s =? 20 then Some s else None;
  time_Format_RFC3339 := fun p => p
|}.

Definition sampleSprint (v : @any sampleRuntime) : string :=
  match v with
  | go_nil => "<nil>"
  | go_bool true => "true"
  | go_bool false => "false"
  | go_string s => s
  | go_int n | go_int64 n | go_float64 n =>
      if (n =? 0)%Z then "0" else if (n =? 1)%Z then "1" else "n"
  | go_slice _ => "[...]"
  | go_map _ => "map[...]"
  end.

Definition sampleFmt : @GoFmt sampleRuntime := {|
  fmt_Sprint_v := sampleSprint;
  fmt_Sprint_Value := fun _ => "<value>"
|}.

(** A client over a server without state: creation succeeds, update and
    destroy fail with the given errors (if any), and a read returns the
    given state. *)
Definition scriptedClient (updateErr destroyErr : option string)
    (state : gmap string (@any sampleRuntime)) : @Client sampleRuntime unit := {|
  CreateResourceInstance := fun _ s => (None, s);
  UpdateResourceInstance := fun _ _ _ s => (updateErr, s);
  DestroyResourceInstance := fun _ _ s => (destroyErr, s);
  GetResourceInstance := fun _ s => (Ok state, s)
|}.

Definition stringAttr (name : string) (required readOnly : bool) : schema.Attribute := {|
  schema.Name := name;
  schema.Type_ := "string";
  schema.Description := EmptyString;
  schema.Required := required;
  schema.ReadOnly := readOnly;
  schema.Sensitive := false;
  schema.Reference := false
|}.

(** A resource type demo with the attributes a and b; b is read-only or
    not. *)
Definition sampleMeta (readOnlyB : bool) : schema.ResourceMeta := {|
  schema.MetaName := "demo";
  schema.Attributes := [stringAttr "a" false false; stringAttr "b" false readOnlyB]
|}.

(** A resource type with the blocks tls (one required member) and log
    (no required member). *)
Definition sampleBlocks : list schema.Attribute :=
  [stringAttr "tls.cert" true false; stringAttr "tls.key" false false;
   stringAttr "log.level" false false].

(** A world whose receiver is freshly made for [sampleMeta], with the
    given client. *)
Definition sampleWorld (c : option (@Client sampleRuntime unit)) (readOnlyB : bool)
    : @World sampleRuntime unit := {|
  self := {| client := c; meta := sampleMeta readOnlyB; infos := [] |};
  remote := tt;
  calls := [];
  random := []
|}.

(** The server state and the submitted values of the reconciliation
    example: the server has a = 1, the plan had a = 9 and b = 2. *)
Definition sampleServerState : gmap string (@any sampleRuntime) :=
  {[ "a" := @go_float64 sampleRuntime 1%Z ]}.

Definition samplePlanned : gmap string (@any sampleRuntime) :=
  {[ "a" := @go_float64 sampleRuntime 9%Z; "b" := @go_float64 sampleRuntime 2%Z ]}.

(** A plan that sets a and leaves b null. *)
Definition samplePlan : gmap string (@Value sampleRuntime) :=
  {[ "a" := @StringValue sampleRuntime "/x"; "b" := @StringNull sampleRuntime ]}.

(* ===================================================================== *)
(** * Further definitions: schema accessors, tag classes, the provider *)
(* ===================================================================== *)

(** The [Sensitive] flag and the [Description] of a leaf attribute. *)
Definition attrSensitive (a : tfschema.Attribute) : bool :=
  match a with
  | tfschema.StringAttribute _ _ _ _ s _ => s
  | tfschema.BoolAttribute _ _ _ _ s => s
  | tfschema.Int64Attribute _ _ _ _ s => s
  | tfschema.Float64Attribute _ _ _ _ s => s
  | tfschema.ListAttribute _ _ _ _ _ s => s
  | tfschema.MapAttribute _ _ _ _ _ s => s
  | tfschema.SingleNestedAttribute _ _ _ _ => false
  end.

Definition attrDescription (a : tfschema.Attribute) : string :=
  match a with
  | tfschema.StringAttribute d _ _ _ _ _ => d
  | tfschema.BoolAttribute d _ _ _ _ => d
  | tfschema.Int64Attribute d _ _ _ _ => d
  | tfschema.Float64Attribute d _ _ _ _ => d
  | tfschema.ListAttribute d _ _ _ _ _ => d
  | tfschema.MapAttribute d _ _ _ _ _ => d
  | tfschema.SingleNestedAttribute _ _ _ _ => EmptyString
  end.

(** The tags the switches treat in their first three cases. *)
Definition numericOrBool (t : string) : bool :=
  String.eqb t "bool" || String.eqb t "int" || String.eqb t "uint" || String.eqb t "float".

(** The list and map tags. *)
Definition compoundTag (t : string) : bool :=
  gostrings.HasPrefix t "[]" || gostrings.HasPrefix t "map[".

(** The tags that reach the default case of the switches of
    [kaiakTypeToAttrType], [kaiakNullValue] and [kaiakAttrToTF]: string,
    duration, ref, time and every tag the switches do not know. *)
Definition stringShaped (t : string) : bool :=
  negb (numericOrBool t) && negb (compoundTag t).

Section ScalarValues.
Context `{RT : GoRuntime}.

(** The known scalar values the extraction and the decoding carry back and
    forth unchanged: a known boolean for bool, a known float for float, a
    known string for a string-shaped tag other than time. *)
Definition knownScalarOf (t : string) (v : Value) : Prop :=
  (t = "bool" ∧ ∃ b, v = BoolValue b) ∨
  (t = "float" ∧ ∃ f, v = Float64Value f) ∨
  (stringShaped t = true ∧ t ≠ "time" ∧ ∃ s, v = StringValue s).

End ScalarValues.

(** The lowercase hexadecimal digits. *)
Definition isLowerHex (c : ascii) : bool :=
  let n := N_of_ascii c in
  ((48 <=? n) && (n <=? 57) || (97 <=? n) && (n <=? 102))%N.

Fixpoint string_forall (P : ascii -> bool) (s : string) : bool :=
  match s with
  | EmptyString => true
  | String c r => P c && string_forall P r
  end.

Section ControllerResults.
Context `{RT : GoRuntime} `{FM : !GoFmt} {Server : Type}.

(** The world after requests [cs] that left the server in state [s]. *)
Definition reqWorld (w : World (Server := Server)) (s : Server) (cs : list Call)
    : World (Server := Server) :=
  {| self := self w; remote := s; calls := calls w ++ cs; random := random w |}.

(** [merged] of [writeState], as a function of the table. *)
Definition mergedOf (infos : list attrInfo) (kaiakState : gmap string any)
    (plannedAttrs : option (gmap string any)) : gmap string any :=
  match plannedAttrs with
  | Some planned => mergePlanned infos kaiakState planned
  | None => kaiakState
  end.

(** What [writeState] returns, as a function of the schema, of the table
    and of the answer of the server to the read. *)
Definition writeResult (sch : gmap string tfschema.Attribute) (infos : list attrInfo)
    (fullName : string)
    (tfState : gmap string Value) (diags : Diagnostics)
    (plannedAttrs : option (gmap string any)) (res : result (gmap string any))
    : gmap string Value * Diagnostics :=
  match res with
  | Err e => (tfState, AddError diags "Failed to read resource instance" e)
  | Ok kaiakState =>
      let merged := mergedOf infos kaiakState plannedAttrs in
      let '(tfState, d) := SetAttribute sch tfState "id" (StringValue fullName) in
      writeBlocks sch infos merged (writeTop sch infos merged (tfState, Append diags d))
  end.

(** The name [Create] gives the instance in world [w]: the resource type,
    a dot, and the label generated from the next four random bytes. *)
Definition createdName (w : World (Server := Server)) : string :=
  fullName (self w)
    ("tf_" +:+ hex_EncodeToString (take 4 (random w ++ replicate 4 Ascii.zero))).

(** The world after [generateLabel]: four random bytes are used. *)
Definition labelWorld (w : World (Server := Server)) : World (Server := Server) :=
  {| self := self w; remote := remote w; calls := calls w; random := drop 4 (random w) |}.

(** The text of the error every CRUD method reports without a client. *)
Definition notConfigured (diags : Diagnostics) : Diagnostics :=
  AddError diags "Resource not configured"
    "The provider has not been configured. Ensure the provider block is present and valid.".

(** What [extractAttrs] returns, as a function of the table. *)
Definition extractResult (infos : list attrInfo) (src : gmap string Value)
    (diags : Diagnostics) : gmap string any * Diagnostics :=
  extractBlocks infos src (extractTop infos src (∅, diags)).

(** The members of block [b], in the order of the table. *)
Definition blockMembers (infos : list attrInfo) (b : string) : list attrInfo :=
  List.filter (fun i => String.eqb (tfBlock i) b) infos.

(** The value [writeState] decodes for an attribute: that of the merged
    state, nil when the merged state has none. *)
Definition decoded (merged : gmap string any) (i : attrInfo) : Value :=
  kaiakValueToTF (default go_nil (merged !! kaiakName i)) (schema.Type_ (attr i)).

(** The merged state has no value, or nil, for the attribute. *)
Definition unset (merged : gmap string any) (i : attrInfo) : bool :=
  is_nil (default go_nil (merged !! kaiakName i)).

(** The decoded value has the terraform type of the attribute's tag. *)
Definition wellTyped (merged : gmap string any) (i : attrInfo) : bool :=
  AttrType_Equal (kaiakTypeToAttrType (schema.Type_ (attr i)))
    (Value_Type (decoded merged i)).

(** The translation of the resource type succeeded: [buildResourceSchema]
    reports no error for the metadata of the receiver. *)
Definition translated (r : dynamicResource (Server := Server)) : bool :=
  negb (HasError
          (buildResourceSchema (schema.MetaName (meta r)) (schema.Attributes (meta r))).2).


(** Whether a state with schema [sch] takes the value [v] at the root
    path [p]: the schema has the path, and the attribute there has the
    type of the value. *)
Definition accepts (sch : gmap string tfschema.Attribute) (p : string) (v : Value) : bool :=
  match sch !! p with
  | Some a => AttrType_Equal (attrTypeOf a) (Value_Type v)
  | None => false
  end.

(** The object the last loop of [writeState] builds for a block of the
    given members, and the diagnostics building it adds. *)
Definition blockValue (merged : gmap string any) (members : list attrInfo) : Value :=
  let '(attrTypes, attrValues, hasValue) := blockObject merged members in
  if hasValue then (ObjectValue attrTypes attrValues).1 else ObjectNull attrTypes.

Definition blockDiags (merged : gmap string any) (members : list attrInfo)
    : list Diagnostic :=
  let '(attrTypes, attrValues, hasValue) := blockObject merged members in
  if hasValue then (ObjectValue attrTypes attrValues).2 else [].

End ControllerResults.

(* --------------------------------------------------------------------- *)
(** ** provider.go: the settings of the provider *)
(* --------------------------------------------------------------------- *)

(** [os.Getenv] on an environment: the empty string for an unset name. *)
Definition os_Getenv (env : gmap string string) (key : string) : string :=
  default EmptyString (env !! key).

(** [resolveEndpoint] returns the API endpoint from the environment,
    falling back to a default. *)
Definition resolveEndpoint (env : gmap string string) : string :=
  let v := os_Getenv env "KAIAK_ENDPOINT" in
  if negb (String.eqb v EmptyString) then v else "http://localhost:8084/api".

(** [resolveApiKey] returns the API key from the environment, or the empty
    string. *)
Definition resolveApiKey (env : gmap string string) : string :=
  os_Getenv env "KAIAK_API_KEY".

(** [client.ClientOpt]: the one option the provider passes, a request
    token with the bearer scheme. *)
Inductive TokenScheme := Bearer.

Inductive ClientOpt :=
  | OptReqToken (Scheme : TokenScheme) (TokenValue : string).

(** The client options both [Configure] and [Resources] build. *)
Definition tokenOpts (apiKey : string) : list ClientOpt :=
  if negb (String.eqb apiKey EmptyString) then [OptReqToken Bearer apiKey] else [].

(** [kaiakProvider] *)
Record kaiakProvider := {
  version : string;
  endpoint : string;
  apiKey : string
}.

Section Provider.
Context `{RT : GoRuntime} {Server : Type}.
(** [httpclient.New] and [Client.ListResources], which the provider calls
    and the repository does not define. *)
Variable httpclient_New : string -> list ClientOpt -> result (Client (Server := Server)).
Variable ListResources : Client (Server := Server) -> result (list schema.ResourceMeta).

(** [kaiakProviderModel] maps provider schema data to a Go type. *)
Record kaiakProviderModel := {
  Endpoint : Value;
  ApiKey : Value
}.

Record ProviderConfigureResponse := {
  ProviderDiagnostics : Diagnostics;
  DataSourceData : option (Client (Server := Server));
  ResourceData : option (Client (Server := Server))
}.

(** [kaiakProvider.Configure]; [config] and [getDiags] are what
    [req.Config.Get] yields.  It returns the receiver, whose resolved
    settings it caches, and the response. *)
Definition providerConfigure (env : gmap string string) (p : kaiakProvider)
    (config : kaiakProviderModel) (getDiags : Diagnostics)
    (resp : ProviderConfigureResponse) : kaiakProvider * ProviderConfigureResponse :=
  let diags := Append (ProviderDiagnostics resp) getDiags in
  if HasError diags then
    (p, {| ProviderDiagnostics := diags;
           DataSourceData := DataSourceData resp; ResourceData := ResourceData resp |})
  else
    let endpoint0 := ValueString (Endpoint config) in
    let endpoint1 :=
      if String.eqb endpoint0 EmptyString then resolveEndpoint env else endpoint0 in
    let apiKey0 := ValueString (ApiKey config) in
    let apiKey1 :=
      if String.eqb apiKey0 EmptyString then resolveApiKey env else apiKey0 in
    let p := {| version := version p; endpoint := endpoint1; apiKey := apiKey1 |} in
    match httpclient_New endpoint1 (tokenOpts apiKey1) with
    | Err e =>
        (p, {| ProviderDiagnostics := AddError diags "Failed to create Kaiak client" e;
               DataSourceData := DataSourceData resp; ResourceData := ResourceData resp |})
    | Ok cl =>
        (p, {| ProviderDiagnostics := diags;
               DataSourceData := Some cl; ResourceData := Some cl |})
    end.

(** [kaiakProvider.Resources] discovers resource types from the running
    server and returns a factory for each one; nil when the client cannot
    be made or the listing fails. *)
Definition Resources (env : gmap string string) (p : kaiakProvider)
    : list (unit -> dynamicResource (Server := Server)) :=
  let endpoint1 :=
    if String.eqb (endpoint p) EmptyString then resolveEndpoint env else endpoint p in
  let apiKey1 :=
    if String.eqb (apiKey p) EmptyString then resolveApiKey env else apiKey p in
  match httpclient_New endpoint1 (tokenOpts apiKey1) with
  | Err _ => []
  | Ok cl =>
      match ListResources cl with
      | Err _ => []
      | Ok resources => map (fun meta _ => newDynamicResource meta) resources
      end
  end.

End Provider.

(* --------------------------------------------------------------------- *)
(** ** Further examples *)
(* --------------------------------------------------------------------- *)


(** An empty response, and a prior state that holds the id demo.x. *)
Definition sampleResponse : @Response sampleRuntime :=
  {| State := ∅; Diagnostics_of := [] |}.

Definition sampleIdState : gmap string (@Value sampleRuntime) :=
  {[ "id" := @StringValue sampleRuntime "demo.x" ]}.

(** A resource of the type with the blocks tls and log. *)
Definition sampleBlockResource : @dynamicResource sampleRuntime unit :=
  newDynamicResource {| schema.MetaName := "web"; schema.Attributes := sampleBlocks |}.

(** A provider environment: the client is made for any endpoint, and the
    server lists the demo resource type. *)
Definition sampleNew (endpoint : string) (opts : list ClientOpt)
    : result (@Client sampleRuntime unit) :=
  Ok (scriptedClient None None ∅).

Definition sampleList (c : @Client sampleRuntime unit) : result (list schema.ResourceMeta) :=
  Ok [sampleMeta false].

Definition sampleConfig : @kaiakProviderModel sampleRuntime :=
  {| Endpoint := @StringNull sampleRuntime; ApiKey := @StringValue sampleRuntime "secret" |}.

Definition sampleProvider : kaiakProvider :=
  {| version := "dev"; endpoint := EmptyString; apiKey := EmptyString |}.

(** A descriptor of the given tag, neither required nor sensitive. *)
Definition typedAttr (name type : string) (readOnly : bool) : schema.Attribute := {|
  schema.Name := name;
  schema.Type_ := type;
  schema.Description := EmptyString;
  schema.Required := false;
  schema.ReadOnly := readOnly;
  schema.Sensitive := false;
  schema.Reference := false
|}.

(** A resource type gauge with the float attributes a and b (b is
    read-only or not), the bool attribute on and the int attribute n. *)
Definition sampleTypedMeta (readOnlyB : bool) : schema.ResourceMeta := {|
  schema.MetaName := "gauge";
  schema.Attributes :=
    [typedAttr "a" "float" false; typedAttr "b" "float" readOnlyB;
     typedAttr "on" "bool" false; typedAttr "n" "int" false]
|}.

(** A world whose receiver is freshly made for [sampleTypedMeta]. *)
Definition sampleTypedWorld (c : option (@Client sampleRuntime unit)) (readOnlyB : bool)
    : @World sampleRuntime unit := {|
  self := {| client := c; meta := sampleTypedMeta readOnlyB; infos := [] |};
  remote := tt;
  calls := [];
  random := []
|}.


(* ===================================================================== *)
(** * Facts about diagnostics *)
(* ===================================================================== *)

Lemma Append_nil (ds : Diagnostics) : Append ds [] = ds.
Proof. reflexivity. Qed.

Lemma Append_cons (ds : Diagnostics) (d : Diagnostic) (new : list Diagnostic) :
  Append ds (d :: new) = Append (if Contains ds d then ds else ds ++ [d]) new.
Proof. reflexivity. Qed.

Lemma elem_of_Append (ds new : Diagnostics) (d : Diagnostic) :
  d ∈ Append ds new ↔ d ∈ ds ∨ d ∈ new.
Proof.
  revert ds. induction new as [|x new IH]; intros ds.
  - rewrite Append_nil. split; [by left|]. intros [H|H]; [done|by apply elem_of_nil in H].
  - rewrite Append_cons, IH. unfold Contains. rewrite elem_of_cons.
    case_bool_decide as Hx.
    + split; [tauto|]. intros [H|[->|H]]; auto.
    + rewrite elem_of_app, list_elem_of_singleton. tauto.
Qed.

Lemma HasError_true (ds : Diagnostics) :
  HasError ds = true ↔ ∃ d, d ∈ ds ∧ is_error d = true.
Proof.
  unfold HasError. rewrite existsb_exists.
  split; intros (d & Hd & He); exists d; split; auto; by apply list_elem_of_In.
Qed.

Lemma HasError_Append_l (ds new : Diagnostics) :
  HasError ds = true → HasError (Append ds new) = true.
Proof.
  rewrite !HasError_true. intros (d & Hd & He). exists d. split; [|done].
  apply elem_of_Append. by left.
Qed.

Lemma HasError_AddError (ds : Diagnostics) (s d : string) :
  HasError (AddError ds s d) = true.
Proof.
  apply HasError_true. exists (NewDiagnostic SeverityError s d). split; [|done].
  apply elem_of_Append. right. by apply list_elem_of_singleton.
Qed.

Lemma HasError_all_errors (ds : Diagnostics) :
  Forall (fun d => is_error d = true) ds → HasError ds = false → ds = [].
Proof.
  intros Hall Hno. destruct ds as [|d ds]; [done|].
  apply Forall_cons in Hall as [Hd _]. simpl in Hno. by rewrite Hd in Hno.
Qed.

Lemma Append_fresh (ds : Diagnostics) (d : Diagnostic) :
  d ∉ ds → Append ds [d] = ds ++ [d].
Proof.
  intros Hd. unfold Append, Contains. simpl. by rewrite bool_decide_eq_false_2.
Qed.

(* ===================================================================== *)
(** * Facts about attribute naming *)
(* ===================================================================== *)

Lemma Cut_None_SplitN2 (s : string) (c : ascii) :
  gostrings.Cut s c = None → gostrings.SplitN2 s c = [s].
Proof. unfold gostrings.SplitN2. by intros ->. Qed.

(** [Cut] finds the first separator: the text before it has none. *)
Lemma Cut_Some (s a b : string) (c : ascii) :
  gostrings.Cut s c = Some (a, b) →
  s = a +:+ String c b ∧ gostrings.Index a c = None.
Proof.
  revert a. induction s as [|x s IH]; intros a; simpl; [done|].
  destruct (Ascii.eqb_spec x c) as [->|Hne].
  - intros [= <- <-]. done.
  - destruct (gostrings.Cut s c) as [[a' b']|] eqn:E; [|done].
    intros [= <- <-]. destruct (IH a' eq_refl) as [-> Hidx]. split; [done|].
    simpl. destruct (Ascii.eqb_spec x c); [done|]. by rewrite Hidx.
Qed.

Lemma Cut_None (s : string) (c : ascii) :
  gostrings.Cut s c = None ↔ gostrings.Index s c = None.
Proof.
  induction s as [|x s IH]; simpl; [done|].
  destruct (Ascii.eqb_spec x c); [done|].
  destruct (gostrings.Cut s c) as [[a b]|]; destruct (gostrings.Index s c); simpl;
    try done; destruct IH as [IH1 IH2]; split; intros H; try done;
    try discriminate (IH1 eq_refl); discriminate (IH2 eq_refl).
Qed.

Lemma Index_app_None (a b : string) (c : ascii) :
  gostrings.Index a c = None →
  gostrings.Cut (a +:+ String c b) c = Some (a, b).
Proof.
  induction a as [|x a IH]; simpl.
  - by rewrite Ascii.eqb_refl.
  - destruct (Ascii.eqb_spec x c); [done|].
    destruct (gostrings.Index a c); [done|]. intros _. by rewrite IH.
Qed.

(** The block and field [newAttrInfo] derives determine the key of [seen]. *)
Lemma seenKey_pair (i j : attrInfo) :
  tfBlock i = tfBlock j → tfField i = tfField j → seenKey i = seenKey j.
Proof. unfold seenKey. by intros -> ->. Qed.

Lemma newAttrInfo_kaiakName (a : schema.Attribute) :
  kaiakName (newAttrInfo a) = schema.Name a.
Proof. unfold newAttrInfo. by repeat case_match. Qed.

Lemma newAttrInfo_attr (a : schema.Attribute) : attr (newAttrInfo a) = a.
Proof. unfold newAttrInfo. by repeat case_match. Qed.

(** A top-level descriptor: its name has no dot. *)
Lemma newAttrInfo_top (a : schema.Attribute) :
  gostrings.Index (schema.Name a) dot = None →
  tfBlock (newAttrInfo a) = EmptyString ∧ tfField (newAttrInfo a) = schema.Name a.
Proof.
  intros H%Cut_None. unfold newAttrInfo. by rewrite (Cut_None_SplitN2 _ _ H).
Qed.

(* ===================================================================== *)
(** * Facts about buildResourceSchema *)
(* ===================================================================== *)

Section SchemaFacts.
Context `{RT : GoRuntime}.


Lemma scanAttrs_snoc (resourceName : string) (l : list schema.Attribute) (a : schema.Attribute) :
  scanAttrs resourceName (l ++ [a]) = scanAttr resourceName (scanAttrs resourceName l) a.
Proof. unfold scanAttrs. by rewrite fold_left_app. Qed.

Lemma Forall_conflict_AddError (ds : Diagnostics) (s d : string) :
  Forall conflictDiagnostic ds →
  s = "Reserved attribute name" ∨ s = "Attribute naming collision" →
  Forall conflictDiagnostic (AddError ds s d).
Proof.
  intros Hds Hs. apply Forall_forall. intros x Hx.
  apply elem_of_Append in Hx as [Hx|Hx].
  - by eapply Forall_forall in Hds.
  - apply list_elem_of_singleton in Hx as ->. by split.
Qed.

Lemma AddError_not_nil (ds : Diagnostics) (s d : string) : AddError ds s d ≠ [].
Proof.
  intros H. pose proof (HasError_AddError ds s d) as He. by rewrite H in He.
Qed.


Lemma scanAttrs_invariant (resourceName : string) (l : list schema.Attribute) :
  scanInvariant l (scanAttrs resourceName l).
Proof.
  induction l as [|a l IH] using rev_ind.
  - cbn. split_and!; try done.
    + intros k. rewrite lookup_empty. split; [by intros [? ?]|by intros ?%elem_of_nil].
    + constructor.
  - rewrite scanAttrs_snoc.
    destruct (scanAttrs resourceName l) as [[infos seen] diags].
    destruct IH as (Hseen & Hnd & Hds & Hok). unfold scanAttr.
    destruct (String.eqb (tfBlock (newAttrInfo a)) EmptyString
              && is_reserved (tfField (newAttrInfo a))) eqn:Hres.
    { split_and!; try done.
      - apply Forall_conflict_AddError; auto.
      - intros H. by apply AddError_not_nil in H. }
    destruct (seen !! seenKey (newAttrInfo a)) as [prev|] eqn:Hprev.
    { split_and!; try done.
      - apply Forall_conflict_AddError; auto.
      - intros H. by apply AddError_not_nil in H. }
    split_and!.
    + intros k. rewrite map_app, elem_of_app. simpl.
      rewrite list_elem_of_singleton, <- Hseen.
      destruct (decide (k = seenKey (newAttrInfo a))) as [->|Hne].
      * rewrite lookup_insert_eq. split; [by right|by eexists].
      * rewrite lookup_insert_ne by done. tauto.
    + rewrite map_app. simpl. apply NoDup_app. split_and!; [done| |apply NoDup_singleton].
      intros k Hk ->%list_elem_of_singleton.
      apply Hseen in Hk. rewrite Hprev in Hk. by destruct Hk.
    + done.
    + intros Hnil. destruct (Hok Hnil) as [-> Hall]. split.
      * by rewrite map_app.
      * apply Forall_app. split; [done|]. by constructor.
Qed.

(** When the first loop reports nothing, every descriptor has its info, in
    order, with pairwise distinct keys, and none is reserved. *)
Lemma scanAttrs_success (resourceName : string) (l : list schema.Attribute)
    (infos : list attrInfo) (seen : gmap string string) (diags : Diagnostics) :
  scanAttrs resourceName l = (infos, seen, diags) →
  HasError diags = false →
  diags = [] ∧ infos = map newAttrInfo l ∧
  NoDup (map seenKey (map newAttrInfo l)) ∧
  Forall (fun a => topReserved (newAttrInfo a) = false) l.
Proof.
  intros Hscan Hno. pose proof (scanAttrs_invariant resourceName l) as Hinv.
  rewrite Hscan in Hinv. destruct Hinv as (_ & Hnd & Hds & Hok).
  assert (diags = []) as ->.
  { apply HasError_all_errors; [|done].
    eapply Forall_impl; [exact Hds|]. intros d [Hsev _]. unfold is_error. by rewrite Hsev. }
  destruct (Hok eq_refl) as [-> Hall]. done.
Qed.

Lemma scanAttrs_diagnostics (resourceName : string) (l : list schema.Attribute) :
  Forall conflictDiagnostic (scanAttrs resourceName l).2.
Proof.
  pose proof (scanAttrs_invariant resourceName l) as Hinv.
  destruct (scanAttrs resourceName l) as [[infos seen] diags]. by destruct Hinv as (_ & _ & ? & _).
Qed.

(** The result of [buildResourceSchema] when the first loop reported an
    error, and when it did not. *)
Lemma buildResourceSchema_failure (resourceName : string) (l : list schema.Attribute) :
  HasError (scanAttrs resourceName l).2 = true →
  buildResourceSchema resourceName l = (tfschema.empty, [], (scanAttrs resourceName l).2).
Proof.
  unfold buildResourceSchema.
  destruct (scanAttrs resourceName l) as [[infos seen] diags]. simpl. by intros ->.
Qed.

Lemma buildResourceSchema_success (resourceName : string) (l : list schema.Attribute)
    (sch : tfschema.Schema) (infos : list attrInfo) (diags : Diagnostics) :
  buildResourceSchema resourceName l = (sch, infos, diags) →
  HasError diags = false →
  diags = [] ∧ infos = map newAttrInfo l ∧
  NoDup (map seenKey (map newAttrInfo l)) ∧
  Forall (fun a => topReserved (newAttrInfo a) = false) l ∧
  tfschema.Attributes sch =
    nestBlocks (fold_left groupAttr (map newAttrInfo l) (fixedAttrs, ∅)).1
               (fold_left groupAttr (map newAttrInfo l) (fixedAttrs, ∅)).2.
Proof.
  unfold buildResourceSchema.
  destruct (scanAttrs resourceName l) as [[infos' seen] diags'] eqn:Hscan.
  destruct (HasError diags') eqn:Herr.
  - intros [= <- <- <-] H. by rewrite Herr in H.
  - destruct (scanAttrs_success _ _ _ _ _ Hscan Herr) as (-> & -> & Hnd & Hall).
    destruct (fold_left groupAttr (map newAttrInfo l) (fixedAttrs, ∅)) as [tfAttrs blocks] eqn:Hg.
    intros [= <- <- <-] _. simpl. done.
Qed.

(** The infos of any translation have pairwise distinct kaiak names. *)
Lemma buildResourceSchema_NoDup_names (resourceName : string) (l : list schema.Attribute) :
  NoDup (map kaiakName (buildResourceSchema resourceName l).1.2).
Proof.
  destruct (buildResourceSchema resourceName l) as [[sch infos] diags] eqn:Hb. simpl.
  destruct (HasError diags) eqn:Herr.
  - unfold buildResourceSchema in Hb.
    destruct (scanAttrs resourceName l) as [[infos' seen] diags'].
    destruct (HasError diags') eqn:Herr'.
    + injection Hb as <- <- <-. constructor.
    + destruct (fold_left groupAttr infos' (fixedAttrs, ∅)).
      injection Hb as <- <- <-. by rewrite Herr in Herr'.
  - destruct (buildResourceSchema_success _ _ _ _ _ Hb Herr) as (_ & -> & Hnd & _).
    rewrite map_map in Hnd. rewrite map_map.
    assert (Heq : map (fun a => seenKey (newAttrInfo a)) l
                  = map (fun n => seenKey (newAttrInfo
                           {| schema.Name := n; schema.Type_ := EmptyString;
                              schema.Description := EmptyString; schema.Required := false;
                              schema.ReadOnly := false; schema.Sensitive := false;
                              schema.Reference := false |}))
                        (map (fun a => kaiakName (newAttrInfo a)) l)).
    { rewrite map_map. apply map_ext. intros a. rewrite newAttrInfo_kaiakName.
      unfold seenKey, newAttrInfo. simpl. by repeat case_match. }
    rewrite Heq in Hnd. by apply (NoDup_fmap_1 _) in Hnd.
Qed.

(* --------------------------------------------------------------------- *)
(** ** Grouping and nesting *)
(* --------------------------------------------------------------------- *)

Lemma attrRequired_kaiakAttrToTF (a : schema.Attribute) :
  attrRequired (kaiakAttrToTF a) = schema.Required a.
Proof. unfold kaiakAttrToTF. by repeat case_match. Qed.


Lemma isLeaf_kaiakAttrToTF (a : schema.Attribute) : isLeaf (kaiakAttrToTF a).
Proof. unfold kaiakAttrToTF. by repeat case_match. Qed.

Lemma blockRequired_true (m : gmap string tfschema.Attribute) :
  blockRequired m = true ↔ ∃ f x, m !! f = Some x ∧ attrRequired x = true.
Proof.
  unfold blockRequired.
  apply (map_fold_weak_ind
           (fun r (m : gmap string tfschema.Attribute) =>
              r = true ↔ ∃ f x, m !! f = Some x ∧ attrRequired x = true)).
  - split; [done|]. intros (f & x & Hf & _). by rewrite lookup_empty in Hf.
  - intros f x m' r Hfresh IH. destruct (attrRequired x) eqn:Hx.
    + split; [|done]. intros _. exists f, x. by rewrite lookup_insert_eq.
    + rewrite IH. split.
      * intros (g & y & Hg & Hy). exists g, y. split; [|done].
        rewrite lookup_insert_ne; [done|]. intros ->. by rewrite Hfresh in Hg.
      * intros (g & y & Hg & Hy). destruct (decide (f = g)) as [->|Hne].
        -- rewrite lookup_insert_eq in Hg. injection Hg as ->. by rewrite Hx in Hy.
        -- rewrite lookup_insert_ne in Hg by done. by exists g, y.
Qed.

Lemma nestBlocks_lookup (tfAttrs : gmap string tfschema.Attribute)
    (blocks : gmap string (gmap string tfschema.Attribute)) (k : string) :
  nestBlocks tfAttrs blocks !! k =
    match blocks !! k with
    | Some m => Some (nestBlock m)
    | None => tfAttrs !! k
    end.
Proof.
  unfold nestBlocks.
  apply (map_fold_weak_ind
           (fun r (bs : gmap string (gmap string tfschema.Attribute)) =>
              r !! k = match bs !! k with
                       | Some m => Some (nestBlock m)
                       | None => tfAttrs !! k
                       end)).
  - by rewrite lookup_empty.
  - intros b m bs r Hfresh IH. destruct (decide (b = k)) as [->|Hne].
    + by rewrite !lookup_insert_eq.
    + by rewrite !lookup_insert_ne.
Qed.

Lemma groupAttrs_snoc (l : list attrInfo) (i : attrInfo)
    (st : gmap string tfschema.Attribute * gmap string (gmap string tfschema.Attribute)) :
  fold_left groupAttr (l ++ [i]) st = groupAttr (fold_left groupAttr l st) i.
Proof. by rewrite fold_left_app. Qed.

(** What the grouping loop leaves in [tfAttrs] and [blocks]: top-level
    entries are leaves; a block exists exactly for the non-empty block
    names of the infos, and its members are the fields of those infos. *)
Lemma groupAttrs_spec (l : list attrInfo) :
  NoDup (map seenKey l) →
  let '(tfAttrs, blocks) := fold_left groupAttr l (fixedAttrs, ∅) in
  (∀ k x, tfAttrs !! k = Some x → isLeaf x) ∧
  (∀ b m, blocks !! b = Some m →
     b ≠ EmptyString ∧ (∃ i, i ∈ l ∧ tfBlock i = b) ∧
     ∀ f x, m !! f = Some x →
       ∃ i, i ∈ l ∧ tfBlock i = b ∧ tfField i = f ∧ x = kaiakAttrToTF (attr i)) ∧
  (∀ i, i ∈ l → tfBlock i ≠ EmptyString →
     ∃ m, blocks !! tfBlock i = Some m ∧ m !! tfField i = Some (kaiakAttrToTF (attr i))).
Proof.
  induction l as [|i l IH] using rev_ind; intros Hnd.
  - simpl. split_and!.
    + intros k x. unfold fixedAttrs. intros H.
      apply lookup_insert_Some in H as [[_ <-]|[_ H]]; [done|].
      apply lookup_singleton_Some in H as [_ <-]. done.
    + intros b m H. by rewrite lookup_empty in H.
    + intros i H. by apply elem_of_nil in H.
  - rewrite map_app in Hnd. apply NoDup_app in Hnd as (Hnd & Hfresh & _).
    rewrite groupAttrs_snoc. specialize (IH Hnd).
    destruct (fold_left groupAttr l (fixedAttrs, ∅)) as [tfAttrs blocks].
    destruct IH as (Hleaf & Hsound & Hcomplete). unfold groupAttr.
    destruct (String.eqb_spec (tfBlock i) EmptyString) as [Hb|Hb]; simpl.
    + (* a top-level attribute *)
      split_and!.
      * intros k x H. apply lookup_insert_Some in H as [[_ <-]|[_ H]].
        -- apply isLeaf_kaiakAttrToTF.
        -- by eapply Hleaf.
      * intros b m H. destruct (Hsound b m H) as (Hne & (j & Hj & Hjb) & Hm).
        split_and!; [done| |].
        -- exists j. split; [|done]. apply elem_of_app. by left.
        -- intros f x Hf. destruct (Hm f x Hf) as (j' & Hj' & ?).
           exists j'. split; [|done]. apply elem_of_app. by left.
      * intros j Hj Hjb. apply elem_of_app in Hj as [Hj|Hj].
        -- by apply Hcomplete.
        -- apply list_elem_of_singleton in Hj as ->. done.
    + (* a block member *)
      split_and!.
      * done.
      * intros b m H. apply lookup_insert_Some in H as [[<- <-]|[Hne H]].
        -- split_and!; [done| |].
           ++ exists i. split; [|done]. apply elem_of_app. right. by apply list_elem_of_singleton.
           ++ intros f x Hf. apply lookup_insert_Some in Hf as [[<- <-]|[Hnf Hf]].
              ** exists i. split_and!; try done. apply elem_of_app. right.
                 by apply list_elem_of_singleton.
              ** destruct (blocks !! tfBlock i) as [m0|] eqn:Hm0; simpl in Hf;
                   [|by rewrite lookup_empty in Hf].
                 destruct (Hsound _ _ Hm0) as (_ & _ & Hm).
                 destruct (Hm f x Hf) as (j' & Hj' & ?).
                 exists j'. split; [|done]. apply elem_of_app. by left.
        -- destruct (Hsound b m H) as (Hne' & (j & Hj & Hjb) & Hm).
           split_and!; [done| |].
           ++ exists j. split; [|done]. apply elem_of_app. by left.
           ++ intros f x Hf. destruct (Hm f x Hf) as (j' & Hj' & ?).
              exists j'. split; [|done]. apply elem_of_app. by left.
      * intros j Hj Hjb. apply elem_of_app in Hj as [Hj|Hj].
        -- destruct (Hcomplete j Hj Hjb) as (m & Hm & Hf).
           destruct (decide (tfBlock i = tfBlock j)) as [Heq|Hne].
           ++ rewrite Heq, lookup_insert_eq. eexists. split; [done|].
              rewrite Hm. simpl. rewrite lookup_insert_ne; [done|].
              intros Hff. apply (Hfresh (seenKey j)).
              ** apply list_elem_of_fmap. by exists j.
              ** simpl. apply list_elem_of_singleton. by apply seenKey_pair.
           ++ rewrite lookup_insert_ne by done. by exists m.
        -- apply list_elem_of_singleton in Hj as ->.
           rewrite lookup_insert_eq. eexists. split; [done|]. by rewrite lookup_insert_eq.
Qed.

Lemma named_reserved (a : schema.Attribute) :
  schema.Name a = "name" ∨ schema.Name a = "id" →
  topReserved (newAttrInfo a) = true.
Proof.
  intros H. unfold topReserved, newAttrInfo. by destruct H as [-> | ->].
Qed.

(** The schema on success, by lookup: a block where the infos have one,
    the top-level attribute otherwise. *)
Lemma buildResourceSchema_blocks (resourceName : string) (l : list schema.Attribute)
    (sch : tfschema.Schema) (infos : list attrInfo) (diags : Diagnostics) :
  buildResourceSchema resourceName l = (sch, infos, diags) →
  HasError diags = false →
  (∀ b members required optional computed,
     tfschema.Attributes sch !! b
       = Some (tfschema.SingleNestedAttribute members required optional computed) →
     b ≠ EmptyString ∧
     tfschema.SingleNestedAttribute members required optional computed = nestBlock members ∧
     (∃ a, a ∈ l ∧ tfBlock (newAttrInfo a) = b) ∧
     ∀ f x, members !! f = Some x ↔
            ∃ a, a ∈ l ∧ tfBlock (newAttrInfo a) = b ∧ tfField (newAttrInfo a) = f ∧
                 x = kaiakAttrToTF a) ∧
  (∀ a, a ∈ l → tfBlock (newAttrInfo a) ≠ EmptyString →
     ∃ members, tfschema.Attributes sch !! tfBlock (newAttrInfo a) = Some (nestBlock members)).
Proof.
  intros Hb Hno.
  destruct (buildResourceSchema_success _ _ _ _ _ Hb Hno) as (_ & _ & Hnd & _ & Hattrs).
  pose proof (groupAttrs_spec (map newAttrInfo l) Hnd) as Hg.
  destruct (fold_left groupAttr (map newAttrInfo l) (fixedAttrs, ∅)) as [tfAttrs blocks].
  simpl in Hattrs. destruct Hg as (Hleaf & Hsound & Hcomplete).
  assert (Hin : ∀ a, a ∈ l → newAttrInfo a ∈ map newAttrInfo l).
  { intros a Ha. apply list_elem_of_fmap. by exists a. }
  split.
  - intros b members required optional computed Hlk.
    rewrite Hattrs, nestBlocks_lookup in Hlk.
    destruct (blocks !! b) as [m|] eqn:Hm.
    + injection Hlk as <- Hr Ho Hc.
      destruct (Hsound b m Hm) as (Hne & (i & Hi & Hib) & Hmem).
      split_and!; [done| |..].
      * unfold nestBlock. congruence.
      * apply list_elem_of_fmap in Hi as (a & -> & Ha). by exists a.
      * intros f x. split.
        -- intros Hf. destruct (Hmem f x Hf) as (j & Hj & Hjb & Hjf & ->).
           apply list_elem_of_fmap in Hj as (a & -> & Ha).
           exists a. by rewrite newAttrInfo_attr.
        -- intros (a & Ha & Hab & Haf & ->).
           destruct (Hcomplete (newAttrInfo a) (Hin a Ha)) as (m' & Hm' & Hf').
           { by rewrite Hab. }
           rewrite Hab, Hm in Hm'. injection Hm' as <-.
           by rewrite Haf, newAttrInfo_attr in Hf'.
    + by apply Hleaf in Hlk.
  - intros a Ha Hab.
    destruct (Hcomplete (newAttrInfo a) (Hin a Ha) Hab) as (m & Hm & _).
    exists m. by rewrite Hattrs, nestBlocks_lookup, Hm.
Qed.

(** C2. Schema translation fails wholesale on any naming conflict: when two
    descriptors of the list map to the same (block, field) pair, or a
    top-level descriptor is named name or id, buildResourceSchema returns
    the empty schema, no infos, and diagnostics that hold an error, all of
    them reserved-name or naming-collision errors. *)
Theorem buildResourceSchema_conflict_fails (resourceName : string)
    (kaiakAttrs : list schema.Attribute) :
  ((∃ i j a b, i ≠ j ∧ kaiakAttrs !! i = Some a ∧ kaiakAttrs !! j = Some b ∧
               tfBlock (newAttrInfo a) = tfBlock (newAttrInfo b) ∧
               tfField (newAttrInfo a) = tfField (newAttrInfo b)) ∨
   (∃ a, a ∈ kaiakAttrs ∧ (schema.Name a = "name" ∨ schema.Name a = "id"))) →
  ∃ diags,
    buildResourceSchema resourceName kaiakAttrs = (tfschema.empty, [], diags) ∧
    HasError diags = true ∧
    Forall conflictDiagnostic diags.
Proof.
  intros Hconflict.
  exists (scanAttrs resourceName kaiakAttrs).2.
  assert (Herr : HasError (scanAttrs resourceName kaiakAttrs).2 = true).
  { destruct (scanAttrs resourceName kaiakAttrs) as [[infos seen] diags] eqn:Hscan. simpl.
    destruct (HasError diags) eqn:Hno; [done|exfalso].
    destruct (scanAttrs_success _ _ _ _ _ Hscan Hno) as (_ & _ & Hnd & Hall).
    destruct Hconflict as [(i & j & a & b & Hij & Hi & Hj & Hbl & Hfl)|(a & Ha & Hname)].
    - apply Hij. eapply NoDup_lookup; [exact Hnd| |].
      + rewrite !list_lookup_fmap, Hi. reflexivity.
      + rewrite !list_lookup_fmap, Hj. simpl. f_equal. by apply seenKey_pair.
    - eapply Forall_forall in Hall; [|exact Ha].
      by rewrite (named_reserved a Hname) in Hall. }
  split_and!; [by apply buildResourceSchema_failure|done|apply scanAttrs_diagnostics].
Qed.

(** C3. In a successfully translated schema, a nested block is marked
    required if and only if a descriptor grouped into it is flagged
    required, and optional and computed by the complement; every
    descriptor with a block prefix has its block in the schema. *)
Theorem block_required_iff_member_required (resourceName : string)
    (kaiakAttrs : list schema.Attribute)
    (sch : tfschema.Schema) (infos : list attrInfo) (diags : Diagnostics) :
  buildResourceSchema resourceName kaiakAttrs = (sch, infos, diags) →
  HasError diags = false →
  (∀ b members required optional computed,
     tfschema.Attributes sch !! b
       = Some (tfschema.SingleNestedAttribute members required optional computed) →
     (∃ a, a ∈ kaiakAttrs ∧ tfBlock (newAttrInfo a) = b) ∧
     (required = true ↔
      ∃ a, a ∈ kaiakAttrs ∧ tfBlock (newAttrInfo a) = b ∧ schema.Required a = true) ∧
     optional = negb required ∧ computed = negb required) ∧
  (∀ a, a ∈ kaiakAttrs → tfBlock (newAttrInfo a) ≠ EmptyString →
     ∃ members required optional computed,
       tfschema.Attributes sch !! tfBlock (newAttrInfo a)
         = Some (tfschema.SingleNestedAttribute members required optional computed)).
Proof.
  intros Hb Hno.
  destruct (buildResourceSchema_blocks _ _ _ _ _ Hb Hno) as [Hblocks Hhas].
  split.
  - intros b members required optional computed Hlk.
    destruct (Hblocks _ _ _ _ _ Hlk) as (_ & Hnest & Hex & Hmem).
    unfold nestBlock in Hnest. injection Hnest as Hr Ho Hc.
    split_and!; [done| |by rewrite Ho, <- Hr|by rewrite Hc, <- Hr].
    rewrite Hr, blockRequired_true. split.
    + intros (f & x & Hf & Hx). apply Hmem in Hf as (a & Ha & Hab & _ & ->).
      exists a. by rewrite attrRequired_kaiakAttrToTF in Hx.
    + intros (a & Ha & Hab & Hreq).
      exists (tfField (newAttrInfo a)), (kaiakAttrToTF a). split.
      * apply Hmem. by exists a.
      * by rewrite attrRequired_kaiakAttrToTF.
  - intros a Ha Hab. destruct (Hhas a Ha Hab) as (m & Hm).
    by exists m, (blockRequired m), (negb (blockRequired m)), (negb (blockRequired m)).
Qed.

(** C9. The reserved-name check applies to block-less descriptors only: a
    descriptor whose block prefix is name or id (such as name.x) is not
    rejected.  Alone, it translates without any diagnostic; and in every
    successful translation its block is stored under the reserved key, in
    place of the prepended reserved field. *)
Theorem reserved_block_prefix_replaces_fixed (resourceName : string) (a : schema.Attribute) :
  tfBlock (newAttrInfo a) = "name" ∨ tfBlock (newAttrInfo a) = "id" →
  is_Some (fixedAttrs !! tfBlock (newAttrInfo a)) ∧
  (∃ sch,
     buildResourceSchema resourceName [a] = (sch, [newAttrInfo a], []) ∧
     tfschema.Attributes sch !! tfBlock (newAttrInfo a)
       = Some (nestBlock {[ tfField (newAttrInfo a) := kaiakAttrToTF a ]})) ∧
  (∀ kaiakAttrs sch infos diags,
     a ∈ kaiakAttrs →
     buildResourceSchema resourceName kaiakAttrs = (sch, infos, diags) →
     HasError diags = false →
     diags = [] ∧
     ∃ members,
       tfschema.Attributes sch !! tfBlock (newAttrInfo a) = Some (nestBlock members) ∧
       members !! tfField (newAttrInfo a) = Some (kaiakAttrToTF a)).
Proof.
  intros Hblock.
  assert (Hne : tfBlock (newAttrInfo a) ≠ EmptyString) by (by destruct Hblock as [-> | ->]).
  split_and!.
  - destruct Hblock as [-> | ->]; by eexists.
  - unfold buildResourceSchema, scanAttrs. simpl.
    destruct (String.eqb_spec (tfBlock (newAttrInfo a)) EmptyString) as [|_]; [done|].
    simpl. rewrite lookup_empty. simpl. unfold groupAttr.
    destruct (String.eqb_spec (tfBlock (newAttrInfo a)) EmptyString) as [|_]; [done|].
    simpl. eexists. split; [reflexivity|]. simpl.
    rewrite nestBlocks_lookup, lookup_insert_eq, lookup_empty. simpl.
    by rewrite insert_empty, newAttrInfo_attr.
  - intros kaiakAttrs sch infos diags Ha Hb Hno.
    destruct (buildResourceSchema_success _ _ _ _ _ Hb Hno) as (-> & _).
    split; [done|].
    destruct (buildResourceSchema_blocks _ _ _ _ _ Hb Hno) as [Hblocks Hhas].
    destruct (Hhas a Ha Hne) as (m & Hm). exists m. split; [done|].
    destruct (Hblocks _ _ _ _ _ Hm) as (_ & _ & _ & Hmem).
    apply Hmem. by exists a.
Qed.

(** The attrInfo table of any translation links descriptors and terraform
    locations one to one: its kaiak names are pairwise distinct, and so are
    its (block, field) pairs. *)
Theorem attrInfo_table_one_to_one (resourceName : string)
    (kaiakAttrs : list schema.Attribute) :
  NoDup (map kaiakName (buildResourceSchema resourceName kaiakAttrs).1.2) ∧
  NoDup (map (fun i => (tfBlock i, tfField i))
           (buildResourceSchema resourceName kaiakAttrs).1.2).
Proof.
  split; [apply buildResourceSchema_NoDup_names|].
  destruct (buildResourceSchema resourceName kaiakAttrs) as [[sch infos] diags] eqn:Hb.
  simpl. destruct (HasError diags) eqn:Herr.
  - unfold buildResourceSchema in Hb.
    destruct (scanAttrs resourceName kaiakAttrs) as [[infos' seen] diags'].
    destruct (HasError diags') eqn:Herr'.
    + injection Hb as <- <- <-. constructor.
    + destruct (fold_left groupAttr infos' (fixedAttrs, ∅)).
      injection Hb as <- <- <-. by rewrite Herr in Herr'.
  - destruct (buildResourceSchema_success _ _ _ _ _ Hb Herr) as (_ & -> & Hnd & _).
    assert (Heq : map seenKey (map newAttrInfo kaiakAttrs)
                  = map (fun p : string * string => p.1 +:+ "/" +:+ p.2)
                      (map (fun i => (tfBlock i, tfField i)) (map newAttrInfo kaiakAttrs))).
    { rewrite (map_map (fun i => (tfBlock i, tfField i))). by apply map_ext. }
    rewrite Heq in Hnd. by apply (NoDup_fmap_1 _) in Hnd.
Qed.

(** The policy of a leaf: the attribute is required as its descriptor is;
    optional when the descriptor is neither required nor read-only;
    computed when the descriptor is read-only or the attribute optional. *)
Theorem kaiakAttrToTF_policy (a : schema.Attribute) :
  attrRequired (kaiakAttrToTF a) = schema.Required a ∧
  attrOptional (kaiakAttrToTF a) = negb (schema.Required a) && negb (schema.ReadOnly a) ∧
  attrComputed (kaiakAttrToTF a)
    = schema.ReadOnly a || (negb (schema.Required a) && negb (schema.ReadOnly a)).
Proof. unfold kaiakAttrToTF. by repeat case_match. Qed.

End SchemaFacts.

(* ===================================================================== *)
(** * Facts about the type helpers and the coercer *)
(* ===================================================================== *)

Lemma length_from (n : nat) (s : string) :
  String.length (gostrings.from n s) = String.length s - n.
Proof.
  revert s. induction n as [|n IH]; intros s; simpl.
  - lia.
  - destruct s as [|c s]; simpl; [done|]. apply IH.
Qed.

Lemma HasPrefix_length (s p : string) :
  gostrings.HasPrefix s p = true → String.length p ≤ String.length s.
Proof.
  revert s. induction p as [|c p IH]; intros s; simpl; [lia|].
  destruct s as [|d s]; [done|]. intros [_ H]%andb_prop. simpl. apply IH in H. lia.
Qed.

(** The counter of [kaiakTypeToAttrType_fuel] does not matter once it
    covers the length of the type string. *)
Lemma kaiakTypeToAttrType_fuel_enough (n m : nat) (t : string) :
  String.length t ≤ n → String.length t ≤ m →
  kaiakTypeToAttrType_fuel n t = kaiakTypeToAttrType_fuel m t.
Proof.
  revert m t. induction n as [|n IH]; intros m t Hn Hm.
  - destruct t; [|simpl in Hn; lia]. by destruct m.
  - destruct m as [|m].
    + destruct t; [done|simpl in Hm; lia].
    + cbn [kaiakTypeToAttrType_fuel].
      destruct (String.eqb t "bool"); [done|].
      destruct (String.eqb t "int" || String.eqb t "uint"); [done|].
      destruct (String.eqb t "float"); [done|].
      destruct (gostrings.HasPrefix t "[]") eqn:Hl.
      { f_equal. apply IH; rewrite length_from; lia. }
      destruct (gostrings.HasPrefix t "map["); [|done].
      f_equal. unfold kaiakMapElemType_with.
      destruct (gostrings.Index t rbracket) as [idx|]; [|done].
      destruct (idx + 1 <? String.length t) eqn:Hlt; [|done].
      apply IH; rewrite length_from; lia.
Qed.

(** [kaiakTypeToAttrType] satisfies the equation of the source's switch. *)
Lemma kaiakTypeToAttrType_unfold (t : string) :
  kaiakTypeToAttrType t =
    if String.eqb t "bool" then BoolType
    else if String.eqb t "int" || String.eqb t "uint" then Int64Type
    else if String.eqb t "float" then Float64Type
    else if gostrings.HasPrefix t "[]" then
      ListType (kaiakTypeToAttrType (gostrings.from 2 t))
    else if gostrings.HasPrefix t "map[" then MapType (kaiakMapElemType t)
    else StringType.
Proof.
  destruct t as [|c t']; [reflexivity|].
  unfold kaiakTypeToAttrType at 1.
  change (String.length (String c t')) with (S (String.length t')).
  cbn [kaiakTypeToAttrType_fuel].
  assert (Hlen : String.length (String c t') = S (String.length t')) by done.
  remember (String c t') as t eqn:Ht. clear Ht.
  destruct (String.eqb t "bool"); [done|].
  destruct (String.eqb t "int" || String.eqb t "uint"); [done|].
  destruct (String.eqb t "float"); [done|].
  destruct (gostrings.HasPrefix t "[]") eqn:Hl.
  { f_equal. unfold kaiakTypeToAttrType.
    apply kaiakTypeToAttrType_fuel_enough; [|done]. rewrite length_from. lia. }
  destruct (gostrings.HasPrefix t "map["); [|done].
  f_equal. unfold kaiakMapElemType, kaiakMapElemType_with.
  destruct (gostrings.Index t rbracket) as [idx|]; [|done].
  destruct (idx + 1 <? String.length t) eqn:Hlt; [|done].
  unfold kaiakTypeToAttrType. apply kaiakTypeToAttrType_fuel_enough; [|done].
  rewrite length_from. lia.
Qed.

Section CoercerFacts.
Context `{RT : GoRuntime} `{FM : !GoFmt}.

Lemma kaiakNullValue_IsNull (t : string) : IsNull (kaiakNullValue t) = true.
Proof. unfold kaiakNullValue. by repeat case_match. Qed.

Lemma kaiakNullValue_Type (t : string) :
  Value_Type (kaiakNullValue t) = kaiakTypeToAttrType t.
Proof.
  rewrite kaiakTypeToAttrType_unfold. unfold kaiakNullValue. by repeat case_match.
Qed.

(** C5. Decoding a nil dynamic value returns the typed null of the tag:
    the boolean null for bool, the integer null for int and uint, the
    float null for float, the null list or map of the element type for a
    compound tag, the string null otherwise.  It is null and its type is
    the terraform type of the tag. *)
Theorem kaiakValueToTF_nil_typed_null (t : string) :
  kaiakValueToTF go_nil t = kaiakNullValue t ∧
  IsNull (kaiakValueToTF go_nil t) = true ∧
  Value_Type (kaiakValueToTF go_nil t) = kaiakTypeToAttrType t ∧
  kaiakValueToTF go_nil t =
    (if String.eqb t "bool" then BoolNull
     else if String.eqb t "int" || String.eqb t "uint" then Int64Null
     else if String.eqb t "float" then Float64Null
     else if gostrings.HasPrefix t "[]" then
       ListNull (kaiakTypeToAttrType (gostrings.from 2 t))
     else if gostrings.HasPrefix t "map[" then MapNull (kaiakMapElemType t)
     else StringNull).
Proof.
  split_and!.
  - reflexivity.
  - apply kaiakNullValue_IsNull.
  - apply kaiakNullValue_Type.
  - reflexivity.
Qed.

(** C6. For the time tag, a string that parses as RFC 3339 is decoded to
    the parsed time formatted as RFC 3339 again; a string that does not
    parse is decoded to itself. *)
Theorem kaiakValueToTF_time (s : string) :
  (∀ parsed, time_Parse_RFC3339 s = Some parsed →
     kaiakValueToTF (go_string s) "time" = StringValue (time_Format_RFC3339 parsed)) ∧
  (time_Parse_RFC3339 s = None →
     kaiakValueToTF (go_string s) "time" = StringValue s).
Proof.
  split.
  - intros parsed H. simpl. by rewrite H.
  - intros H. simpl. by rewrite H.
Qed.

(** The switch of [kaiakValueToTF] on a value that is not nil. *)
Lemma kaiakValueToTF_not_nil (v : any) (t : string) :
  v ≠ go_nil →
  kaiakValueToTF v t =
    if String.eqb t "bool" then
      match v with go_bool b => BoolValue b | _ => stringFallback v end
    else if String.eqb t "int" || String.eqb t "uint" then
      match v with
      | go_float64 n => Int64Value (int64_of_float64 n)
      | go_int n => Int64Value n
      | _ => stringFallback v
      end
    else if String.eqb t "float" then
      match v with
      | go_float64 n => Float64Value n
      | go_int n => Float64Value (float64_of_int n)
      | _ => stringFallback v
      end
    else if gostrings.HasPrefix t "[]" then kaiakSliceToTF v t
    else if gostrings.HasPrefix t "map[" then kaiakMapToTF v t
    else if String.eqb t "time" then
      match v with
      | go_string s =>
          match time_Parse_RFC3339 s with
          | Some parsed => StringValue (time_Format_RFC3339 parsed)
          | None => StringValue s
          end
      | _ => stringFallback v
      end
    else stringFallback v.
Proof. intros Hnil. destruct v; [by destruct Hnil|reflexivity..]. Qed.

(** C4 (amended). A value that is not nil and whose runtime type is not
    the one the tag's case asserts is decoded, for a tag that is neither
    a list nor a map tag, to the string rendering of the value; for a list
    tag to the null list of the element type, and for a map tag to the
    null map of the value type. *)
Theorem kaiakValueToTF_mismatch (t : string) (v : any) :
  v ≠ go_nil →
  shapeMatches t v = false →
  kaiakValueToTF v t =
    if gostrings.HasPrefix t "[]" then
      ListNull (kaiakTypeToAttrType (gostrings.from 2 t))
    else if gostrings.HasPrefix t "map[" then MapNull (kaiakMapElemType t)
    else StringValue (fmt_Sprint_v v).
Proof.
  intros Hnil Hshape. rewrite (kaiakValueToTF_not_nil v t Hnil).
  unfold shapeMatches in Hshape.
  destruct (String.eqb_spec t "bool") as [->|_].
  { destruct v; done. }
  destruct (String.eqb_spec t "int") as [->|_].
  { destruct v; done. }
  destruct (String.eqb_spec t "uint") as [->|_].
  { destruct v; done. }
  destruct (String.eqb_spec t "float") as [->|_].
  { destruct v; done. }
  simpl in Hshape |- *.
  destruct (gostrings.HasPrefix t "[]").
  { unfold kaiakSliceToTF, kaiakSliceToTF_with. destruct v; done. }
  destruct (gostrings.HasPrefix t "map[").
  { unfold kaiakMapToTF, kaiakMapToTF_with. destruct v; done. }
  destruct (String.eqb t "time"); destruct v; done.
Qed.

End CoercerFacts.

(** C4 as stated fails: for the list tag []string, the string x is decoded
    to the null list of strings, not to its string rendering. *)
Lemma kaiakValueToTF_mismatch_not_always_string :
  ¬ (∀ (RT : GoRuntime) (FM : GoFmt) (t : string) (v : any),
       v ≠ go_nil → shapeMatches t v = false →
       kaiakValueToTF v t = StringValue (fmt_Sprint_v v)).
Proof.
  intros H.
  specialize (H sampleRuntime sampleFmt "[]string" (go_string "x")).
  assert (Hd : @kaiakValueToTF sampleRuntime sampleFmt (go_string "x") "[]string"
               = ListNull StringType) by reflexivity.
  rewrite Hd in H. by specialize (H ltac:(done) eq_refl).
Qed.

(* ===================================================================== *)
(** * Facts about the dynamic resource *)
(* ===================================================================== *)

Lemma fold_left_invariant {A B : Type} (P : A → Prop) (f : A → B → A)
    (l : list B) (init : A) :
  P init → (∀ acc x, x ∈ l → P acc → P (f acc x)) → P (fold_left f l init).
Proof.
  revert init. induction l as [|x l IH]; intros init Hinit Hstep; simpl; [done|].
  apply IH.
  - apply Hstep; [left|done].
  - intros acc y Hy. apply Hstep. by right.
Qed.

Section ControllerFacts.
Context `{RT : GoRuntime} `{FM : !GoFmt} {Server : Type}.

Abbreviation World := (@World RT Server).
Abbreviation M := (@M RT Server).

Lemma bind_run {A B : Type} (m : M A) (f : A → M B) (w : World) :
  (m ≫= f) w = let '(a, w') := m w in f a w'.
Proof. reflexivity. Qed.

Lemma cacheOK_new (m : schema.ResourceMeta) :
  cacheOK (newDynamicResource (Server := Server) m).
Proof. by left. Qed.

Lemma sameButCache_refl (w : World) : cacheOK (self w) → sameButCache w w.
Proof. by intros H. Qed.

Lemma sameButCache_trans (w1 w2 w3 : World) :
  sameButCache w1 w2 → sameButCache w2 w3 → sameButCache w1 w3.
Proof.
  intros (? & ? & ? & ? & ? & ?) (? & ? & ? & ? & ? & ?).
  unfold sameButCache. split_and!; try done; congruence.
Qed.

Lemma sameButCache_builtInfos (w w' : World) :
  sameButCache w w' → builtInfos (self w') = builtInfos (self w).
Proof. intros (_ & _ & _ & Hm & _). unfold builtInfos. by rewrite Hm. Qed.

(** [getInfos] returns the table of the resource type and changes nothing
    but the cache. *)
Lemma getInfos_run (w : World) :
  cacheOK (self w) →
  ∃ w', getInfos w = (builtInfos (self w), w') ∧ sameButCache w w'.
Proof.
  intros Hc. unfold getInfos. rewrite bind_run. unfold get_self.
  destruct (infos (self w)) as [|i l] eqn:Hi.
  - eexists. split; [reflexivity|].
    unfold sameButCache, cacheOK, builtInfos. simpl. split_and!; try done. by right.
  - eexists. split.
    + unfold mret, M_ret. destruct Hc as [Hc|Hc]; [by rewrite Hc in Hi|].
      by rewrite <- Hc, Hi.
    + by apply sameButCache_refl.
Qed.

Lemma extractAttrs_run (src : gmap string Value) (diags : Diagnostics) (w : World) :
  cacheOK (self w) →
  ∃ w', extractAttrs src diags w
        = (extractBlocks (builtInfos (self w)) src
             (extractTop (builtInfos (self w)) src (∅, diags)), w') ∧
        sameButCache w w'.
Proof.
  intros Hc. unfold extractAttrs. rewrite bind_run.
  destruct (getInfos_run w Hc) as (w1 & -> & H1).
  rewrite bind_run.
  destruct (getInfos_run w1 (proj2 (proj2 (proj2 (proj2 (proj2 H1)))))) as (w2 & -> & H2).
  exists w2. split.
  - unfold mret, M_ret. by rewrite (sameButCache_builtInfos _ _ H1).
  - by eapply sameButCache_trans.
Qed.

Lemma mergeState_run (kaiakState planned : gmap string any) (w : World) :
  cacheOK (self w) →
  ∃ w', mergeState kaiakState (Some planned) w
        = (mergePlanned (builtInfos (self w)) kaiakState planned, w') ∧
        sameButCache w w'.
Proof.
  intros Hc. unfold mergeState. rewrite bind_run.
  destruct (getInfos_run w Hc) as (w1 & -> & H1). by exists w1.
Qed.

(** [Schema] keeps the cache of the receiver in order. *)
Lemma Schema_cacheOK (resp : SchemaResponse) (w : World) :
  cacheOK (self w) → cacheOK (self (Schema resp w).2).
Proof.
  intros Hc. unfold Schema. rewrite bind_run. unfold get_self.
  destruct (buildResourceSchema _ _) as [[s l] diags] eqn:Hb.
  destruct (HasError (Append (SchemaDiagnostics resp) diags)); [done|].
  rewrite bind_run. simpl. right. unfold builtInfos. simpl. by rewrite Hb.
Qed.

(* --------------------------------------------------------------------- *)
(** ** Reconciliation *)
(* --------------------------------------------------------------------- *)

(** The merged state, key by key: the server's value when it has one; else
    the planned value when the table has a writable attribute of that
    name; else nothing. *)
Lemma mergePlanned_lookup (infos : list attrInfo) (merged planned : gmap string any)
    (k : string) :
  mergePlanned infos merged planned !! k =
    match merged !! k with
    | Some v => Some v
    | None => if writable infos k then planned !! k else None
    end.
Proof.
  revert merged. induction infos as [|i infos IH]; intros merged.
  - simpl. by destruct (merged !! k).
  - unfold mergePlanned in *. simpl. rewrite IH. clear IH.
    destruct (schema.ReadOnly (attr i)) eqn:Hro; simpl.
    { by rewrite andb_false_r. }
    rewrite andb_true_r.
    destruct (String.eqb_spec (kaiakName i) k) as [->|Hne]; simpl.
    + destruct (merged !! k) as [v|] eqn:Hm; [by rewrite Hm|].
      destruct (planned !! k) as [pv|] eqn:Hp.
      * by rewrite lookup_insert_eq.
      * rewrite Hm. by destruct (writable infos k).
    + destruct (merged !! kaiakName i) as [v|] eqn:Hm; [done|].
      destruct (planned !! kaiakName i) as [pv|] eqn:Hp; [|done].
      by rewrite lookup_insert_ne.
Qed.

Lemma writable_true (infos : list attrInfo) (k : string) :
  writable infos k = true ↔
  ∃ info, info ∈ infos ∧ kaiakName info = k ∧ schema.ReadOnly (attr info) = false.
Proof.
  unfold writable. rewrite existsb_exists. split.
  - intros (i & Hi & [Hn Hr]%andb_prop). exists i. split_and!.
    + by apply list_elem_of_In.
    + by apply String.eqb_eq.
    + by apply negb_true_iff.
  - intros (i & Hi & Hn & Hr). exists i. split; [by apply list_elem_of_In|].
    apply andb_true_intro. split; [by apply String.eqb_eq|by apply negb_true_iff].
Qed.

Lemma NoDup_names_eq (infos : list attrInfo) (i j : attrInfo) :
  NoDup (map kaiakName infos) → i ∈ infos → j ∈ infos →
  kaiakName i = kaiakName j → i = j.
Proof.
  intros Hnd Hi Hj Heq.
  apply list_elem_of_lookup in Hi as (n & Hn). apply list_elem_of_lookup in Hj as (m & Hm).
  assert (n = m) as ->; [|congruence].
  eapply NoDup_lookup; [exact Hnd| |].
  - rewrite list_lookup_fmap, Hn. reflexivity.
  - rewrite list_lookup_fmap, Hm. simpl. by rewrite Heq.
Qed.

Lemma builtInfos_NoDup (r : dynamicResource (Server := Server)) :
  NoDup (map kaiakName (builtInfos r)).
Proof. apply buildResourceSchema_NoDup_names. Qed.

(** The merge loop of writeState, with the submitted values as the
    fallback: every key of the fetched server state keeps the server's
    value; a writable (non-read-only) attribute of the table that the
    server state lacks takes the planned value when there is one; a
    read-only attribute the server state lacks stays absent; a key that is
    no attribute of the table is as in the server state.  The table holds
    every descriptor when the translation succeeded. *)
Lemma mergeState_lookup (w : World)
    (kaiakState plannedAttrs : gmap string any) :
  cacheOK (self w) →
  let merged := (mergeState kaiakState (Some plannedAttrs) w).1 in
  (∀ k v, kaiakState !! k = Some v → merged !! k = Some v) ∧
  (∀ info, info ∈ builtInfos (self w) → schema.ReadOnly (attr info) = false →
     kaiakState !! kaiakName info = None →
     merged !! kaiakName info = plannedAttrs !! kaiakName info) ∧
  (∀ info, info ∈ builtInfos (self w) → schema.ReadOnly (attr info) = true →
     kaiakState !! kaiakName info = None →
     merged !! kaiakName info = None) ∧
  (∀ k, (∀ info, info ∈ builtInfos (self w) → kaiakName info ≠ k) →
     merged !! k = kaiakState !! k) ∧
  (HasError (buildResourceSchema (schema.MetaName (meta (self w)))
               (schema.Attributes (meta (self w)))).2 = false →
   builtInfos (self w) = map newAttrInfo (schema.Attributes (meta (self w)))).
Proof.
  intros Hc merged. subst merged.
  destruct (mergeState_run kaiakState plannedAttrs w Hc) as (w' & -> & _). simpl.
  split_and!.
  - intros k v Hk. by rewrite mergePlanned_lookup, Hk.
  - intros info Hi Hro Hk. rewrite mergePlanned_lookup, Hk.
    assert (writable (builtInfos (self w)) (kaiakName info) = true) as ->; [|done].
    apply writable_true. by exists info.
  - intros info Hi Hro Hk. rewrite mergePlanned_lookup, Hk.
    destruct (writable (builtInfos (self w)) (kaiakName info)) eqn:Hw; [|done].
    apply writable_true in Hw as (j & Hj & Hn & Hjro).
    assert (j = info) as -> by (eapply NoDup_names_eq; eauto using builtInfos_NoDup).
    by rewrite Hro in Hjro.
  - intros k Hk. rewrite mergePlanned_lookup.
    destruct (kaiakState !! k); [done|].
    destruct (writable (builtInfos (self w)) k) eqn:Hw; [|done].
    apply writable_true in Hw as (j & Hj & Hn & _). by destruct (Hk j Hj).
  - intros Hno. unfold builtInfos.
    destruct (buildResourceSchema _ _) as [[sch infos] diags] eqn:Hb. simpl in *.
    by destruct (buildResourceSchema_success _ _ _ _ _ Hb Hno) as (_ & -> & _).
Qed.

(* --------------------------------------------------------------------- *)
(** ** ImportState *)
(* --------------------------------------------------------------------- *)

Lemma ImportState_no_split (r : dynamicResource (Server := Server)) (ID : string)
    (resp : Response) :
  gostrings.Cut ID dot = None →
  State (ImportState r ID resp) = State resp ∧
  ∃ detail, Diagnostics_of (ImportState r ID resp)
            = AddError (Diagnostics_of resp) "Invalid import ID" detail.
Proof.
  intros H. unfold ImportState. rewrite (Cut_None_SplitN2 _ _ H). simpl. eauto.
Qed.

Lemma ImportState_split (r : dynamicResource (Server := Server)) (ID t l : string)
    (resp : Response) :
  gostrings.Cut ID dot = Some (t, l) →
  ImportState r ID resp =
    if String.eqb t EmptyString || String.eqb l EmptyString then
      {| State := State resp;
         Diagnostics_of :=
           AddError (Diagnostics_of resp) "Invalid import ID"
             ("Expected format " +:+ dquote +:+ "resource_type.label" +:+ dquote +:+
              " (e.g. " +:+ dquote +:+ "httpstatic.docs" +:+ dquote +:+ "), got " +:+
              strconv_Quote ID) |}
    else if negb (String.eqb t (schema.MetaName (meta r))) then
      {| State := State resp;
         Diagnostics_of :=
           AddError (Diagnostics_of resp) "Resource type mismatch"
             ("Import ID " +:+ strconv_Quote ID +:+ " has resource type " +:+
              strconv_Quote t +:+ ", but this resource block is kaiak_" +:+
              schema.MetaName (meta r) +:+ ". " +:+
              "Use the matching resource type or correct the import ID.") |}
    else
      {| State :=
           (SetAttribute (resourceSchema r)
              (SetAttribute (resourceSchema r) (State resp) "id" (StringValue ID)).1
              "name" (StringValue l)).1;
         Diagnostics_of :=
           Append
             (Append (Diagnostics_of resp)
                (SetAttribute (resourceSchema r) (State resp) "id" (StringValue ID)).2)
             (SetAttribute (resourceSchema r)
                (SetAttribute (resourceSchema r) (State resp) "id" (StringValue ID)).1
                "name" (StringValue l)).2 |}.
Proof.
  intros H. unfold ImportState, gostrings.SplitN2. rewrite H.
  destruct (String.eqb t EmptyString || String.eqb l EmptyString); [done|].
  destruct (negb (String.eqb t (schema.MetaName (meta r)))); [done|].
  cbv zeta.
  destruct (SetAttribute (resourceSchema r) (State resp) "id" (StringValue ID)) as [st d1].
  cbn [fst snd].
  by destruct (SetAttribute (resourceSchema r) st "name" (StringValue l)) as [st' d2].
Qed.

(* --------------------------------------------------------------------- *)
(** ** Extraction *)
(* --------------------------------------------------------------------- *)

Lemma Forall_Append (P : Diagnostic → Prop) (ds new : Diagnostics) :
  Forall P ds → Forall P new → Forall P (Append ds new).
Proof.
  rewrite !Forall_forall. intros Hds Hnew d Hd.
  apply elem_of_Append in Hd as [Hd|Hd]; auto.
Qed.

Lemma GetAttribute_errors (src : gmap string Value) (p : string) (k : Kind) :
  Forall (fun d => is_error d = true) (GetAttribute src p k).2.
Proof.
  unfold GetAttribute. destruct (src !! p) as [v|]; [case_decide|]; simpl;
    repeat constructor.
Qed.

(** What [GetAttribute] and the test of the target tell about the plan. *)
Lemma GetAttribute_known (src : gmap string Value) (p : string) (k : Kind) (v : Value) :
  isKnown (GetAttribute src p k).1 = Some v →
  src !! p = Some v ∧ kindOf v = k ∧ IsNull v = false ∧ IsUnknown v = false.
Proof.
  unfold GetAttribute. destruct (src !! p) as [x|]; [|done].
  case_decide as Hk; [|done]. simpl.
  destruct (IsNull x) eqn:Hn; [done|]. destruct (IsUnknown x) eqn:Hu; [done|].
  simpl. by intros [= <-].
Qed.

Lemma groupByBlock_members (skip : attrInfo → bool) (l : list attrInfo)
    (b : string) (g : list attrInfo) :
  groupByBlock skip l !! b = Some g →
  ∀ i, i ∈ g → i ∈ l ∧ skip i = false ∧ tfBlock i = b.
Proof.
  unfold groupByBlock. revert b g.
  apply (fold_left_invariant
           (fun groups : gmap string (list attrInfo) =>
              ∀ b g, groups !! b = Some g →
                     ∀ i, i ∈ g → i ∈ l ∧ skip i = false ∧ tfBlock i = b)).
  - intros b g H. by rewrite lookup_empty in H.
  - intros groups x Hx IH b g Hg i Hi.
    destruct (skip x) eqn:Hs; [by eapply IH|].
    apply lookup_insert_Some in Hg as [[<- <-]|[_ Hg]]; [|by eapply IH].
    apply elem_of_app in Hi as [Hi|Hi].
    + destruct (groups !! tfBlock x) as [g0|] eqn:Hg0; [by eapply IH|].
      by apply elem_of_nil in Hi.
    + by apply list_elem_of_singleton in Hi as ->.
Qed.

Lemma extractTop_from (infos : list attrInfo) (src : gmap string Value)
    (st : gmap string any * Diagnostics) :
  (∀ k g, st.1 !! k = Some g → extractedFrom infos src k g) →
  ∀ k g, (extractTop infos src st).1 !! k = Some g → extractedFrom infos src k g.
Proof.
  intros Hst. unfold extractTop.
  apply (fold_left_invariant
           (fun acc : gmap string any * Diagnostics =>
              ∀ k g, acc.1 !! k = Some g → extractedFrom infos src k g)); [done|].
  intros [state diags] info Hinfo IH. simpl in IH.
  destruct (schema.ReadOnly (attr info)) eqn:Hro; [done|]. simpl.
  destruct (String.eqb (tfBlock info) EmptyString) eqn:Hb; [|done]. simpl.
  unfold extractSingleAttr.
  destruct (GetAttribute src (tfField info) (kindFor (schema.Type_ (attr info))))
    as [target d] eqn:Hget.
  destruct (isKnown target) as [v|] eqn:Hk; [|done].
  destruct (goValueOf (schema.Type_ (attr info)) v) as [g'|] eqn:Hgo; [|done].
  simpl. intros k g Hlk.
  apply lookup_insert_Some in Hlk as [[<- <-]|[_ Hlk]]; [|by apply IH].
  exists info. split_and!; try done. rewrite Hb.
  pose proof (GetAttribute_known src (tfField info) (kindFor (schema.Type_ (attr info))) v)
    as Hknown.
  rewrite Hget in Hknown. destruct (Hknown Hk) as (? & _ & ? & ?). by exists v.
Qed.

Lemma extractBlock_from (infos : list attrInfo) (src : gmap string Value)
    (b : string) (group : list attrInfo) (st : gmap string any * Diagnostics) :
  (∀ i, i ∈ group → i ∈ infos ∧
        schema.ReadOnly (attr i) || String.eqb (tfBlock i) EmptyString = false ∧
        tfBlock i = b) →
  (∀ k g, st.1 !! k = Some g → extractedFrom infos src k g) →
  ∀ k g, (extractBlock src b group st).1 !! k = Some g → extractedFrom infos src k g.
Proof.
  intros Hgroup Hst. destruct st as [state diags]. unfold extractBlock.
  destruct (GetAttribute src b KObject) as [target d] eqn:Hget.
  destruct (isKnown target) as [block|] eqn:Hk; [|done]. simpl.
  pose proof (GetAttribute_known src b KObject block) as Hknown.
  rewrite Hget in Hknown. destruct (Hknown Hk) as (Hsrc & Hkind & Hnull & Hunk).
  destruct block; try done. simpl.
  apply (fold_left_invariant
           (fun acc : gmap string any =>
              ∀ k g, acc !! k = Some g → extractedFrom infos src k g)); [done|].
  intros acc info Hinfo IH.
  destruct (attrs !! tfField info) as [v|] eqn:Hv; [|done].
  unfold extractBlockAttr. case_decide as Hkd; [|done].
  destruct (isKnown (Some v)) as [v'|] eqn:Hkv; [|done].
  destruct (goValueOf (schema.Type_ (attr info)) v') as [g'|] eqn:Hgo; [|done].
  intros k g Hlk.
  apply lookup_insert_Some in Hlk as [[<- <-]|[_ Hlk]]; [|by apply IH].
  destruct (Hgroup info Hinfo) as (Hin & Hskip & Hblock).
  apply orb_false_elim in Hskip as [Hro Hbne].
  exists info. split_and!; try done. rewrite Hbne.
  simpl in Hkv. destruct (IsNull v) eqn:Hn; [done|]. destruct (IsUnknown v) eqn:Hu; [done|].
  simpl in Hkv. injection Hkv as <-.
  exists AttrTypes, attrs, v. by rewrite Hblock.
Qed.

Lemma extractBlocks_from (infos : list attrInfo) (src : gmap string Value)
    (st : gmap string any * Diagnostics) :
  (∀ k g, st.1 !! k = Some g → extractedFrom infos src k g) →
  ∀ k g, (extractBlocks infos src st).1 !! k = Some g → extractedFrom infos src k g.
Proof.
  intros Hst. unfold extractBlocks.
  set (skip := fun info => schema.ReadOnly (attr info) || String.eqb (tfBlock info) EmptyString).
  pose proof (groupByBlock_members skip infos) as Hgroups.
  revert Hgroups.
  apply (map_fold_weak_ind
           (fun (r : gmap string any * Diagnostics) (m : gmap string (list attrInfo)) =>
              (∀ b g, m !! b = Some g →
                      ∀ i, i ∈ g → i ∈ infos ∧ skip i = false ∧ tfBlock i = b) →
              ∀ k g, r.1 !! k = Some g → extractedFrom infos src k g)).
  - done.
  - intros b group m r Hfresh IH Hall. apply extractBlock_from.
    + apply (Hall b group). by rewrite lookup_insert_eq.
    + apply IH. intros b' g' Hb'. apply (Hall b' g').
      rewrite lookup_insert_ne; [done|]. intros ->. by rewrite Hfresh in Hb'.
Qed.

Lemma extractedFrom_self (r : dynamicResource (Server := Server))
    (src : gmap string Value) (info : attrInfo) (g : any) :
  info ∈ builtInfos r →
  extractedFrom (builtInfos r) src (kaiakName info) g →
  schema.ReadOnly (attr info) = false ∧
  if String.eqb (tfBlock info) EmptyString then
    ∃ v, src !! tfField info = Some v ∧ IsNull v = false ∧ IsUnknown v = false ∧
         goValueOf (schema.Type_ (attr info)) v = Some g
  else
    ∃ tys attrs v, src !! tfBlock info = Some (ObjectKnown tys attrs) ∧
         attrs !! tfField info = Some v ∧ IsNull v = false ∧ IsUnknown v = false ∧
         goValueOf (schema.Type_ (attr info)) v = Some g.
Proof.
  intros Hin (j & Hj & Hname & Hro & Hrest).
  assert (j = info) as -> by (eapply NoDup_names_eq; eauto using builtInfos_NoDup).
  done.
Qed.

(** C10. Extraction filters and never invents: a key of the extracted
    state is the name of a writable attribute of the table whose planned
    value is neither null nor unknown, inside a block object that is
    itself known for a block member.  So a read-only attribute, an
    attribute whose planned value is null or unknown, and a member of a
    null or unknown block are omitted. *)
Theorem extractAttrs_only_known_writable (w : World) (plan : gmap string Value)
    (diags : Diagnostics) :
  cacheOK (self w) →
  let state := (extractAttrs plan diags w).1.1 in
  (∀ k g, state !! k = Some g → extractedFrom (builtInfos (self w)) plan k g) ∧
  (∀ info, info ∈ builtInfos (self w) → schema.ReadOnly (attr info) = true →
     state !! kaiakName info = None) ∧
  (∀ info v, info ∈ builtInfos (self w) → tfBlock info = EmptyString →
     plan !! tfField info = Some v → IsNull v = true ∨ IsUnknown v = true →
     state !! kaiakName info = None) ∧
  (∀ info b, info ∈ builtInfos (self w) → tfBlock info ≠ EmptyString →
     plan !! tfBlock info = Some b → IsNull b = true ∨ IsUnknown b = true →
     state !! kaiakName info = None) ∧
  (∀ info tys attrs v, info ∈ builtInfos (self w) → tfBlock info ≠ EmptyString →
     plan !! tfBlock info = Some (ObjectKnown tys attrs) →
     attrs !! tfField info = Some v → IsNull v = true ∨ IsUnknown v = true →
     state !! kaiakName info = None).
Proof.
  intros Hc state. subst state.
  destruct (extractAttrs_run plan diags w Hc) as (w' & -> & _). simpl.
  set (infos := builtInfos (self w)).
  set (state := (extractBlocks infos plan (extractTop infos plan (∅, diags))).1).
  assert (Hfrom : ∀ k g, state !! k = Some g → extractedFrom infos plan k g).
  { apply extractBlocks_from, extractTop_from. intros k g H. simpl in H.
    by rewrite lookup_empty in H. }
  split_and!.
  - done.
  - intros info Hin Hro. destruct (state !! kaiakName info) as [g|] eqn:Hs; [|done].
    destruct (extractedFrom_self _ _ _ _ Hin (Hfrom _ _ Hs)) as [Hro' _]. congruence.
  - intros info v Hin Hb Hv Hnull.
    destruct (state !! kaiakName info) as [g|] eqn:Hs; [|done].
    destruct (extractedFrom_self _ _ _ _ Hin (Hfrom _ _ Hs)) as [_ Hrest].
    rewrite Hb in Hrest. simpl in Hrest. destruct Hrest as (v' & Hv' & Hn & Hu & _).
    rewrite Hv in Hv'. injection Hv' as <-. destruct Hnull; congruence.
  - intros info b Hin Hb Hv Hnull.
    destruct (state !! kaiakName info) as [g|] eqn:Hs; [|done].
    destruct (extractedFrom_self _ _ _ _ Hin (Hfrom _ _ Hs)) as [_ Hrest].
    destruct (String.eqb_spec (tfBlock info) EmptyString) as [|_]; [done|].
    destruct Hrest as (tys & attrs & v' & Hv' & _).
    rewrite Hv in Hv'. injection Hv' as ->. by destruct Hnull.
  - intros info tys attrs v Hin Hb Hblock Hv Hnull.
    destruct (state !! kaiakName info) as [g|] eqn:Hs; [|done].
    destruct (extractedFrom_self _ _ _ _ Hin (Hfrom _ _ Hs)) as [_ Hrest].
    destruct (String.eqb_spec (tfBlock info) EmptyString) as [|_]; [done|].
    destruct Hrest as (tys' & attrs' & v' & Hblock' & Hv' & Hn & Hu & _).
    rewrite Hblock in Hblock'. injection Hblock' as <- <-.
    rewrite Hv in Hv'. injection Hv' as <-. destruct Hnull; congruence.
Qed.

(* --------------------------------------------------------------------- *)
(** ** Create *)
(* --------------------------------------------------------------------- *)

Lemma extractSingleAttr_diags (src : gmap string Value) (p : string) (info : attrInfo)
    (state : gmap string any) (diags : Diagnostics) :
  (extractSingleAttr src p info state diags).2
  = Append diags (GetAttribute src p (kindFor (schema.Type_ (attr info)))).2.
Proof.
  unfold extractSingleAttr.
  destruct (GetAttribute src p (kindFor (schema.Type_ (attr info)))) as [target d].
  by repeat case_match.
Qed.

Lemma extractBlock_diags (src : gmap string Value) (b : string) (group : list attrInfo)
    (st : gmap string any * Diagnostics) :
  (extractBlock src b group st).2 = Append st.2 (GetAttribute src b KObject).2.
Proof.
  destruct st as [state diags]. unfold extractBlock.
  destruct (GetAttribute src b KObject) as [target d]. by repeat case_match.
Qed.

(** Extraction adds errors only. *)
Lemma extract_diags_errors (infos : list attrInfo) (src : gmap string Value)
    (diags : Diagnostics) :
  Forall (fun d => is_error d = true) diags →
  Forall (fun d => is_error d = true)
    (extractBlocks infos src (extractTop infos src (∅, diags))).2.
Proof.
  intros Hd. unfold extractBlocks.
  apply (map_fold_weak_ind
           (fun (r : gmap string any * Diagnostics) (_ : gmap string (list attrInfo)) =>
              Forall (fun d => is_error d = true) r.2)).
  - unfold extractTop.
    apply (fold_left_invariant
             (fun acc : gmap string any * Diagnostics =>
                Forall (fun d => is_error d = true) acc.2)); [done|].
    intros [state ds] info _ IH. simpl in IH.
    destruct (schema.ReadOnly (attr info) || negb (String.eqb (tfBlock info) EmptyString));
      [done|].
    rewrite extractSingleAttr_diags. apply Forall_Append; [done|apply GetAttribute_errors].
  - intros b group m r _ IH. rewrite extractBlock_diags.
    apply Forall_Append; [done|apply GetAttribute_errors].
Qed.

(** C8. Create, on a response that arrives without diagnostics, when the
    instance was created, the attributes were extracted without error and
    are not empty, and the update that applies them fails: the instance is
    destroyed (the requests are create, update,
    destroy, in this order, and the terraform state is untouched).  When
    the destroy fails too, the diagnostics are the warning Cleanup failed,
    whose detail names the instance, and the error Failed to apply
    attributes; when the destroy succeeds, that error alone. *)
Theorem Create_failed_apply_compensation (w : World) (c : Client)
    (plan st : gmap string Value) (applyErr : string) (cleanupErr : option string)
    (s1 s2 s3 : Server) :
  let label :=
    "tf_" +:+ hex_EncodeToString (take 4 (random w ++ replicate 4 Ascii.zero)) in
  let name := fullName (self w) label in
  let extracted :=
    extractBlocks (builtInfos (self w)) plan
      (extractTop (builtInfos (self w)) plan (∅, [])) in
  client (self w) = Some c →
  cacheOK (self w) →
  CreateResourceInstance c name (remote w) = (None, s1) →
  HasError extracted.2 = false →
  0 < size extracted.1 →
  UpdateResourceInstance c name extracted.1 true s1 = (Some applyErr, s2) →
  DestroyResourceInstance c name false s2 = (cleanupErr, s3) →
  ∃ w',
    Create plan {| State := st; Diagnostics_of := [] |} w =
      ({| State := st;
          Diagnostics_of :=
            match cleanupErr with
            | Some e =>
                [NewDiagnostic SeverityWarning "Cleanup failed"
                   ("Instance " +:+ name +:+ " was created but applying attributes failed. " +:+
                    "Attempted to destroy the instance but cleanup also failed: " +:+ e +:+
                    ". " +:+ "The instance may need manual removal.");
                 NewDiagnostic SeverityError "Failed to apply attributes" applyErr]
            | None => [NewDiagnostic SeverityError "Failed to apply attributes" applyErr]
            end |}, w') ∧
    remote w' = s3 ∧
    calls w' = calls w ++ [CallCreate name; CallUpdate name extracted.1 true;
                           CallDestroy name false].
Proof.
  intros label name extracted Hclient Hc Hcreate Hno Hsize Hupdate Hdestroy.
  assert (Hnil : extracted.2 = []).
  { apply HasError_all_errors; [|done]. by apply extract_diags_errors. }
  assert (Hex : extractBlocks (builtInfos (self w)) plan
                  (extractTop (builtInfos (self w)) plan
                     (@pair (gmap string any) Diagnostics ∅ [])) = extracted)
    by reflexivity.
  clearbody extracted.
  unfold Create. rewrite bind_run. unfold get_self, requireClient. rewrite Hclient.
  rewrite bind_run. unfold generateLabel. rewrite bind_run. unfold rand_Read.
  unfold mret at 1, M_ret at 1.
  fold label. fold name.
  rewrite bind_run. unfold request at 1. simpl remote. rewrite Hcreate.
  rewrite bind_run. cbn [Diagnostics_of State self remote calls random].
  match goal with |- context [extractAttrs plan [] ?w1] =>
    destruct (extractAttrs_run plan [] w1) as (w2 & -> & Hsame); [exact Hc|]
  end.
  destruct Hsame as (Hrem & Hcalls & _ & _ & _ & _). simpl in Hrem, Hcalls.
  simpl. rewrite Hex.
  destruct extracted as [attrs diags]. simpl in Hno, Hsize, Hnil, Hupdate.
  subst diags. simpl.
  assert (Hlt : (0 <? size attrs) = true) by (by apply Nat.ltb_lt). rewrite Hlt.
  rewrite bind_run. unfold request at 1. rewrite Hrem, Hupdate.
  rewrite bind_run. unfold request at 1. simpl remote. rewrite Hdestroy.
  eexists. split_and!.
  - unfold mret, M_ret. f_equal. f_equal. destruct cleanupErr as [e|]; reflexivity.
  - reflexivity.
  - simpl. rewrite Hcalls. by rewrite <- !app_assoc.
Qed.

(** An integer read from a plan is stored as an int64, which is not one of
    the Go types [kaiakValueToTF] converts for the tags int and uint: when
    it comes back as the fallback of the reconciliation, it is decoded to
    its string rendering, not to an integer value. *)
Theorem planned_int64_decoded_as_string (n : Z) :
  goValueOf "int" (Int64Value n) = Some (go_int64 n) ∧
  goValueOf "uint" (Int64Value n) = Some (go_int64 n) ∧
  kaiakValueToTF (go_int64 n) "int" = StringValue (fmt_Sprint_v (go_int64 n)) ∧
  kaiakValueToTF (go_int64 n) "uint" = StringValue (fmt_Sprint_v (go_int64 n)).
Proof. by split_and!. Qed.

End ControllerFacts.

(* ===================================================================== *)
(** * The properties on concrete inputs *)
(* ===================================================================== *)

(** The reconciliation example, with b writable: the server state a = 1
    and the fallback a = 9, b = 2 merge into a = 1, b = 2. *)
Example mergeState_example_writable :
  (mergeState sampleServerState (Some samplePlanned) (sampleWorld None false)).1
  = {[ "a" := @go_float64 sampleRuntime 1%Z; "b" := @go_float64 sampleRuntime 2%Z ]}.
Proof. vm_compute. reflexivity. Qed.

(** The reconciliation example, with b read-only: the result is a = 1. *)
Example mergeState_example_read_only :
  (mergeState sampleServerState (Some samplePlanned) (sampleWorld None true)).1
  = {[ "a" := @go_float64 sampleRuntime 1%Z ]}.
Proof. vm_compute. reflexivity. Qed.

(** The translation of tls.cert_key and tls.cert.key fails with one
    naming-collision error and returns the empty schema. *)
Example buildResourceSchema_example_collision :
  buildResourceSchema (RT := sampleRuntime) "demo"
    [stringAttr "tls.cert_key" false false; stringAttr "tls.cert.key" false false]
  = (tfschema.empty, [],
     [NewDiagnostic SeverityError "Attribute naming collision"
        ("Resource " +:+ dquote +:+ "demo" +:+ dquote +:+ ": attributes " +:+
         dquote +:+ "tls.cert_key" +:+ dquote +:+ " and " +:+
         dquote +:+ "tls.cert.key" +:+ dquote +:+ " both map to terraform field " +:+
         dquote +:+ "cert_key" +:+ dquote +:+ " (block " +:+ dquote +:+ "tls" +:+ dquote +:+ ")")]).
Proof. vm_compute. reflexivity. Qed.

(** The colliding pair tls.cert_key and tls.cert.key fails the translation. *)
Lemma buildResourceSchema_conflict_fails_witness :
  ∃ diags,
    buildResourceSchema (RT := sampleRuntime) "demo"
      [stringAttr "tls.cert_key" false false; stringAttr "tls.cert.key" false false]
    = (tfschema.empty, [], diags) ∧
    HasError diags = true ∧ Forall conflictDiagnostic diags.
Proof.
  apply (buildResourceSchema_conflict_fails (RT := sampleRuntime)).
  left. exists 0, 1, (stringAttr "tls.cert_key" false false),
    (stringAttr "tls.cert.key" false false).
  repeat split; try reflexivity. lia.
Defined.

(** The blocks example translates, and its block tls is in the schema. *)
Lemma block_required_iff_member_required_witness :
  HasError (buildResourceSchema (RT := sampleRuntime) "demo" sampleBlocks).2 = false ∧
  ∃ members required optional computed,
    tfschema.Attributes (buildResourceSchema (RT := sampleRuntime) "demo" sampleBlocks).1.1
      !! "tls"
    = Some (tfschema.SingleNestedAttribute members required optional computed).
Proof.
  split; [reflexivity|].
  refine (proj2 (block_required_iff_member_required (RT := sampleRuntime) "demo" sampleBlocks
                   (buildResourceSchema (RT := sampleRuntime) "demo" sampleBlocks).1.1
                   (buildResourceSchema (RT := sampleRuntime) "demo" sampleBlocks).1.2
                   (buildResourceSchema (RT := sampleRuntime) "demo" sampleBlocks).2 _ _)
            (stringAttr "tls.cert" true false) _ _).
  - vm_compute. reflexivity.
  - reflexivity.
  - left.
  - vm_compute. discriminate.
Defined.

(** The boolean true under the tag int is decoded to the string true. *)
Lemma kaiakValueToTF_mismatch_witness :
  shapeMatches (RT := sampleRuntime) "int" (go_bool true) = false ∧
  kaiakValueToTF (RT := sampleRuntime) (FM := sampleFmt) (go_bool true) "int"
  = StringValue "true".
Proof.
  split; [reflexivity|].
  refine (kaiakValueToTF_mismatch (RT := sampleRuntime) (FM := sampleFmt)
            "int" (go_bool true) _ _).
  - discriminate.
  - reflexivity.
Defined.

(** The descriptor name.x translates, and its block sits under name. *)
Lemma reserved_block_prefix_replaces_fixed_witness :
  tfBlock (newAttrInfo (stringAttr "name.x" false false)) = "name" ∧
  ∃ sch,
    buildResourceSchema (RT := sampleRuntime) "demo" [stringAttr "name.x" false false]
    = (sch, [newAttrInfo (stringAttr "name.x" false false)], []) ∧
    tfschema.Attributes sch !! "name"
    = Some (nestBlock {[ "x" := kaiakAttrToTF (stringAttr "name.x" false false) ]}).
Proof.
  split; [reflexivity|].
  refine (proj1 (proj2 (reserved_block_prefix_replaces_fixed (RT := sampleRuntime) "demo"
                          (stringAttr "name.x" false false) _))).
  left. reflexivity.
Defined.

(** Extraction on the demo resource omits b, whose planned value is null. *)
Lemma extractAttrs_only_known_writable_witness :
  cacheOK (self (sampleWorld None false)) ∧
  (extractAttrs (FM := sampleFmt) samplePlan [] (sampleWorld None false)).1.1 !! "b" = None.
Proof.
  split; [by left|].
  refine (proj1 (proj2 (proj2 (extractAttrs_only_known_writable (FM := sampleFmt)
                                 (sampleWorld None false) samplePlan [] _)))
            (newAttrInfo (stringAttr "b" false false)) StringNull _ _ _ _).
  - by left.
  - vm_compute. right. left.
  - reflexivity.
  - reflexivity.
  - left. reflexivity.
Defined.

(** Create against a client whose update fails with boom and whose destroy
    fails with gone: both diagnostics, and the three requests. *)
Lemma Create_failed_apply_compensation_witness :
  ∃ w',
    Create (FM := sampleFmt) samplePlan {| State := ∅; Diagnostics_of := [] |}
      (sampleWorld (Some (scriptedClient (Some "boom") (Some "gone") ∅)) false)
    = ({| State := ∅;
          Diagnostics_of :=
            [NewDiagnostic SeverityWarning "Cleanup failed"
               ("Instance demo.tf_00000000 was created but applying attributes failed. " +:+
                "Attempted to destroy the instance but cleanup also failed: gone. " +:+
                "The instance may need manual removal.");
             NewDiagnostic SeverityError "Failed to apply attributes" "boom"] |}, w') ∧
    remote w' = tt ∧
    calls w' = [CallCreate "demo.tf_00000000";
                CallUpdate "demo.tf_00000000" {[ "a" := go_string "/x" ]} true;
                CallDestroy "demo.tf_00000000" false].
Proof.
  refine (Create_failed_apply_compensation (FM := sampleFmt)
            (sampleWorld (Some (scriptedClient (Some "boom") (Some "gone") ∅)) false)
            (scriptedClient (Some "boom") (Some "gone") ∅)
            samplePlan ∅ "boom" (Some "gone") tt tt tt _ _ _ _ _ _ _).
  - reflexivity.
  - by left.
  - reflexivity.
  - reflexivity.
  - vm_compute. lia.
  - reflexivity.
  - reflexivity.
Defined.

(* ===================================================================== *)
(** * More facts about the schema translator *)
(* ===================================================================== *)

Lemma ReplaceAll_Index (s : string) (old new : ascii) :
  old ≠ new → gostrings.Index (gostrings.ReplaceAll s old new) old = None.
Proof.
  intros Hne. induction s as [|c s IH]; simpl; [done|].
  destruct (Ascii.eqb_spec c old) as [->|Hc].
  - destruct (Ascii.eqb_spec new old) as [->|_]; [done|]. by rewrite IH.
  - destruct (Ascii.eqb_spec c old) as [|_]; [done|]. by rewrite IH.
Qed.

Lemma ReplaceAll_length (s : string) (old new : ascii) :
  String.length (gostrings.ReplaceAll s old new) = String.length s.
Proof. induction s as [|c s IH]; simpl; [done|]. by rewrite IH. Qed.

Lemma ReplaceAll_absent (s : string) (old new : ascii) :
  gostrings.Index s old = None → gostrings.ReplaceAll s old new = s.
Proof.
  induction s as [|c s IH]; simpl; [done|].
  destruct (Ascii.eqb_spec c old) as [|_]; [done|].
  destruct (gostrings.Index s old) eqn:Hi; [done|]. intros _. by rewrite IH.
Qed.

Lemma length_append (a b : string) :
  String.length (a +:+ b) = String.length a + String.length b.
Proof. induction a as [|c a IH]; simpl; [done|]. by rewrite IH. Qed.

(** The names [newAttrInfo] derives.  Neither the block nor the field
    holds a dot; a name without a dot is a top-level field, unchanged; a
    name with a dot splits at its first dot, and the field has the length
    of the text after that dot. *)
Theorem newAttrInfo_naming (a : schema.Attribute) :
  gostrings.Index (tfBlock (newAttrInfo a)) dot = None ∧
  gostrings.Index (tfField (newAttrInfo a)) dot = None ∧
  kaiakName (newAttrInfo a) = schema.Name a ∧
  (gostrings.Index (schema.Name a) dot = None →
   tfBlock (newAttrInfo a) = EmptyString ∧ tfField (newAttrInfo a) = schema.Name a) ∧
  (∀ b r, schema.Name a = b +:+ "." +:+ r → gostrings.Index b dot = None →
     tfBlock (newAttrInfo a) = b ∧
     tfField (newAttrInfo a) = gostrings.ReplaceAll r dot underscore ∧
     String.length (tfField (newAttrInfo a)) = String.length r ∧
     (gostrings.Index r dot = None → tfField (newAttrInfo a) = r)).
Proof.
  assert (Hdu : dot ≠ underscore) by done.
  split_and!.
  - unfold newAttrInfo, gostrings.SplitN2.
    destruct (gostrings.Cut (schema.Name a) dot) as [[b r]|] eqn:Hcut; simpl; [|done].
    by apply Cut_Some in Hcut as [_ ?].
  - unfold newAttrInfo, gostrings.SplitN2.
    destruct (gostrings.Cut (schema.Name a) dot) as [[b r]|] eqn:Hcut; simpl.
    + by apply ReplaceAll_Index.
    + by apply Cut_None.
  - apply newAttrInfo_kaiakName.
  - apply newAttrInfo_top.
  - intros b r Hname Hb.
    assert (Hcut : gostrings.Cut (schema.Name a) dot = Some (b, r)).
    { rewrite Hname. by apply Index_app_None. }
    unfold newAttrInfo, gostrings.SplitN2. rewrite Hcut. simpl.
    split_and!; [done|done|apply ReplaceAll_length|apply ReplaceAll_absent].
Qed.

Section MoreSchemaFacts.
Context `{RT : GoRuntime}.

(** Without conflicts the first loop keeps every descriptor and reports
    nothing. *)
Lemma scanAttrs_no_conflict (resourceName : string) (l : list schema.Attribute) :
  NoDup (map seenKey (map newAttrInfo l)) →
  Forall (fun a => topReserved (newAttrInfo a) = false) l →
  (scanAttrs resourceName l).1.1 = map newAttrInfo l ∧
  (scanAttrs resourceName l).2 = [].
Proof.
  induction l as [|a l IH] using rev_ind; intros Hnd Hall; [done|].
  rewrite !map_app in Hnd. apply NoDup_app in Hnd as (Hnd & Hfresh & _).
  apply Forall_app in Hall as [Hall Ha]. apply Forall_cons in Ha as [Ha _].
  destruct (IH Hnd Hall) as [Hinfos Hdiags].
  pose proof (scanAttrs_invariant resourceName l) as Hinv.
  rewrite scanAttrs_snoc.
  destruct (scanAttrs resourceName l) as [[infos seen] diags]. simpl in Hinfos, Hdiags.
  subst infos diags. destruct Hinv as (Hseen & _).
  unfold scanAttr. unfold topReserved in Ha. rewrite Ha.
  destruct (seen !! seenKey (newAttrInfo a)) as [prev|] eqn:Hprev.
  - exfalso. apply (Hfresh (seenKey (newAttrInfo a))).
    + apply Hseen. by rewrite Hprev.
    + simpl. by apply list_elem_of_singleton.
  - simpl. by rewrite map_app.
Qed.

(** The translation succeeds exactly when the keys block/field of the
    descriptors are pairwise distinct and no top-level descriptor has a
    reserved name; it then returns the info of every descriptor, in order,
    and no diagnostic at all. *)
Theorem buildResourceSchema_succeeds_iff (resourceName : string)
    (kaiakAttrs : list schema.Attribute) :
  (HasError (buildResourceSchema resourceName kaiakAttrs).2 = false ↔
   NoDup (map seenKey (map newAttrInfo kaiakAttrs)) ∧
   Forall (fun a => topReserved (newAttrInfo a) = false) kaiakAttrs) ∧
  (HasError (buildResourceSchema resourceName kaiakAttrs).2 = false →
   (buildResourceSchema resourceName kaiakAttrs).1.2 = map newAttrInfo kaiakAttrs ∧
   (buildResourceSchema resourceName kaiakAttrs).2 = []).
Proof.
  split.
  - split.
    + intros Hno.
      destruct (buildResourceSchema resourceName kaiakAttrs) as [[sch infos] diags] eqn:Hb.
      by destruct (buildResourceSchema_success _ _ _ _ _ Hb Hno) as (_ & _ & ? & ? & _).
    + intros [Hnd Hall].
      destruct (scanAttrs_no_conflict resourceName kaiakAttrs Hnd Hall) as [_ Hd].
      unfold buildResourceSchema.
      destruct (scanAttrs resourceName kaiakAttrs) as [[infos seen] diags].
      simpl in Hd. subst diags. simpl.
      by destruct (fold_left groupAttr infos (fixedAttrs, ∅)).
  - intros Hno.
    destruct (buildResourceSchema resourceName kaiakAttrs) as [[sch infos] diags] eqn:Hb.
    by destruct (buildResourceSchema_success _ _ _ _ _ Hb Hno) as (-> & -> & _).
Qed.

(** What the grouping loop leaves in [tfAttrs]: the attribute of every
    top-level info under its field, and the fixed attributes elsewhere. *)
Lemma groupAttrs_top (l : list attrInfo) :
  NoDup (map seenKey l) →
  let tfAttrs := (fold_left groupAttr l (fixedAttrs, ∅)).1 in
  (∀ i, i ∈ l → tfBlock i = EmptyString →
     tfAttrs !! tfField i = Some (kaiakAttrToTF (attr i))) ∧
  (∀ k, (∀ i, i ∈ l → tfBlock i = EmptyString → tfField i ≠ k) →
     tfAttrs !! k = fixedAttrs !! k).
Proof.
  induction l as [|i l IH] using rev_ind; intros Hnd.
  - simpl. split; [|done]. intros i H. by apply elem_of_nil in H.
  - rewrite map_app in Hnd. apply NoDup_app in Hnd as (Hnd & Hfresh & _).
    rewrite groupAttrs_snoc. specialize (IH Hnd). simpl in IH.
    destruct (fold_left groupAttr l (fixedAttrs, ∅)) as [tfAttrs blocks].
    simpl in IH. destruct IH as [Htop Hrest]. unfold groupAttr.
    destruct (String.eqb_spec (tfBlock i) EmptyString) as [Hb|Hb]; simpl.
    + split.
      * intros j Hj Hjb. apply elem_of_app in Hj as [Hj|Hj].
        -- rewrite lookup_insert_ne; [by apply Htop|].
           intros Hff. apply (Hfresh (seenKey j)).
           ++ apply list_elem_of_fmap. by exists j.
           ++ simpl. apply list_elem_of_singleton. apply seenKey_pair; congruence.
        -- apply list_elem_of_singleton in Hj as ->. by rewrite lookup_insert_eq.
      * intros k Hk. rewrite lookup_insert_ne.
        -- apply Hrest. intros j Hj. apply Hk, elem_of_app. by left.
        -- apply Hk; [|done]. apply elem_of_app. right. by apply list_elem_of_singleton.
    + split.
      * intros j Hj Hjb. apply elem_of_app in Hj as [Hj|Hj]; [by apply Htop|].
        by apply list_elem_of_singleton in Hj as ->.
      * intros k Hk. apply Hrest. intros j Hj. apply Hk, elem_of_app. by left.
Qed.

(** The top level of a translated schema.  A top-level descriptor has its
    attribute under its field name, unless a block of that name exists:
    then the block takes the place and the top-level attribute is not in
    the schema.  The fixed name and id are present unless a block has
    their name, and nothing else is in the schema. *)
Theorem buildResourceSchema_top_level (resourceName : string)
    (kaiakAttrs : list schema.Attribute)
    (sch : tfschema.Schema) (infos : list attrInfo) (diags : Diagnostics) :
  buildResourceSchema resourceName kaiakAttrs = (sch, infos, diags) →
  HasError diags = false →
  (∀ a, a ∈ kaiakAttrs → tfBlock (newAttrInfo a) = EmptyString →
     ((∀ b, b ∈ kaiakAttrs → tfBlock (newAttrInfo b) ≠ EmptyString →
            tfBlock (newAttrInfo b) ≠ tfField (newAttrInfo a)) →
      tfschema.Attributes sch !! tfField (newAttrInfo a) = Some (kaiakAttrToTF a)) ∧
     (∀ b, b ∈ kaiakAttrs → tfBlock (newAttrInfo b) ≠ EmptyString →
           tfBlock (newAttrInfo b) = tfField (newAttrInfo a) →
      ∃ members,
        tfschema.Attributes sch !! tfField (newAttrInfo a) = Some (nestBlock members) ∧
        members !! tfField (newAttrInfo b) = Some (kaiakAttrToTF b))) ∧
  (∀ k, k = "name" ∨ k = "id" →
     (∀ b, b ∈ kaiakAttrs → tfBlock (newAttrInfo b) ≠ k) →
     tfschema.Attributes sch !! k = fixedAttrs !! k) ∧
  (∀ k, k ≠ "name" → k ≠ "id" →
     (∀ a, a ∈ kaiakAttrs → tfBlock (newAttrInfo a) = EmptyString →
           tfField (newAttrInfo a) ≠ k) →
     (∀ b, b ∈ kaiakAttrs → tfBlock (newAttrInfo b) ≠ k) →
     tfschema.Attributes sch !! k = None).
Proof.
  intros Hb Hno.
  destruct (buildResourceSchema_success _ _ _ _ _ Hb Hno) as (_ & _ & Hnd & Hres & Hattrs).
  destruct (buildResourceSchema_blocks _ _ _ _ _ Hb Hno) as [Hblocks Hhas].
  pose proof (groupAttrs_spec (map newAttrInfo kaiakAttrs) Hnd) as Hg.
  pose proof (groupAttrs_top (map newAttrInfo kaiakAttrs) Hnd) as Ht.
  destruct (fold_left groupAttr (map newAttrInfo kaiakAttrs) (fixedAttrs, ∅))
    as [tfAttrs blocks].
  simpl in Hattrs, Ht. destruct Hg as (_ & Hsound & _). destruct Ht as [Htop Hrest].
  assert (Hin : ∀ a, a ∈ kaiakAttrs → newAttrInfo a ∈ map newAttrInfo kaiakAttrs).
  { intros a Ha. apply list_elem_of_fmap. by exists a. }
  assert (Hnoblock : ∀ k, (∀ b, b ∈ kaiakAttrs → tfBlock (newAttrInfo b) ≠ EmptyString →
                               tfBlock (newAttrInfo b) ≠ k) → blocks !! k = None).
  { intros k Hk. destruct (blocks !! k) as [m|] eqn:Hm; [|done].
    destruct (Hsound k m Hm) as (Hne & (i & Hi & Hib) & _).
    apply list_elem_of_fmap in Hi as (b & -> & Hbin).
    destruct (Hk b Hbin); [by rewrite Hib|done]. }
  assert (Hfixed : ∀ k, k = "name" ∨ k = "id" →
            ∀ i, i ∈ map newAttrInfo kaiakAttrs → tfBlock i = EmptyString → tfField i ≠ k).
  { intros k Hk i Hi Hib Hf. apply list_elem_of_fmap in Hi as (a & -> & Ha).
    eapply Forall_forall in Hres; [|exact Ha]. unfold topReserved in Hres.
    rewrite Hib, Hf in Hres. by destruct Hk as [-> | ->]. }
  split_and!.
  - intros a Ha Hab. split.
    + intros Hshadow. rewrite Hattrs, nestBlocks_lookup, (Hnoblock _ Hshadow).
      rewrite <- (newAttrInfo_attr a) at 2. by apply Htop; [apply Hin|].
    + intros b Hbin Hbne Hbf. destruct (Hhas b Hbin Hbne) as (m & Hm).
      exists m. rewrite <- Hbf. split; [done|].
      destruct (Hblocks _ _ _ _ _ Hm) as (_ & _ & _ & Hmem). apply Hmem. by exists b.
  - intros k Hk Hnb. rewrite Hattrs, nestBlocks_lookup, Hnoblock.
    + apply Hrest. by apply Hfixed.
    + intros b Hbin _. by apply Hnb.
  - intros k Hn Hi Htopk Hnb. rewrite Hattrs, nestBlocks_lookup, Hnoblock.
    + rewrite Hrest.
      * unfold fixedAttrs. rewrite lookup_insert_ne by done.
        by rewrite lookup_singleton_ne.
      * intros i Hiin Hib. apply list_elem_of_fmap in Hiin as (a & -> & Ha).
        by apply Htopk.
    + intros b Hbin _. by apply Hnb.
Qed.

End MoreSchemaFacts.

(* ===================================================================== *)
(** * More facts about the type helpers *)
(* ===================================================================== *)

Lemma Index_append (a b : string) (c : ascii) :
  gostrings.Index a c = None →
  gostrings.Index (a +:+ String c b) c = Some (String.length a).
Proof.
  induction a as [|x a IH]; simpl.
  - by rewrite Ascii.eqb_refl.
  - destruct (Ascii.eqb_spec x c); [done|].
    destruct (gostrings.Index a c) eqn:Hi; [done|]. intros _. by rewrite IH.
Qed.

Lemma Index_append_None (a b : string) (c : ascii) :
  gostrings.Index a c = None → gostrings.Index b c = None →
  gostrings.Index (a +:+ b) c = None.
Proof.
  induction a as [|x a IH]; simpl; [done|].
  destruct (Ascii.eqb_spec x c); [done|].
  destruct (gostrings.Index a c) eqn:Hi; [done|]. intros _ Hb. by rewrite IH.
Qed.

Lemma from_append (a b : string) : gostrings.from (String.length a) (a +:+ b) = b.
Proof. induction a as [|x a IH]; simpl; [done|]. exact IH. Qed.

Lemma HasPrefix_append (p s : string) : gostrings.HasPrefix (p +:+ s) p = true.
Proof.
  induction p as [|c p IH]; [by destruct s|].
  change (String c p +:+ s) with (String c (p +:+ s)). simpl.
  by rewrite Ascii.eqb_refl, IH.
Qed.

Lemma from_append_sep (a b : string) (c : ascii) :
  gostrings.from (String.length a + 1) (a +:+ String c b) = b.
Proof. induction a as [|x a IH]; simpl; [done|]. exact IH. Qed.

Lemma stringShaped_tests (t : string) :
  stringShaped t = true →
  String.eqb t "bool" = false ∧ String.eqb t "int" || String.eqb t "uint" = false ∧
  String.eqb t "float" = false ∧ gostrings.HasPrefix t "[]" = false ∧
  gostrings.HasPrefix t "map[" = false.
Proof.
  unfold stringShaped, numericOrBool, compoundTag.
  destruct (String.eqb t "bool"), (String.eqb t "int"), (String.eqb t "uint"),
    (String.eqb t "float"), (gostrings.HasPrefix t "[]"), (gostrings.HasPrefix t "map[");
    simpl; try done.
Qed.

(** The tag grammar composes.  The tag of a list of T has the list type of
    T's type; the tag of a map with values of T has the map type of T's
    type, whatever stands between the brackets; a map tag without a
    closing bracket, or with nothing after it, has string values; and a
    tag that is neither bool, int, uint, float nor compound has the string
    type. *)
Theorem kaiakTypeToAttrType_grammar (K T : string) :
  kaiakTypeToAttrType ("[]" +:+ T) = ListType (kaiakTypeToAttrType T) ∧
  (gostrings.Index K rbracket = None →
   kaiakTypeToAttrType ("map[" +:+ K +:+ "]" +:+ T) = MapType (kaiakTypeToAttrType T) ∧
   kaiakTypeToAttrType ("map[" +:+ K) = MapType StringType) ∧
  (stringShaped T = true → kaiakTypeToAttrType T = StringType).
Proof.
  split_and!.
  - rewrite kaiakTypeToAttrType_unfold.
    change (String.eqb ("[]" +:+ T) "bool") with false.
    change (String.eqb ("[]" +:+ T) "int") with false.
    change (String.eqb ("[]" +:+ T) "uint") with false.
    change (String.eqb ("[]" +:+ T) "float") with false.
    cbn [orb]. rewrite HasPrefix_append.
    by change (gostrings.from 2 ("[]" +:+ T)) with T.
  - intros HK.
    assert (Hpre : gostrings.Index ("map[" +:+ K) rbracket = None).
    { by apply Index_append_None. }
    split.
    + rewrite kaiakTypeToAttrType_unfold.
      change (String.eqb ("map[" +:+ K +:+ "]" +:+ T) "bool") with false.
      change (String.eqb ("map[" +:+ K +:+ "]" +:+ T) "int") with false.
      change (String.eqb ("map[" +:+ K +:+ "]" +:+ T) "uint") with false.
      change (String.eqb ("map[" +:+ K +:+ "]" +:+ T) "float") with false.
      change (gostrings.HasPrefix ("map[" +:+ K +:+ "]" +:+ T) "[]") with false.
      cbn [orb]. rewrite HasPrefix_append. f_equal. unfold kaiakMapElemType, kaiakMapElemType_with.
      change ("map[" +:+ K +:+ "]" +:+ T) with (("map[" +:+ K) +:+ String rbracket T).
      rewrite (Index_append _ _ _ Hpre), from_append_sep.
      assert (Hlen : String.length (("map[" +:+ K) +:+ String rbracket T)
                     = String.length ("map[" +:+ K) + 1 + String.length T).
      { rewrite length_append. simpl. lia. }
      rewrite Hlen. destruct T as [|c T'].
      * assert ((String.length ("map[" +:+ K) + 1
                 <? String.length ("map[" +:+ K) + 1 + String.length EmptyString)
                = false) as -> by (apply Nat.ltb_ge; simpl; lia). done.
      * assert ((String.length ("map[" +:+ K) + 1
                 <? String.length ("map[" +:+ K) + 1 + String.length (String c T'))
                = true) as -> by (apply Nat.ltb_lt; simpl; lia). done.
    + rewrite kaiakTypeToAttrType_unfold.
      change (String.eqb ("map[" +:+ K) "bool") with false.
      change (String.eqb ("map[" +:+ K) "int") with false.
      change (String.eqb ("map[" +:+ K) "uint") with false.
      change (String.eqb ("map[" +:+ K) "float") with false.
      change (gostrings.HasPrefix ("map[" +:+ K) "[]") with false.
      cbn [orb]. rewrite HasPrefix_append. f_equal. unfold kaiakMapElemType, kaiakMapElemType_with.
      by rewrite Hpre.
  - intros Hs. destruct (stringShaped_tests T Hs) as (H1 & H2 & H3 & H4 & H5).
    rewrite kaiakTypeToAttrType_unfold. by rewrite H1, H2, H3, H4, H5.
Qed.

Section MoreCoercerFacts.
Context `{RT : GoRuntime} `{FM : !GoFmt}.

(** The schema and the coercer agree on types: the attribute built for a
    descriptor has the terraform type of the descriptor's tag, which is
    also the type of the null decoded for an absent value; the sensitive
    flag and the description are the descriptor's. *)
Theorem kaiakAttrToTF_type (a : schema.Attribute) :
  attrTypeOf (kaiakAttrToTF a) = kaiakTypeToAttrType (schema.Type_ a) ∧
  Value_Type (kaiakValueToTF go_nil (schema.Type_ a)) = attrTypeOf (kaiakAttrToTF a) ∧
  attrSensitive (kaiakAttrToTF a) = schema.Sensitive a ∧
  attrDescription (kaiakAttrToTF a) = schema.Description a.
Proof.
  assert (H : attrTypeOf (kaiakAttrToTF a) = kaiakTypeToAttrType (schema.Type_ a)).
  { rewrite kaiakTypeToAttrType_unfold. unfold kaiakAttrToTF.
    destruct (String.eqb (schema.Type_ a) "bool"); [done|].
    destruct (String.eqb (schema.Type_ a) "int" || String.eqb (schema.Type_ a) "uint");
      [done|].
    destruct (String.eqb (schema.Type_ a) "float"); [done|].
    destruct (gostrings.HasPrefix (schema.Type_ a) "[]"); [done|].
    by destruct (gostrings.HasPrefix (schema.Type_ a) "map["). }
  split_and!; [done| | |].
  - rewrite H. apply kaiakNullValue_Type.
  - unfold kaiakAttrToTF. by repeat case_match.
  - unfold kaiakAttrToTF. by repeat case_match.
Qed.

Lemma AttrType_Equal_fuel (n : nat) (t : string) :
  AttrType_Equal (kaiakTypeToAttrType_fuel n t) (kaiakTypeToAttrType_fuel n t) = true.
Proof.
  revert t. induction n as [|n IH]; intros t; [done|].
  cbn [kaiakTypeToAttrType_fuel].
  destruct (String.eqb t "bool"); [done|].
  destruct (String.eqb t "int" || String.eqb t "uint"); [done|].
  destruct (String.eqb t "float"); [done|].
  destruct (gostrings.HasPrefix t "[]"); [apply IH|].
  destruct (gostrings.HasPrefix t "map["); [|done].
  unfold kaiakMapElemType_with. simpl.
  destruct (gostrings.Index t rbracket) as [idx|]; [|done].
  destruct (idx + 1 <? String.length t); [apply IH|done].
Qed.

Lemma AttrType_Equal_tag (t : string) :
  AttrType_Equal (kaiakTypeToAttrType t) (kaiakTypeToAttrType t) = true.
Proof. apply AttrType_Equal_fuel. Qed.

(** [kaiakSliceToTF] on a slice: the known list of the decoded items when
    each has the element type, the null list otherwise. *)
Lemma kaiakSliceToTF_slice (items : list any) (t : string) :
  kaiakSliceToTF (go_slice items) t =
    let e := kaiakTypeToAttrType (gostrings.from 2 t) in
    let elems := map (fun item => kaiakValueToTF item (gostrings.from 2 t)) items in
    if forallb (fun x => AttrType_Equal e (Value_Type x)) elems
    then ListKnown e elems else ListNull e.
Proof.
  unfold kaiakSliceToTF, kaiakSliceToTF_with, ListValue. simpl.
  by destruct (forallb _ _).
Qed.

Lemma kaiakSliceToTF_shape (v : any) (t : string) :
  Value_Type (kaiakSliceToTF v t) = ListType (kaiakTypeToAttrType (gostrings.from 2 t)) ∧
  IsUnknown (kaiakSliceToTF v t) = false.
Proof.
  destruct v; try done. rewrite kaiakSliceToTF_slice. simpl. by destruct (forallb _ _).
Qed.

Lemma kaiakMapToTF_shape (v : any) (t : string) :
  Value_Type (kaiakMapToTF v t) = MapType (kaiakMapElemType t) ∧
  IsUnknown (kaiakMapToTF v t) = false.
Proof.
  unfold kaiakMapToTF, kaiakMapToTF_with, kaiakMapElemType, kaiakMapElemType_with, MapValue.
  destruct v; try done.
  destruct (gostrings.Index t rbracket) as [idx|]; [|done].
  destruct (idx + 1 <? String.length t); [|done].
  by destruct (map_fold _ _ _).
Qed.

(** A value that is not nil and has not the type a bool, int, uint or
    float tag asserts goes to the string rendering. *)
Lemma any_nil_dec (v : any) : v = go_nil ∨ v ≠ go_nil.
Proof. destruct v; auto. Qed.

Lemma kaiakValueToTF_numeric_mismatch (v : any) (t : string) :
  numericOrBool t = true → v ≠ go_nil → shapeMatches t v = false →
  kaiakValueToTF v t = stringFallback v.
Proof.
  intros Ht Hnil Hs. rewrite (kaiakValueToTF_not_nil v t Hnil).
  unfold numericOrBool in Ht. unfold shapeMatches in Hs.
  destruct (String.eqb_spec t "bool") as [E|_]; [subst t; by destruct v|].
  destruct (String.eqb_spec t "int") as [E|_]; [subst t; by destruct v|].
  destruct (String.eqb_spec t "uint") as [E|_]; [subst t; by destruct v|].
  destruct (String.eqb_spec t "float") as [E|_]; [subst t; by destruct v|].
  done.
Qed.

Lemma kaiakValueToTF_type_ok (v : any) (t : string) :
  v = go_nil ∨ shapeMatches t v = true ∨ numericOrBool t = false →
  Value_Type (kaiakValueToTF v t) = kaiakTypeToAttrType t.
Proof.
  intros H. destruct (any_nil_dec v) as [->|Hnil].
  { apply kaiakNullValue_Type. }
  destruct H as [H|H]; [done|].
  rewrite (kaiakValueToTF_not_nil v t Hnil), kaiakTypeToAttrType_unfold.
  unfold shapeMatches, numericOrBool in H.
  destruct (String.eqb_spec t "bool") as [E|_].
  { subst t. destruct H as [H|H]; [|done]. by destruct v. }
  destruct (String.eqb_spec t "int") as [E|_].
  { subst t. destruct H as [H|H]; [|done]. by destruct v. }
  destruct (String.eqb_spec t "uint") as [E|_].
  { subst t. destruct H as [H|H]; [|done]. by destruct v. }
  destruct (String.eqb_spec t "float") as [E|_].
  { subst t. destruct H as [H|H]; [|done]. by destruct v. }
  simpl.
  destruct (gostrings.HasPrefix t "[]"); [apply kaiakSliceToTF_shape|].
  destruct (gostrings.HasPrefix t "map["); [apply kaiakMapToTF_shape|].
  destruct (String.eqb t "time"); [|done].
  destruct v; try done. by destruct (time_Parse_RFC3339 s).
Qed.

(** What decoding yields.  It is never an unknown value.  It has the
    terraform type of the tag whenever the tag is not bool, int, uint or
    float, or the value is nil or of the asserted Go type; else it is a
    string.  And it is null only for nil, or under a list or map tag. *)
Theorem kaiakValueToTF_known_and_typed (v : any) (t : string) :
  IsUnknown (kaiakValueToTF v t) = false ∧
  (numericOrBool t = false → Value_Type (kaiakValueToTF v t) = kaiakTypeToAttrType t) ∧
  (v = go_nil ∨ shapeMatches t v = true →
   Value_Type (kaiakValueToTF v t) = kaiakTypeToAttrType t) ∧
  (Value_Type (kaiakValueToTF v t) = kaiakTypeToAttrType t ∨
   Value_Type (kaiakValueToTF v t) = StringType) ∧
  (IsNull (kaiakValueToTF v t) = true → v = go_nil ∨ compoundTag t = true).
Proof.
  split_and!.
  - destruct (any_nil_dec v) as [->|Hnil].
    { simpl. unfold kaiakNullValue. by repeat case_match. }
    rewrite (kaiakValueToTF_not_nil v t Hnil).
    destruct (String.eqb t "bool"); [by destruct v|].
    destruct (String.eqb t "int" || String.eqb t "uint"); [by destruct v|].
    destruct (String.eqb t "float"); [by destruct v|].
    destruct (gostrings.HasPrefix t "[]"); [apply kaiakSliceToTF_shape|].
    destruct (gostrings.HasPrefix t "map["); [apply kaiakMapToTF_shape|].
    destruct (String.eqb t "time"); [|done].
    destruct v; try done. by destruct (time_Parse_RFC3339 s).
  - intros H. apply kaiakValueToTF_type_ok. auto.
  - intros H. apply kaiakValueToTF_type_ok. tauto.
  - destruct (any_nil_dec v) as [->|Hnil].
    { left. apply kaiakNullValue_Type. }
    destruct (shapeMatches t v) eqn:Hs.
    { left. apply kaiakValueToTF_type_ok. auto. }
    destruct (numericOrBool t) eqn:Hn.
    + right. by rewrite kaiakValueToTF_numeric_mismatch.
    + left. apply kaiakValueToTF_type_ok. auto.
  - intros Hnull. destruct (any_nil_dec v) as [->|Hnil]; [by left|right].
    rewrite (kaiakValueToTF_not_nil v t Hnil) in Hnull. unfold compoundTag.
    destruct (String.eqb t "bool"); [by destruct v|].
    destruct (String.eqb t "int" || String.eqb t "uint"); [by destruct v|].
    destruct (String.eqb t "float"); [by destruct v|].
    destruct (gostrings.HasPrefix t "[]"); [done|].
    destruct (gostrings.HasPrefix t "map["); [done|].
    destruct (String.eqb t "time"); [|done].
    destruct v; try done. by destruct (time_Parse_RFC3339 s).
Qed.

Lemma kaiakValueToTF_list_tag (items : list any) (T : string) :
  kaiakValueToTF (go_slice items) ("[]" +:+ T) =
    if forallb (fun x => AttrType_Equal (kaiakTypeToAttrType T) (Value_Type x))
         (map (fun item => kaiakValueToTF item T) items)
    then ListKnown (kaiakTypeToAttrType T) (map (fun item => kaiakValueToTF item T) items)
    else ListNull (kaiakTypeToAttrType T).
Proof.
  rewrite kaiakValueToTF_not_nil by done.
  change (String.eqb ("[]" +:+ T) "bool") with false.
  change (String.eqb ("[]" +:+ T) "int") with false.
  change (String.eqb ("[]" +:+ T) "uint") with false.
  change (String.eqb ("[]" +:+ T) "float") with false.
  cbn [orb]. rewrite HasPrefix_append, kaiakSliceToTF_slice.
  by change (gostrings.from 2 ("[]" +:+ T)) with T.
Qed.

Lemma numericOrBool_type (T : string) :
  numericOrBool T = true → AttrType_Equal (kaiakTypeToAttrType T) StringType = false.
Proof.
  unfold numericOrBool. intros H. rewrite kaiakTypeToAttrType_unfold.
  destruct (String.eqb T "bool"); [done|].
  destruct (String.eqb T "int"); [done|].
  destruct (String.eqb T "uint"); [done|].
  destruct (String.eqb T "float"); [done|]. done.
Qed.

(** Decoding a list is all or nothing.  When every item is nil or has the
    Go type the element tag asserts (always so for an element tag that is
    not bool, int, uint or float), the result is the known list of the
    decoded items, of the same length; the empty slice gives the empty
    known list.  Under a bool, int, uint or float element tag, one item of
    another type makes the whole list null. *)
Theorem kaiakValueToTF_list_all_or_nothing (items : list any) (T : string) :
  (Forall (fun i => i = go_nil ∨ shapeMatches T i = true ∨ numericOrBool T = false) items →
   kaiakValueToTF (go_slice items) ("[]" +:+ T)
   = ListKnown (kaiakTypeToAttrType T) (map (fun item => kaiakValueToTF item T) items)) ∧
  (numericOrBool T = true →
   (∃ i, i ∈ items ∧ i ≠ go_nil ∧ shapeMatches T i = false) →
   kaiakValueToTF (go_slice items) ("[]" +:+ T) = ListNull (kaiakTypeToAttrType T)) ∧
  kaiakValueToTF (go_slice []) ("[]" +:+ T) = ListKnown (kaiakTypeToAttrType T) [].
Proof.
  split_and!.
  - intros Hall. rewrite kaiakValueToTF_list_tag.
    assert (forallb (fun x => AttrType_Equal (kaiakTypeToAttrType T) (Value_Type x))
              (map (fun item => kaiakValueToTF item T) items) = true) as ->; [|done].
    apply forallb_forall. intros x Hx. apply in_map_iff in Hx as (i & <- & Hi).
    rewrite Forall_forall in Hall.
    rewrite kaiakValueToTF_type_ok by (apply Hall; by apply list_elem_of_In).
    apply AttrType_Equal_tag.
  - intros HT (i & Hi & Hnil & Hs). rewrite kaiakValueToTF_list_tag.
    destruct (forallb _ _) eqn:Hf; [|done].
    rewrite forallb_forall in Hf.
    specialize (Hf (kaiakValueToTF i T)).
    rewrite (kaiakValueToTF_numeric_mismatch i T HT Hnil Hs) in Hf.
    simpl in Hf. rewrite numericOrBool_type in Hf by done.
    discriminate Hf. apply in_map_iff. exists i. split.
    + by apply kaiakValueToTF_numeric_mismatch.
    + by apply list_elem_of_In.
  - by rewrite kaiakValueToTF_list_tag.
Qed.

Lemma MapValue_ok (e : AttrType) (m : gmap string Value) :
  map_Forall (fun _ v => AttrType_Equal e (Value_Type v) = true) m →
  MapValue e m = (MapKnown e m, []).
Proof.
  intros Hall. unfold MapValue.
  assert (map_fold (fun _ x acc => acc && AttrType_Equal e (Value_Type x)) true m = true)
    as ->; [|done].
  revert Hall.
  apply (map_fold_weak_ind
           (fun r (m' : gmap string Value) =>
              map_Forall (fun _ v => AttrType_Equal e (Value_Type v) = true) m' → r = true)).
  - done.
  - intros k x m' r Hfresh IH Hall.
    apply map_Forall_insert in Hall as [Hx Hall]; [|done].
    by rewrite IH, Hx.
Qed.

(** The parts of a map tag map[K]T. *)
Lemma map_tag_parts (K T : string) :
  gostrings.Index K rbracket = None → T ≠ EmptyString →
  gostrings.Index ("map[" +:+ K +:+ "]" +:+ T) rbracket
    = Some (String.length ("map[" +:+ K)) ∧
  (String.length ("map[" +:+ K) + 1 <? String.length ("map[" +:+ K +:+ "]" +:+ T)) = true ∧
  gostrings.from (String.length ("map[" +:+ K) + 1) ("map[" +:+ K +:+ "]" +:+ T) = T.
Proof.
  intros HK HT.
  assert (Hpre : gostrings.Index ("map[" +:+ K) rbracket = None)
    by (by apply Index_append_None).
  change ("map[" +:+ K +:+ "]" +:+ T) with (("map[" +:+ K) +:+ String rbracket T).
  remember ("map[" +:+ K) as P eqn:HP. clear HP.
  split_and!.
  - by apply Index_append.
  - apply Nat.ltb_lt. rewrite length_append. destruct T; [done|]. simpl. lia.
  - apply from_append_sep.
Qed.

Lemma knownScalarOf_round_trip (T : string) (V : Value) :
  (∀ s, fmt_Sprint_v (go_string s) = s) →
  knownScalarOf T V →
  ∃ g, goValueOf T V = Some g ∧ tfElemToGo V T = g ∧ kaiakValueToTF g T = V ∧
       Value_Type V = kaiakTypeToAttrType T.
Proof.
  intros Hfmt [(-> & b & ->)|[(-> & f & ->)|(Hs & Htime & s & ->)]].
  - by exists (go_bool b).
  - by exists (go_float64 f).
  - exists (go_string s).
    assert (Hty : kaiakTypeToAttrType T = StringType).
    { destruct (stringShaped_tests T Hs) as (E1 & E2 & E3 & E4 & E5).
      rewrite kaiakTypeToAttrType_unfold. by rewrite E1, E2, E3, E4, E5. }
    destruct (stringShaped_tests T Hs) as (H1 & H2 & H3 & H4 & H5).
    apply orb_false_elim in H2 as [H2 H2'].
    split_and!.
    + unfold goValueOf. by rewrite H1, H2, H2', H3, H4, H5.
    + unfold tfElemToGo. by rewrite H1, H2, H2', H3.
    + rewrite kaiakValueToTF_not_nil by done. rewrite H1, H2, H2', H3, H4, H5. simpl.
      destruct (String.eqb_spec T "time") as [|_]; [done|].
      unfold stringFallback. by rewrite Hfmt.
    + by rewrite Hty.
Qed.

(** Round trip.  Provided %v prints a string as itself, extracting a
    known bool, float or string value (tag other than time) and decoding
    the result gives the value back; so do a known list and a known map of
    such values.  (Integers do not: see
    [planned_int64_decoded_as_string].) *)
Theorem encode_decode_round_trip :
  (∀ s, fmt_Sprint_v (go_string s) = s) →
  (∀ T V, knownScalarOf T V →
     ∃ g, goValueOf T V = Some g ∧ kaiakValueToTF g T = V) ∧
  (∀ T vs, Forall (knownScalarOf T) vs →
     ∃ g, goValueOf ("[]" +:+ T) (ListKnown (kaiakTypeToAttrType T) vs) = Some g ∧
          kaiakValueToTF g ("[]" +:+ T) = ListKnown (kaiakTypeToAttrType T) vs) ∧
  (∀ K T m, gostrings.Index K rbracket = None → T ≠ EmptyString →
     map_Forall (fun _ v => knownScalarOf T v) m →
     ∃ g, goValueOf ("map[" +:+ K +:+ "]" +:+ T) (MapKnown (kaiakTypeToAttrType T) m) = Some g ∧
          kaiakValueToTF g ("map[" +:+ K +:+ "]" +:+ T) = MapKnown (kaiakTypeToAttrType T) m).
Proof.
  intros Hfmt. split_and!.
  - intros T V HV. destruct (knownScalarOf_round_trip T V Hfmt HV) as (g & ? & _ & ? & _).
    by exists g.
  - intros T vs Hvs. eexists. split.
    + unfold goValueOf.
      change (String.eqb ("[]" +:+ T) "bool") with false.
      change (String.eqb ("[]" +:+ T) "int") with false.
      change (String.eqb ("[]" +:+ T) "uint") with false.
      change (String.eqb ("[]" +:+ T) "float") with false.
      cbn [orb]. rewrite HasPrefix_append. reflexivity.
    + change (gostrings.from 2 ("[]" +:+ T)) with T.
      unfold tfListToKaiak. simpl ListElements.
      rewrite kaiakValueToTF_list_tag, map_map.
      assert (Hid : map (fun x => kaiakValueToTF (tfElemToGo x T) T) vs = vs).
      { induction Hvs as [|V vs HV _ IH]; [done|]. simpl. rewrite IH. f_equal.
        by destruct (knownScalarOf_round_trip T V Hfmt HV) as (g & _ & -> & ? & _). }
      rewrite Hid.
      assert (forallb (fun x => AttrType_Equal (kaiakTypeToAttrType T) (Value_Type x)) vs
              = true) as ->; [|done].
      apply forallb_forall. intros V HV%list_elem_of_In.
      rewrite Forall_forall in Hvs.
      destruct (knownScalarOf_round_trip T V Hfmt (Hvs V HV)) as (g & _ & _ & _ & ->).
      apply AttrType_Equal_tag.
  - intros K T m HK HT Hm.
    destruct (map_tag_parts K T HK HT) as (Hidx & Hlt & Hfrom).
    assert (Hid : (fun item => kaiakValueToTF item T) <$> ((fun e => tfElemToGo e T) <$> m) = m).
    { apply map_eq. intros k. rewrite !lookup_fmap.
      destruct (m !! k) as [V|] eqn:HV; [|done]. simpl. f_equal.
      by destruct (knownScalarOf_round_trip T V Hfmt (Hm k V HV)) as (g & _ & -> & ? & _). }
    assert (Hok : MapValue (kaiakTypeToAttrType T) m = (MapKnown (kaiakTypeToAttrType T) m, [])).
    { apply MapValue_ok. intros k V HV.
      destruct (knownScalarOf_round_trip T V Hfmt (Hm k V HV)) as (g & _ & _ & _ & ->).
      apply AttrType_Equal_tag. }
    eexists. split.
    + unfold goValueOf.
      change (String.eqb ("map[" +:+ K +:+ "]" +:+ T) "bool") with false.
      change (String.eqb ("map[" +:+ K +:+ "]" +:+ T) "int") with false.
      change (String.eqb ("map[" +:+ K +:+ "]" +:+ T) "uint") with false.
      change (String.eqb ("map[" +:+ K +:+ "]" +:+ T) "float") with false.
      change (gostrings.HasPrefix ("map[" +:+ K +:+ "]" +:+ T) "[]") with false.
      cbn [orb]. rewrite HasPrefix_append, Hidx, Hlt, Hfrom. reflexivity.
    + rewrite kaiakValueToTF_not_nil by done.
      change (String.eqb ("map[" +:+ K +:+ "]" +:+ T) "bool") with false.
      change (String.eqb ("map[" +:+ K +:+ "]" +:+ T) "int") with false.
      change (String.eqb ("map[" +:+ K +:+ "]" +:+ T) "uint") with false.
      change (String.eqb ("map[" +:+ K +:+ "]" +:+ T) "float") with false.
      change (gostrings.HasPrefix ("map[" +:+ K +:+ "]" +:+ T) "[]") with false.
      cbn [orb]. rewrite HasPrefix_append.
      unfold kaiakMapToTF, kaiakMapToTF_with, kaiakMapElemType, kaiakMapElemType_with,
        tfMapToKaiak.
      simpl MapElements. rewrite Hidx, Hlt, Hfrom, Hid, Hok. reflexivity.
Qed.

End MoreCoercerFacts.

(* ===================================================================== *)
(** * More facts about the dynamic resource *)
(* ===================================================================== *)

Section MoreControllerFacts.
Context `{RT : GoRuntime} `{FM : !GoFmt} {Server : Type}.

Abbreviation World := (@World RT Server).
Abbreviation M := (@M RT Server).

Lemma request_run {A : Type} (c : Call) (f : Server → A * Server) (w : World) :
  request c f w = ((f (remote w)).1, reqWorld w (f (remote w)).2 [c]).
Proof. unfold request, reqWorld. by destruct (f (remote w)). Qed.

Lemma sameButCache_reqWorld (w w' : World) (s : Server) (cs : list Call) :
  sameButCache w w' → sameButCache (reqWorld w s cs) (reqWorld w' s cs).
Proof.
  intros (? & Hc & ? & ? & ? & ?). unfold sameButCache, reqWorld. simpl.
  split_and!; try done. by rewrite Hc.
Qed.

Lemma cacheOK_reqWorld (w : World) (s : Server) (cs : list Call) :
  cacheOK (self w) → cacheOK (self (reqWorld w s cs)).
Proof. done. Qed.

(** [writeState] sends one read and returns [writeResult]. *)
Lemma writeState_run (c : Client) (fullName : string) (tfState : gmap string Value)
    (diags : Diagnostics) (plannedAttrs : option (gmap string any)) (w : World) :
  cacheOK (self w) →
  ∃ w',
    writeState c fullName tfState diags plannedAttrs w
    = (writeResult (resourceSchema (self w)) (builtInfos (self w)) fullName tfState diags plannedAttrs
         (GetResourceInstance c fullName (remote w)).1, w') ∧
    sameButCache (reqWorld w (GetResourceInstance c fullName (remote w)).2 [CallGet fullName]) w'.
Proof.
  intros Hc. unfold writeState. rewrite bind_run, request_run.
  set (w1 := reqWorld w _ _).
  assert (Hc1 : cacheOK (self w1)) by done.
  destruct (GetResourceInstance c fullName (remote w)).1 as [kaiakState|e].
  - cbn [writeResult]. rewrite bind_run. unfold get_self. cbv zeta.
    change (resourceSchema (self w1)) with (resourceSchema (self w)).
    destruct (SetAttribute (resourceSchema (self w)) tfState "id" (StringValue fullName))
      as [tf1 d].
    rewrite bind_run.
    assert (∃ w2, mergeState kaiakState plannedAttrs w1
                  = (mergedOf (builtInfos (self w)) kaiakState plannedAttrs, w2) ∧
                  sameButCache w1 w2) as (w2 & -> & H2).
    { destruct plannedAttrs as [planned|].
      - destruct (mergeState_run kaiakState planned w1 Hc1) as (w2 & ? & ?). by exists w2.
      - exists w1. split; [done|]. by apply sameButCache_refl. }
    rewrite bind_run.
    destruct (getInfos_run w2 (proj2 (proj2 (proj2 (proj2 (proj2 H2)))))) as (w3 & -> & H3).
    rewrite bind_run.
    destruct (getInfos_run w3 (proj2 (proj2 (proj2 (proj2 (proj2 H3)))))) as (w4 & -> & H4).
    exists w4. split.
    + unfold mret, M_ret.
      rewrite (sameButCache_builtInfos _ _ H3), (sameButCache_builtInfos _ _ H2).
      reflexivity.
    + eapply sameButCache_trans; [exact H2|]. by eapply sameButCache_trans.
  - exists w1. split; [done|]. by apply sameButCache_refl.
Qed.

Lemma HasError_Append_error (ds : Diagnostics) (summary : string) :
  HasError (Append ds [frameworkError summary]) = true.
Proof.
  apply HasError_true. exists (frameworkError summary). split; [|done].
  apply elem_of_Append. right. by apply list_elem_of_singleton.
Qed.

Lemma generateLabel_run (w : World) :
  generateLabel w
  = ("tf_" +:+ hex_EncodeToString (take 4 (random w ++ replicate 4 Ascii.zero)),
     labelWorld w).
Proof. reflexivity. Qed.

Lemma extractAttrs_result (src : gmap string Value) (diags : Diagnostics) (w : World) :
  cacheOK (self w) →
  ∃ w', extractAttrs src diags w = (extractResult (builtInfos (self w)) src diags, w') ∧
        sameButCache w w'.
Proof. apply extractAttrs_run. Qed.

(** Without a client, Create, Read, Update and Delete send no request and
    change neither the terraform state nor the receiver: each returns the
    state it was given with the error Resource not configured. *)
Theorem CRUD_without_client (w : World) (plan reqState : gmap string Value)
    (resp : Response) :
  client (self w) = None →
  let refused :=
    ({| State := State resp; Diagnostics_of := notConfigured (Diagnostics_of resp) |}, w) in
  Create plan resp w = refused ∧
  Read reqState resp w = refused ∧
  Update reqState plan resp w = refused ∧
  Delete reqState resp w = refused.
Proof.
  intros Hclient refused. subst refused.
  unfold Create, Read, Update, Delete. rewrite !bind_run. unfold get_self, requireClient.
  rewrite Hclient. done.
Qed.

(** Delete with a client.  Without a string id in the prior state it sends
    no request and reports an error.  Otherwise it sends exactly one
    request, a destroy of that id that is not forced: when it succeeds the
    terraform state is emptied; when it fails the state is left as it was
    and the error is reported. *)
Theorem Delete_outcomes (w : World) (c : Client) (reqState : gmap string Value)
    (resp : Response) :
  client (self w) = Some c →
  HasError (Diagnostics_of resp) = false →
  (∀ v, reqState !! "id" = Some v → kindOf v = KString →
     Delete reqState resp w =
       (match (DestroyResourceInstance c (ValueString v) false (remote w)).1 with
        | None => {| State := ∅; Diagnostics_of := Diagnostics_of resp |}
        | Some e =>
            {| State := State resp;
               Diagnostics_of :=
                 AddError (Diagnostics_of resp) "Failed to destroy resource instance" e |}
        end,
        reqWorld w (DestroyResourceInstance c (ValueString v) false (remote w)).2
          [CallDestroy (ValueString v) false])) ∧
  ((reqState !! "id" = None ∨ ∃ v, reqState !! "id" = Some v ∧ kindOf v ≠ KString) →
   (Delete reqState resp w).2 = w ∧
   State (Delete reqState resp w).1 = State resp ∧
   HasError (Diagnostics_of (Delete reqState resp w).1) = true).
Proof.
  intros Hclient Hno. split.
  - intros v Hv Hk. unfold Delete. rewrite bind_run. unfold get_self, requireClient.
    rewrite Hclient. unfold GetAttribute. rewrite Hv, decide_True by done.
    rewrite Append_nil, Hno, bind_run, request_run.
    change (ValueString_of (Some v)) with (ValueString v).
    by destruct (DestroyResourceInstance c (ValueString v) false (remote w)).1.
  - intros Hid. unfold Delete. rewrite bind_run. unfold get_self, requireClient.
    rewrite Hclient. unfold GetAttribute.
    destruct Hid as [Hnone|(v & Hv & Hk)].
    + rewrite Hnone. cbv beta iota zeta. rewrite HasError_Append_error.
      split_and!; [done|done|apply HasError_Append_error].
    + rewrite Hv, decide_False by done. cbv beta iota zeta.
      rewrite HasError_Append_error.
      split_and!; [done|done|apply HasError_Append_error].
Qed.

(** Read with a client and a string id in the prior state: it sends
    exactly one request, a read of that id, and reconciles without any
    fallback; when the read fails the terraform state is left as it was
    and the error is reported. *)
Theorem Read_outcome (w : World) (c : Client) (reqState : gmap string Value)
    (resp : Response) (v : Value) :
  client (self w) = Some c →
  cacheOK (self w) →
  HasError (Diagnostics_of resp) = false →
  reqState !! "id" = Some v →
  kindOf v = KString →
  let got := GetResourceInstance c (ValueString v) (remote w) in
  let written :=
    writeResult (resourceSchema (self w)) (builtInfos (self w)) (ValueString v) (State resp) (Diagnostics_of resp)
      None got.1 in
  (∃ w', Read reqState resp w = ({| State := written.1; Diagnostics_of := written.2 |}, w') ∧
         remote w' = got.2 ∧ calls w' = calls w ++ [CallGet (ValueString v)] ∧
         random w' = random w) ∧
  (∀ e, got.1 = Err e →
     written = (State resp,
                AddError (Diagnostics_of resp) "Failed to read resource instance" e)).
Proof.
  intros Hclient Hc Hno Hv Hk got written. split.
  - unfold Read. rewrite bind_run. unfold get_self, requireClient. rewrite Hclient.
    unfold GetAttribute. rewrite Hv, decide_True by done.
    rewrite Append_nil, Hno, bind_run.
    change (ValueString_of (Some v)) with (ValueString v).
    destruct (writeState_run c (ValueString v) (State resp) (Diagnostics_of resp) None w Hc)
      as (w' & -> & Hsame).
    fold got. fold written. destruct written as [st ds] eqn:Hw.
    exists w'. destruct Hsame as (Hrem & Hcalls & Hrand & _). by split_and!.
  - intros e He. subst written. by rewrite He.
Qed.

(** Update with a client and a string id in the prior state.  When the
    extraction reports an error no request is sent.  Otherwise one update
    with apply set is sent for the extracted attributes: when it fails the
    terraform state is left as it was, the error is reported, and nothing
    is read back or destroyed; when it succeeds the instance is read back
    and reconciled with the submitted attributes as the fallback. *)
Theorem Update_outcomes (w : World) (c : Client) (reqState plan : gmap string Value)
    (resp : Response) (v : Value) :
  client (self w) = Some c →
  cacheOK (self w) →
  HasError (Diagnostics_of resp) = false →
  reqState !! "id" = Some v →
  kindOf v = KString →
  let id := ValueString v in
  let extracted := extractResult (builtInfos (self w)) plan (Diagnostics_of resp) in
  let updated := UpdateResourceInstance c id extracted.1 true (remote w) in
  let got := GetResourceInstance c id updated.2 in
  let written :=
    writeResult (resourceSchema (self w)) (builtInfos (self w)) id (State resp) extracted.2 (Some extracted.1) got.1 in
  ∃ w', random w' = random w ∧
    if HasError extracted.2 then
      Update reqState plan resp w
      = ({| State := State resp; Diagnostics_of := extracted.2 |}, w') ∧
      remote w' = remote w ∧ calls w' = calls w
    else
      match updated.1 with
      | Some e =>
          Update reqState plan resp w
          = ({| State := State resp;
                Diagnostics_of :=
                  AddError extracted.2 "Failed to update resource instance" e |}, w') ∧
          remote w' = updated.2 ∧ calls w' = calls w ++ [CallUpdate id extracted.1 true]
      | None =>
          Update reqState plan resp w
          = ({| State := written.1; Diagnostics_of := written.2 |}, w') ∧
          remote w' = got.2 ∧
          calls w' = calls w ++ [CallUpdate id extracted.1 true; CallGet id]
      end.
Proof.
  intros Hclient Hc Hno Hv Hk. cbv zeta.
  destruct (extractResult (builtInfos (self w)) plan (Diagnostics_of resp))
    as [attrs ds] eqn:Hex.
  cbn [fst snd].
  unfold Update. rewrite bind_run. unfold get_self, requireClient. rewrite Hclient.
  unfold GetAttribute. rewrite Hv, decide_True by done.
  rewrite Append_nil, Hno, bind_run.
  change (ValueString_of (Some v)) with (ValueString v).
  destruct (extractAttrs_result plan (Diagnostics_of resp) w Hc) as (w1 & -> & Hsame1).
  rewrite Hex. cbv beta iota zeta.
  destruct Hsame1 as (Hrem1 & Hcalls1 & Hrand1 & Hmeta1 & Hcl1 & Hc1).
  destruct (HasError ds) eqn:Herr.
  { exists w1. by split_and!. }
  rewrite bind_run, request_run, Hrem1.
  destruct (UpdateResourceInstance c (ValueString v) attrs true (remote w)) as [err s] eqn:Hu.
  cbn [fst snd]. destruct err as [e|].
  { eexists. split_and!; [|reflexivity|done|].
    - done.
    - simpl. by rewrite Hcalls1. }
  rewrite bind_run.
  destruct (writeState_run c (ValueString v) (State resp) ds (Some attrs)
              (reqWorld w1 s [CallUpdate (ValueString v) attrs true]) Hc1)
    as (w2 & -> & Hsame2).
  assert (Hb : builtInfos (self (reqWorld w1 s [CallUpdate (ValueString v) attrs true]))
               = builtInfos (self w)).
  { unfold builtInfos. simpl. by rewrite Hmeta1. }
  assert (Hs : resourceSchema (self (reqWorld w1 s [CallUpdate (ValueString v) attrs true]))
               = resourceSchema (self w)).
  { unfold resourceSchema. simpl. by rewrite Hmeta1. }
  rewrite Hb, Hs. simpl remote.
  destruct (writeResult _ _ _ _ _ _) as [st ds'] eqn:Hw.
  destruct Hsame2 as (Hrem2 & Hcalls2 & Hrand2 & _).
  exists w2. split_and!; try done.
  - by rewrite Hrand2.
  - rewrite Hcalls2. simpl. rewrite Hcalls1. by rewrite <- app_assoc.
Qed.

(** Create up to the extraction: the world after the label was drawn, the
    create request was sent and the attributes were extracted. *)
Lemma Create_prefix (w : World) (c : Client) (plan : gmap string Value) (resp : Response) :
  client (self w) = Some c →
  cacheOK (self w) →
  (CreateResourceInstance c (createdName w) (remote w)).1 = None →
  ∃ w1,
    remote w1 = (CreateResourceInstance c (createdName w) (remote w)).2 ∧
    calls w1 = calls w ++ [CallCreate (createdName w)] ∧
    random w1 = drop 4 (random w) ∧
    meta (self w1) = meta (self w) ∧
    cacheOK (self w1) ∧
    Create plan resp w =
      (let '(attrs, diags) :=
         extractResult (builtInfos (self w)) plan (Diagnostics_of resp) in
       if HasError diags then
         cleanupErr ← request (CallDestroy (createdName w) false)
                        (DestroyResourceInstance c (createdName w) false);
         mret {| State := State resp;
                 Diagnostics_of :=
                   cleanupWarning diags "attribute extraction" (createdName w) cleanupErr |}
       else if 0 <? size attrs then
         err ← request (CallUpdate (createdName w) attrs true)
                 (UpdateResourceInstance c (createdName w) attrs true);
         match err with
         | Some e =>
             cleanupErr ← request (CallDestroy (createdName w) false)
                            (DestroyResourceInstance c (createdName w) false);
             let diags :=
               cleanupWarning diags "applying attributes" (createdName w) cleanupErr in
             mret {| State := State resp;
                     Diagnostics_of := AddError diags "Failed to apply attributes" e |}
         | None =>
             '(st, diags) ← writeState c (createdName w) (State resp) diags (Some attrs);
             mret {| State := st; Diagnostics_of := diags |}
         end
       else
         '(st, diags) ← writeState c (createdName w) (State resp) diags (Some attrs);
         mret {| State := st; Diagnostics_of := diags |}) w1.
Proof.
  intros Hclient Hc Hcreate.
  unfold Create. rewrite bind_run. unfold get_self, requireClient. rewrite Hclient.
  rewrite bind_run, generateLabel_run.
  change (fullName (self w) _) with (createdName w).
  rewrite bind_run, request_run.
  change (remote (labelWorld w)) with (remote w). rewrite Hcreate.
  rewrite bind_run.
  destruct (extractAttrs_result plan (Diagnostics_of resp)
              (reqWorld (labelWorld w)
                 (CreateResourceInstance c (createdName w) (remote w)).2
                 [CallCreate (createdName w)]) Hc) as (w1 & -> & Hsame).
  destruct Hsame as (Hrem & Hcalls & Hrand & Hmeta & _ & Hc1).
  exists w1. split_and!; try done.
Qed.


(** Create, success.  When the instance was created, the extraction
    reported no error, and the update (sent only when attributes were
    extracted) succeeded, the instance is read back under its new name and
    reconciled with the submitted attributes as the fallback; the requests
    are the create, the update if any, and the read. *)
Theorem Create_success (w : World) (c : Client) (plan : gmap string Value)
    (resp : Response) :
  client (self w) = Some c →
  cacheOK (self w) →
  let name := createdName w in
  let created := CreateResourceInstance c name (remote w) in
  let extracted := extractResult (builtInfos (self w)) plan (Diagnostics_of resp) in
  let updated :=
    if 0 <? size extracted.1
    then UpdateResourceInstance c name extracted.1 true created.2
    else (None, created.2) in
  let got := GetResourceInstance c name updated.2 in
  let written :=
    writeResult (resourceSchema (self w)) (builtInfos (self w)) name (State resp) extracted.2
      (Some extracted.1) got.1 in
  created.1 = None →
  HasError extracted.2 = false →
  updated.1 = None →
  ∃ w',
    Create plan resp w = ({| State := written.1; Diagnostics_of := written.2 |}, w') ∧
    remote w' = got.2 ∧
    calls w' = calls w ++ [CallCreate name] ++
               (if 0 <? size extracted.1 then [CallUpdate name extracted.1 true] else []) ++
               [CallGet name] ∧
    random w' = drop 4 (random w).
Proof.
  intros Hclient Hc. cbv zeta. intros Hcreate Hno Hupd.
  destruct (Create_prefix w c plan resp Hclient Hc Hcreate)
    as (w1 & Hrem & Hcalls & Hrand & Hmeta & Hc1 & ->).
  destruct (extractResult (builtInfos (self w)) plan (Diagnostics_of resp))
    as [attrs ds]. cbn [fst snd] in *. rewrite Hno.
  destruct (0 <? size attrs) eqn:Hsize.
  - rewrite bind_run, request_run, Hrem, Hupd, bind_run.
    set (w2 := reqWorld w1 _ _).
    destruct (writeState_run c (createdName w) (State resp) ds (Some attrs) w2 Hc1)
      as (w3 & -> & Hsame).
    assert (Hb : builtInfos (self w2) = builtInfos (self w)).
    { unfold builtInfos. simpl. by rewrite Hmeta. }
    assert (Hs : resourceSchema (self w2) = resourceSchema (self w)).
    { unfold resourceSchema. simpl. by rewrite Hmeta. }
    rewrite Hb, Hs. simpl remote.
    destruct (writeResult _ _ _ _ _ _) as [st ds'].
    destruct Hsame as (Hrem3 & Hcalls3 & Hrand3 & _).
    exists w3. rewrite Hrem3, Hcalls3, Hrand3.
    subst w2. unfold reqWorld; cbn [remote calls random].
    rewrite ?Hrem, ?Hcalls, ?Hrand, <- ?app_assoc. by split_and!.
  - rewrite bind_run.
    destruct (writeState_run c (createdName w) (State resp) ds (Some attrs) w1 Hc1)
      as (w3 & -> & Hsame).
    assert (Hb : builtInfos (self w1) = builtInfos (self w)).
    { unfold builtInfos. by rewrite Hmeta. }
    assert (Hs : resourceSchema (self w1) = resourceSchema (self w)).
    { unfold resourceSchema. by rewrite Hmeta. }
    rewrite Hb, Hs, Hrem. simpl.
    destruct (writeResult _ _ _ _ _ _) as [st ds'].
    destruct Hsame as (Hrem3 & Hcalls3 & Hrand3 & _).
    exists w3. rewrite Hrem3, Hcalls3, Hrand3.
    unfold reqWorld; cbn [remote calls random].
    rewrite ?Hrem, ?Hcalls, ?Hrand, <- ?app_assoc. by split_and!.
Qed.

(** *** What reconciliation writes *)

Lemma NoDup_keys_eq (infos : list attrInfo) (i j : attrInfo) :
  NoDup (map seenKey infos) → i ∈ infos → j ∈ infos →
  tfBlock i = tfBlock j → tfField i = tfField j → i = j.
Proof.
  intros Hnd Hi Hj Hb Hf.
  apply list_elem_of_lookup in Hi as (n & Hn). apply list_elem_of_lookup in Hj as (m & Hm).
  assert (n = m) as ->; [|congruence].
  eapply NoDup_lookup; [exact Hnd| |].
  - rewrite list_lookup_fmap, Hn. reflexivity.
  - rewrite list_lookup_fmap, Hm. simpl. unfold seenKey. by rewrite Hb, Hf.
Qed.

(** [SetAttribute] writes the value at the path when the state accepts it,
    and reports one error and writes nothing when it does not. *)
Lemma SetAttribute_accepted (sch : gmap string tfschema.Attribute)
    (st : gmap string Value) (p : string) (v : Value) :
  accepts sch p v = true → SetAttribute sch st p v = (<[p := v]> st, []).
Proof.
  unfold accepts, SetAttribute. destruct (sch !! p) as [a|]; [|done]. by intros ->.
Qed.

Lemma SetAttribute_refused (sch : gmap string tfschema.Attribute)
    (st : gmap string Value) (p : string) (v : Value) :
  accepts sch p v = false →
  (SetAttribute sch st p v).1 = st ∧
  ((SetAttribute sch st p v).2 = [attributeError "Value Conversion Error" p] ∨
   (SetAttribute sch st p v).2 = [attributeError "State Write Error" p]).
Proof.
  unfold accepts, SetAttribute. destruct (sch !! p) as [a|]; [|by auto].
  intros ->. by auto.
Qed.

Lemma SetAttribute_lookup (sch : gmap string tfschema.Attribute)
    (st : gmap string Value) (p : string) (v : Value) (k : string) :
  (SetAttribute sch st p v).1 !! k =
    if decide (k = p) then (if accepts sch p v then Some v else st !! p) else st !! k.
Proof.
  destruct (accepts sch p v) eqn:Ha.
  - rewrite (SetAttribute_accepted _ _ _ _ Ha). simpl. case_decide as Hk.
    + subst. by rewrite lookup_insert_eq.
    + by rewrite lookup_insert_ne.
  - destruct (SetAttribute_refused sch st p v Ha) as [-> _]. case_decide; by subst.
Qed.

(** The diagnostics of a write do not depend on the state written to. *)
Lemma SetAttribute_diags (sch : gmap string tfschema.Attribute)
    (st : gmap string Value) (p : string) (v : Value) :
  (SetAttribute sch st p v).2 = (SetAttribute sch ∅ p v).2.
Proof.
  unfold SetAttribute. destruct (sch !! p) as [a|]; [|done].
  by destruct (AttrType_Equal _ _).
Qed.

Lemma SetAttribute_diag_elem (sch : gmap string tfschema.Attribute)
    (st : gmap string Value) (p : string) (v : Value) (d : Diagnostic) :
  d ∈ (SetAttribute sch st p v).2 →
  accepts sch p v = false ∧
  (d = attributeError "Value Conversion Error" p ∨ d = attributeError "State Write Error" p).
Proof.
  destruct (accepts sch p v) eqn:Ha.
  - rewrite (SetAttribute_accepted _ _ _ _ Ha). by intros ?%elem_of_nil.
  - destruct (SetAttribute_refused sch st p v Ha) as [_ [-> | ->]];
      intros ->%list_elem_of_singleton; auto.
Qed.

Lemma SetAttribute_refused_error (sch : gmap string tfschema.Attribute)
    (st : gmap string Value) (p : string) (v : Value) :
  accepts sch p v = false →
  ∃ d, d ∈ (SetAttribute sch st p v).2 ∧ is_error d = true ∧
       (d = attributeError "Value Conversion Error" p ∨
        d = attributeError "State Write Error" p).
Proof.
  intros Ha. destruct (SetAttribute_refused sch st p v Ha) as [_ [-> | ->]];
    eexists; (split; [by apply list_elem_of_singleton|split; [done|auto]]).
Qed.

Lemma writeTop_app (sch : gmap string tfschema.Attribute) (l1 l2 : list attrInfo)
    (merged : gmap string any) (st : gmap string Value * Diagnostics) :
  writeTop sch (l1 ++ l2) merged st = writeTop sch l2 merged (writeTop sch l1 merged st).
Proof. unfold writeTop. by rewrite fold_left_app. Qed.

Lemma writeTop_cons (sch : gmap string tfschema.Attribute) (i : attrInfo)
    (l : list attrInfo) (merged : gmap string any) (tf : gmap string Value)
    (ds : Diagnostics) :
  writeTop sch (i :: l) merged (tf, ds) =
    writeTop sch l merged
      (if String.eqb (tfBlock i) EmptyString
       then ((SetAttribute sch tf (tfField i) (decoded merged i)).1,
             Append ds (SetAttribute sch tf (tfField i) (decoded merged i)).2)
       else (tf, ds)).
Proof.
  unfold writeTop at 1. cbn [fold_left]. fold (writeTop sch l merged).
  destruct (String.eqb (tfBlock i) EmptyString); [|done]. cbn [negb]. cbv zeta.
  unfold decoded. by destruct (SetAttribute sch tf (tfField i) _).
Qed.

(** The diagnostics after the top-level loop: the earlier ones, and those
    of the writes the state refused. *)
Lemma writeTop_diags (sch : gmap string tfschema.Attribute) (l : list attrInfo)
    (merged : gmap string any) (st : gmap string Value * Diagnostics) (d : Diagnostic) :
  d ∈ (writeTop sch l merged st).2 ↔
  d ∈ st.2 ∨ ∃ i, i ∈ l ∧ tfBlock i = EmptyString ∧
                  d ∈ (SetAttribute sch ∅ (tfField i) (decoded merged i)).2.
Proof.
  revert st. induction l as [|i l IH]; intros [tf ds].
  - simpl. split; [by left|]. intros [H|(i & Hi & _)]; [done|]. by apply elem_of_nil in Hi.
  - rewrite writeTop_cons, IH.
    destruct (String.eqb_spec (tfBlock i) EmptyString) as [Hb|Hb]; cbn [fst snd].
    + rewrite elem_of_Append, (SetAttribute_diags sch tf). split.
      * intros [[H|H]|(j & Hj & Hjb & Hd)]; [by left| |].
        -- right. exists i. split_and!; [by left|done|done].
        -- right. exists j. split_and!; [by right|done|done].
      * intros [H|(j & Hj & Hjb & Hd)]; [by left; left|].
        apply elem_of_cons in Hj as [->|Hj]; [by left; right|].
        right. by exists j.
    + split.
      * intros [H|(j & Hj & Hjb & Hd)]; [by left|].
        right. exists j. split_and!; [by right|done|done].
      * intros [H|(j & Hj & Hjb & Hd)]; [by left|].
        apply elem_of_cons in Hj as [->|Hj]; [done|]. right. by exists j.
Qed.

Lemma writeTop_frame (sch : gmap string tfschema.Attribute) (l : list attrInfo)
    (merged : gmap string any) (st : gmap string Value * Diagnostics) (k : string) :
  (∀ i, i ∈ l → tfBlock i = EmptyString → tfField i ≠ k) →
  (writeTop sch l merged st).1 !! k = st.1 !! k.
Proof.
  revert st. induction l as [|i l IH]; intros [tf ds] Hk; [done|].
  rewrite writeTop_cons, IH.
  - destruct (String.eqb_spec (tfBlock i) EmptyString) as [Hb|Hb]; [|done].
    cbn [fst]. rewrite SetAttribute_lookup, decide_False; [done|].
    intros ->. apply (Hk i); [by left|done|done].
  - intros j Hj. apply Hk. by right.
Qed.

(** A top-level attribute after the loop: the decoding of its merged value
    when the state accepts it, what was there before when it does not. *)
Lemma writeTop_set (sch : gmap string tfschema.Attribute) (l : list attrInfo)
    (merged : gmap string any) (st : gmap string Value * Diagnostics) (info : attrInfo) :
  NoDup (map seenKey l) → info ∈ l → tfBlock info = EmptyString →
  (writeTop sch l merged st).1 !! tfField info =
    if accepts sch (tfField info) (decoded merged info)
    then Some (decoded merged info) else st.1 !! tfField info.
Proof.
  intros Hnd Hin Hb.
  apply list_elem_of_split in Hin as (l1 & l2 & ->).
  rewrite writeTop_app. destruct (writeTop sch l1 merged st) as [tf ds] eqn:H1.
  rewrite writeTop_cons, Hb. cbn [String.eqb]. rewrite writeTop_frame.
  - cbn [fst]. rewrite SetAttribute_lookup, decide_True by done.
    destruct (accepts sch (tfField info) (decoded merged info)); [done|].
    change tf with (tf, ds).1. rewrite <- H1. apply writeTop_frame.
    intros i Hi Hbi Hf.
    rewrite map_app in Hnd. apply NoDup_app in Hnd as (_ & Hdisj & _).
    apply (Hdisj (seenKey i)).
    + apply list_elem_of_fmap. by exists i.
    + simpl. apply elem_of_cons. left. unfold seenKey. by rewrite Hb, Hbi, Hf.
  - intros i Hi Hbi Hf.
    rewrite map_app in Hnd. apply NoDup_app in Hnd as (_ & _ & Hnd).
    simpl in Hnd. apply NoDup_cons in Hnd as [Hnot _]. apply Hnot.
    apply list_elem_of_fmap. exists i. split; [|done].
    unfold seenKey. by rewrite Hb, Hbi, Hf.
Qed.

(** The groups of [groupByBlock]: under each block name, the attributes of
    that block that are not skipped, in the order of the table. *)
Lemma groupByBlock_lookup (skip : attrInfo → bool) (l : list attrInfo) (b : string) :
  groupByBlock skip l !! b =
    match List.filter (fun i => negb (skip i) && String.eqb (tfBlock i) b) l with
    | [] => None
    | g => Some g
    end.
Proof.
  induction l as [|x l IH] using rev_ind; [done|].
  unfold groupByBlock in *. rewrite fold_left_app, List.filter_app. simpl.
  destruct (skip x) eqn:Hs; simpl.
  { by rewrite app_nil_r. }
  destruct (String.eqb_spec (tfBlock x) b) as [Hb|Hb].
  - subst b. rewrite lookup_insert_eq, IH.
    by destruct (List.filter _ l).
  - rewrite lookup_insert_ne by done. by rewrite app_nil_r.
Qed.

Lemma groupByBlock_blocks (l : list attrInfo) (b : string) :
  b ≠ EmptyString →
  groupByBlock (fun info => String.eqb (tfBlock info) EmptyString) l !! b =
    match blockMembers l b with [] => None | g => Some g end.
Proof.
  intros Hb. rewrite groupByBlock_lookup. unfold blockMembers.
  assert (List.filter
            (fun i => negb (String.eqb (tfBlock i) EmptyString) && String.eqb (tfBlock i) b) l
          = List.filter (fun i => String.eqb (tfBlock i) b) l) as ->; [|done].
  apply List.filter_ext. intros i.
  destruct (String.eqb_spec (tfBlock i) b) as [E|E]; [|by rewrite andb_false_r].
  subst b. apply String.eqb_neq in Hb. by rewrite Hb.
Qed.

Lemma groupByBlock_no_top (l : list attrInfo) :
  groupByBlock (fun info => String.eqb (tfBlock info) EmptyString) l !! EmptyString = None.
Proof.
  rewrite groupByBlock_lookup.
  assert (List.filter
            (fun i => negb (String.eqb (tfBlock i) EmptyString) &&
                      String.eqb (tfBlock i) EmptyString) l = []) as ->; [|done].
  induction l as [|x l IH]; [done|]. simpl.
  by destruct (String.eqb (tfBlock x) EmptyString).
Qed.

Lemma blockMembers_elem (l : list attrInfo) (b : string) (i : attrInfo) :
  i ∈ blockMembers l b ↔ i ∈ l ∧ tfBlock i = b.
Proof.
  unfold blockMembers. rewrite !list_elem_of_In, List.filter_In.
  by rewrite String.eqb_eq.
Qed.

Lemma writeBlock_eq (sch : gmap string tfschema.Attribute) (merged : gmap string any)
    (b : string) (g : list attrInfo) (tf : gmap string Value) (ds : Diagnostics) :
  writeBlock sch merged b g (tf, ds)
  = ((SetAttribute sch tf b (blockValue merged g)).1,
     Append (Append ds (blockDiags merged g))
       (SetAttribute sch tf b (blockValue merged g)).2).
Proof.
  unfold writeBlock, blockValue, blockDiags.
  destruct (blockObject merged g) as [[tys vals] has].
  destruct has.
  - destruct (ObjectValue tys vals) as [obj d]. cbn [fst snd].
    by destruct (SetAttribute sch tf b obj).
  - by destruct (SetAttribute sch tf b (ObjectNull tys)).
Qed.

(** The last loop of [writeState], whatever the order in which the blocks
    are visited: each block name holds the object of its group when the
    state accepts it, every other key is as before, and the diagnostics are
    the earlier ones, those of building the objects and those of the
    writes the state refused. *)
Lemma writeBlocks_fold (sch : gmap string tfschema.Attribute) (merged : gmap string any)
    (st : gmap string Value * Diagnostics) (groups : gmap string (list attrInfo)) :
  (∀ k, (map_fold (writeBlock sch merged) st groups).1 !! k =
        match groups !! k with
        | Some g =>
            if accepts sch k (blockValue merged g) then Some (blockValue merged g)
            else st.1 !! k
        | None => st.1 !! k
        end) ∧
  (∀ d, d ∈ (map_fold (writeBlock sch merged) st groups).2 ↔
        d ∈ st.2 ∨
        ∃ b g, groups !! b = Some g ∧
               (d ∈ blockDiags merged g ∨
                d ∈ (SetAttribute sch ∅ b (blockValue merged g)).2)).
Proof.
  apply (map_fold_weak_ind
           (fun (r : gmap string Value * Diagnostics) (m : gmap string (list attrInfo)) =>
              (∀ k, r.1 !! k = match m !! k with
                               | Some g =>
                                   if accepts sch k (blockValue merged g)
                                   then Some (blockValue merged g) else st.1 !! k
                               | None => st.1 !! k
                               end) ∧
              (∀ d, d ∈ r.2 ↔
                    d ∈ st.2 ∨
                    ∃ b g, m !! b = Some g ∧
                           (d ∈ blockDiags merged g ∨
                            d ∈ (SetAttribute sch ∅ b (blockValue merged g)).2)))).
  - split; [done|]. intros d. split; [by left|].
    intros [H|(b & g & H & _)]; [done|]. by rewrite lookup_empty in H.
  - intros b g m [tf ds] Hfresh [IH1 IH2]. rewrite writeBlock_eq. cbn [fst snd] in *. split.
    + intros k. rewrite SetAttribute_lookup. destruct (decide (k = b)) as [->|Hne].
      * rewrite lookup_insert_eq.
        destruct (accepts sch b (blockValue merged g)); [done|].
        by rewrite IH1, Hfresh.
      * rewrite lookup_insert_ne by done. apply IH1.
    + intros d. rewrite !elem_of_Append, IH2, (SetAttribute_diags sch tf). split.
      * intros [[[H|(b' & g' & Hb' & Hd)]|H]|H].
        -- by left.
        -- right. exists b', g'. split; [|done].
           rewrite lookup_insert_ne; [done|]. intros ->. by rewrite Hfresh in Hb'.
        -- right. exists b, g. rewrite lookup_insert_eq. auto.
        -- right. exists b, g. rewrite lookup_insert_eq. auto.
      * intros [H|(b' & g' & Hb' & Hd)]; [by left; left; left|].
        apply lookup_insert_Some in Hb' as [[<- <-]|[_ Hb']].
        -- destruct Hd; [left; right|right]; done.
        -- left. left. right. by exists b', g'.
Qed.

Lemma map_fold_andb {V : Type} (check : string → V → bool) (m : gmap string V) :
  map_fold (fun k v acc => acc && check k v) true m = true ↔
  map_Forall (fun k v => check k v = true) m.
Proof.
  apply (map_fold_weak_ind
           (fun (r : bool) (m' : gmap string V) =>
              r = true ↔ map_Forall (fun k v => check k v = true) m')).
  - split; [intros _; apply map_Forall_empty|done].
  - intros k v m' r Hfresh IH.
    rewrite andb_true_iff, IH, map_Forall_insert by done. tauto.
Qed.

Lemma ObjectValue_known (tys : gmap string AttrType) (vals : gmap string Value) :
  dom tys = dom vals →
  map_Forall (fun k v => ∃ t, tys !! k = Some t ∧ AttrType_Equal t (Value_Type v) = true)
    vals →
  ObjectValue tys vals = (ObjectKnown tys vals, []).
Proof.
  intros Hdom Hall. unfold ObjectValue.
  rewrite bool_decide_eq_true_2 by done. simpl.
  assert (map_fold (fun k v acc =>
                      acc && match tys !! k with
                             | Some t => AttrType_Equal t (Value_Type v)
                             | None => false
                             end) true vals = true) as ->; [|done].
  apply (map_fold_andb (fun k v => match tys !! k with
                                   | Some t => AttrType_Equal t (Value_Type v)
                                   | None => false
                                   end)).
  intros k v Hk. destruct (Hall k v Hk) as (t & -> & Ht). done.
Qed.

Lemma ObjectValue_unknown (tys : gmap string AttrType) (vals : gmap string Value)
    (k : string) (v : Value) (t : AttrType) :
  vals !! k = Some v → tys !! k = Some t → AttrType_Equal t (Value_Type v) = false →
  ObjectValue tys vals
  = (ObjectUnknown tys, [frameworkError "Invalid Object Attribute Type"]).
Proof.
  intros Hv Ht Hne. unfold ObjectValue.
  destruct (map_fold _ true vals) eqn:Hfold; [|by rewrite andb_false_r].
  apply (map_fold_andb (fun k v => match tys !! k with
                                   | Some t => AttrType_Equal t (Value_Type v)
                                   | None => false
                                   end)) in Hfold.
  specialize (Hfold k v Hv). simpl in Hfold. rewrite Ht in Hfold. congruence.
Qed.

Lemma blockObject_snoc (merged : gmap string any) (g : list attrInfo) (x : attrInfo) :
  blockObject merged (g ++ [x]) =
    (<[tfField x := kaiakTypeToAttrType (schema.Type_ (attr x))]> (blockObject merged g).1.1,
     <[tfField x := decoded merged x]> (blockObject merged g).1.2,
     (blockObject merged g).2 || negb (unset merged x)).
Proof.
  unfold blockObject at 1. rewrite fold_left_app. fold (blockObject merged g).
  destruct (blockObject merged g) as [[tys vals] has]. simpl.
  unfold decoded, unset.
  destruct (merged !! kaiakName x) as [v|]; simpl.
  - destruct (is_nil v) eqn:Hn; simpl.
    + destruct v; try done. by rewrite orb_false_r.
    + by rewrite orb_true_r.
  - by rewrite orb_false_r.
Qed.

(** The types and values [writeState] collects for a block: every entry
    comes from a member, the two maps have the same keys, and a value is
    set when some member is set in the merged state. *)
Lemma blockObject_entries (merged : gmap string any) (g : list attrInfo) :
  dom (blockObject merged g).1.1 = dom (blockObject merged g).1.2 ∧
  (∀ f v, (blockObject merged g).1.2 !! f = Some v →
          ∃ i, i ∈ g ∧ tfField i = f ∧ v = decoded merged i ∧
               (blockObject merged g).1.1 !! f
               = Some (kaiakTypeToAttrType (schema.Type_ (attr i)))) ∧
  (blockObject merged g).2 = negb (forallb (unset merged) g).
Proof.
  induction g as [|x g (IHd & IHe & IHh)] using rev_ind.
  { split_and!; [done| |done]. intros f v H. simpl in H. by rewrite lookup_empty in H. }
  rewrite blockObject_snoc. simpl. split_and!.
  - by rewrite !dom_insert_L, IHd.
  - intros f v Hf. apply lookup_insert_Some in Hf as [[<- <-]|[Hne Hf]].
    + exists x. rewrite lookup_insert_eq. split_and!; try done.
      apply elem_of_app. right. by apply list_elem_of_singleton.
    + destruct (IHe f v Hf) as (i & Hi & Hfi & Hv & Ht).
      exists i. rewrite lookup_insert_ne by done. split_and!; try done.
      apply elem_of_app. by left.
  - rewrite IHh, forallb_app. simpl. rewrite andb_true_r.
    by destruct (forallb (unset merged) g), (unset merged x).
Qed.

Lemma blockObject_members (merged : gmap string any) (g : list attrInfo) (i : attrInfo) :
  NoDup (map tfField g) → i ∈ g →
  (blockObject merged g).1.1 !! tfField i
  = Some (kaiakTypeToAttrType (schema.Type_ (attr i))) ∧
  (blockObject merged g).1.2 !! tfField i = Some (decoded merged i).
Proof.
  induction g as [|x g IH] using rev_ind; [by intros _ ?%elem_of_nil|].
  rewrite map_app. intros Hnd Hi. apply NoDup_app in Hnd as (Hnd & Hdisj & _).
  rewrite blockObject_snoc. simpl.
  apply elem_of_app in Hi as [Hi|Hi].
  - assert (tfField x ≠ tfField i).
    { intros Heq. apply (Hdisj (tfField i)).
      - apply list_elem_of_fmap. by exists i.
      - rewrite <- Heq. simpl. apply list_elem_of_singleton. done. }
    rewrite !lookup_insert_ne by done. by apply IH.
  - apply list_elem_of_singleton in Hi as ->. by rewrite !lookup_insert_eq.
Qed.

Lemma builtInfos_keys (r : dynamicResource (Server := Server)) :
  NoDup (map seenKey (builtInfos r)) ∧
  Forall (fun i => topReserved i = false) (builtInfos r).
Proof.
  unfold builtInfos.
  destruct (buildResourceSchema (schema.MetaName (meta r)) (schema.Attributes (meta r)))
    as [[sch infos] diags] eqn:Hb.
  simpl. destruct (HasError diags) eqn:Herr.
  - unfold buildResourceSchema in Hb.
    destruct (scanAttrs _ _) as [[infos' seen] diags'].
    destruct (HasError diags') eqn:Herr'.
    + injection Hb as <- <- <-. split; constructor.
    + destruct (fold_left groupAttr infos' (fixedAttrs, ∅)).
      injection Hb as <- <- <-. by rewrite Herr in Herr'.
  - destruct (buildResourceSchema_success _ _ _ _ _ Hb Herr) as (_ & -> & Hnd & Hres & _).
    split; [done|]. by apply Forall_fmap.
Qed.

Lemma blockMembers_NoDup (infos : list attrInfo) (b : string) :
  NoDup (map seenKey infos) → NoDup (map tfField (blockMembers infos b)).
Proof.
  unfold blockMembers. induction infos as [|x l IH]; [constructor|].
  simpl. intros Hnd. apply NoDup_cons in Hnd as [Hnot Hnd].
  destruct (String.eqb_spec (tfBlock x) b) as [Hb|Hb]; [|by apply IH].
  simpl. apply NoDup_cons. split; [|by apply IH].
  intros Hin. apply list_elem_of_fmap in Hin as (i & Hf & Hi).
  apply list_elem_of_In, List.filter_In in Hi as [Hi Hbi].
  apply String.eqb_eq in Hbi. apply Hnot.
  apply list_elem_of_fmap. exists i. split; [|by apply list_elem_of_In].
  unfold seenKey. by rewrite Hb, Hbi, Hf.
Qed.

Lemma forallb_false_elem {A : Type} (p : A → bool) (l : list A) :
  forallb p l = false → ∃ x, x ∈ l ∧ p x = false.
Proof.
  induction l as [|x l IH]; [done|]. simpl.
  destruct (p x) eqn:Hp.
  - intros H. destruct (IH H) as (y & Hy & Hpy). exists y. split; [by right|done].
  - intros _. exists x. split; [by left|done].
Qed.

(** *** The schema of the state *)

Lemma attrTypeOf_kaiakAttrToTF (a : schema.Attribute) :
  attrTypeOf (kaiakAttrToTF a) = kaiakTypeToAttrType (schema.Type_ a).
Proof.
  rewrite kaiakTypeToAttrType_unfold. unfold kaiakAttrToTF.
  destruct (String.eqb (schema.Type_ a) "bool"); [done|].
  destruct (String.eqb (schema.Type_ a) "int" || String.eqb (schema.Type_ a) "uint");
    [done|].
  destruct (String.eqb (schema.Type_ a) "float"); [done|].
  destruct (gostrings.HasPrefix (schema.Type_ a) "[]"); [done|].
  by destruct (gostrings.HasPrefix (schema.Type_ a) "map[").
Qed.

(** The table is empty unless the translation succeeded. *)
Lemma builtInfos_translated (r : dynamicResource (Server := Server)) (info : attrInfo) :
  info ∈ builtInfos r → translated r = true.
Proof.
  unfold builtInfos, translated, buildResourceSchema.
  destruct (scanAttrs _ _) as [[infos seen] diags].
  destruct (HasError diags) eqn:Herr; [by intros ?%elem_of_nil|].
  destruct (fold_left groupAttr infos (fixedAttrs, ∅)). simpl. by rewrite Herr.
Qed.

(** The schema of a translated resource type, read off the table: a block
    name holds the nested attribute of the block's members; any other key
    holds the leaf of the top-level attribute of that field, or the fixed
    attribute of that name. *)
Lemma resourceSchema_facts (r : dynamicResource (Server := Server)) :
  translated r = true →
  let infos := builtInfos r in
  (∀ info, info ∈ infos → tfBlock info = EmptyString →
     (∀ i, i ∈ infos → tfBlock i ≠ EmptyString → tfBlock i ≠ tfField info) →
     resourceSchema r !! tfField info = Some (kaiakAttrToTF (attr info))) ∧
  (∀ k, k = "name" ∨ k = "id" →
     (∀ i, i ∈ infos → tfBlock i ≠ k) →
     resourceSchema r !! k = fixedAttrs !! k) ∧
  (∀ i, i ∈ infos → tfBlock i ≠ EmptyString →
     ∃ m, resourceSchema r !! tfBlock i = Some (nestBlock m) ∧
          ∀ f x, m !! f = Some x ↔
                 ∃ j, j ∈ infos ∧ tfBlock j = tfBlock i ∧ tfField j = f ∧
                      x = kaiakAttrToTF (attr j)) ∧
  (∀ k, (k = "name" ∨ k = "id" ∨ ∃ info, info ∈ infos ∧ tfField info = k ∧
                                         tfBlock info = EmptyString) →
     is_Some (resourceSchema r !! k)).
Proof.
  unfold translated, builtInfos, resourceSchema.
  destruct (buildResourceSchema (schema.MetaName (meta r)) (schema.Attributes (meta r)))
    as [[sch infos] diags] eqn:Hb.
  cbn [fst snd]. intros Hno%negb_true_iff. cbv zeta.
  destruct (buildResourceSchema_success _ _ _ _ _ Hb Hno) as (_ & -> & Hnd & Hres & Hattrs).
  set (l := map newAttrInfo (schema.Attributes (meta r))) in *.
  pose proof (groupAttrs_spec l Hnd) as Hg.
  pose proof (groupAttrs_top l Hnd) as Ht.
  destruct (fold_left groupAttr l (fixedAttrs, ∅)) as [tfAttrs blocks].
  cbn [fst snd] in Hattrs, Ht. destruct Hg as (_ & Hsound & Hcomplete).
  destruct Ht as [Htop Hrest].
  assert (Hnoblock : ∀ k, (∀ i, i ∈ l → tfBlock i ≠ EmptyString → tfBlock i ≠ k) →
                          blocks !! k = None).
  { intros k Hk. destruct (blocks !! k) as [m|] eqn:Hm; [|done].
    destruct (Hsound k m Hm) as (Hne & (i & Hi & Hib) & _).
    destruct (Hk i Hi); [by rewrite Hib|done]. }
  assert (Hfixed : ∀ k, k = "name" ∨ k = "id" →
            ∀ i, i ∈ l → tfBlock i = EmptyString → tfField i ≠ k).
  { intros k Hk i Hi Hib Hf. apply list_elem_of_fmap in Hi as (a & -> & Ha).
    eapply Forall_forall in Hres; [|exact Ha]. unfold topReserved in Hres.
    rewrite Hib, Hf in Hres. by destruct Hk as [-> | ->]. }
  rewrite Hattrs. split_and!.
  - intros info Hin Hb' Hk. rewrite nestBlocks_lookup, (Hnoblock _ Hk). by apply Htop.
  - intros k Hk Hnone. rewrite nestBlocks_lookup, Hnoblock.
    + apply Hrest. by apply Hfixed.
    + intros i Hi _. by apply Hnone.
  - intros i Hi Hne. destruct (Hcomplete i Hi Hne) as (m & Hm & _).
    exists m. rewrite nestBlocks_lookup, Hm. split; [done|].
    intros f x. split.
    + intros Hf. destruct (Hsound _ _ Hm) as (_ & _ & Hmem).
      destruct (Hmem f x Hf) as (j & Hj & Hjb & Hjf & ->). by exists j.
    + intros (j & Hj & Hjb & Hjf & ->).
      destruct (Hcomplete j Hj) as (m' & Hm' & Hf'); [congruence|].
      rewrite Hjb, Hm in Hm'. injection Hm' as <-. by rewrite Hjf in Hf'.
  - intros k Hk. rewrite nestBlocks_lookup.
    destruct (blocks !! k) as [m|]; [done|].
    destruct Hk as [->|[->|(info & Hin & <- & Hb')]].
    + rewrite Hrest; [done|]. apply Hfixed. by left.
    + rewrite Hrest; [done|]. apply Hfixed. by right.
    + by rewrite Htop.
Qed.

(** The object of a block, by cases: null when no member is set; known,
    holding the decoding of each member, when every decoded member has the
    type of its tag; unknown, with an error, otherwise. *)
Lemma blockValue_cases (merged : gmap string any) (members : list attrInfo) :
  NoDup (map tfField members) →
  let tys := (blockObject merged members).1.1 in
  (∀ i, i ∈ members →
        tys !! tfField i = Some (kaiakTypeToAttrType (schema.Type_ (attr i)))) ∧
  (∀ f, is_Some (tys !! f) → ∃ i, i ∈ members ∧ tfField i = f) ∧
  Value_Type (blockValue merged members) = ObjectType tys ∧
  if forallb (unset merged) members then
    blockValue merged members = ObjectNull tys ∧ blockDiags merged members = []
  else if forallb (wellTyped merged) members then
    ∃ vals, blockValue merged members = ObjectKnown tys vals ∧
            dom vals = dom tys ∧
            (∀ i, i ∈ members → vals !! tfField i = Some (decoded merged i)) ∧
            blockDiags merged members = []
  else
    blockValue merged members = ObjectUnknown tys ∧
    blockDiags merged members = [frameworkError "Invalid Object Attribute Type"].
Proof.
  intros Hndm. cbv zeta.
  destruct (blockObject_entries merged members) as (Hdom & Hent & Hhas).
  pose proof (fun i => blockObject_members merged members i Hndm) as Hmem.
  unfold blockValue, blockDiags.
  destruct (blockObject merged members) as [[tys vals] has]. cbn [fst snd] in *.
  split_and!.
  - intros i Hi. by apply Hmem.
  - intros f Hf. apply elem_of_dom in Hf. rewrite Hdom in Hf.
    apply elem_of_dom in Hf as [v Hv].
    destruct (Hent f v Hv) as (i & Hi & Hfi & _). by exists i.
  - destruct has; [|done]. unfold ObjectValue. by destruct (_ && _).
  - rewrite Hhas. destruct (forallb (unset merged) members); [done|]. cbn [negb].
    destruct (forallb (wellTyped merged) members) eqn:Hwt.
    + exists vals. rewrite ObjectValue_known; [| done |].
      { split_and!; [done|done| |done]. intros i Hi. by apply Hmem. }
      intros f v Hv. destruct (Hent f v Hv) as (i & Hi & Hfi & -> & Ht).
      exists (kaiakTypeToAttrType (schema.Type_ (attr i))). split; [done|].
      rewrite forallb_forall in Hwt. apply (Hwt i). by apply list_elem_of_In.
    + apply forallb_false_elem in Hwt as (i & Hi & Hwt).
      destruct (Hmem i Hi) as [Ht Hv].
      by rewrite (ObjectValue_unknown tys vals (tfField i) _ _ Hv Ht Hwt).
Qed.

Lemma AttrType_Equal_object (tys : gmap string AttrType) :
  (∀ f T, tys !! f = Some T → AttrType_Equal T T = true) →
  AttrType_Equal (ObjectType tys) (ObjectType tys) = true.
Proof.
  intros Hall. cbn [AttrType_Equal]. rewrite bool_decide_eq_true_2 by done.
  cbn [andb].
  apply (map_fold_andb (fun k t1 => match tys !! k with
                                    | Some t2 => AttrType_Equal t1 t2
                                    | None => false
                                    end)).
  intros f T Hf. cbn beta. rewrite Hf. by apply (Hall f).
Qed.

(** What the state of a translated resource type accepts: at the field of
    a top-level attribute that no block is named after, the values of the
    type of the attribute's tag; at a block name, the object of the block;
    at id and name, a string, unless a block has that name. *)
Lemma accepts_top (r : dynamicResource (Server := Server)) (info : attrInfo) (v : Value) :
  info ∈ builtInfos r → tfBlock info = EmptyString →
  (∀ i, i ∈ builtInfos r → tfBlock i ≠ EmptyString → tfBlock i ≠ tfField info) →
  accepts (resourceSchema r) (tfField info) v
  = AttrType_Equal (kaiakTypeToAttrType (schema.Type_ (attr info))) (Value_Type v).
Proof.
  intros Hin Hb Hk.
  destruct (resourceSchema_facts r (builtInfos_translated r info Hin)) as (Htop & _).
  unfold accepts. rewrite (Htop info Hin Hb Hk). by rewrite attrTypeOf_kaiakAttrToTF.
Qed.

Lemma accepts_block (r : dynamicResource (Server := Server)) (merged : gmap string any)
    (b : string) :
  b ≠ EmptyString → blockMembers (builtInfos r) b ≠ [] →
  accepts (resourceSchema r) b (blockValue merged (blockMembers (builtInfos r) b)) = true.
Proof.
  intros Hb Hne.
  destruct (blockMembers (builtInfos r) b) as [|i0 g0] eqn:Hg; [done|]. clear Hne.
  assert (Hi0 : i0 ∈ builtInfos r ∧ tfBlock i0 = b).
  { apply blockMembers_elem. rewrite Hg. by left. }
  destruct Hi0 as [Hi0 <-].
  destruct (resourceSchema_facts r (builtInfos_translated r i0 Hi0)) as (_ & _ & Hblock & _).
  destruct (Hblock i0 Hi0 Hb) as (m & Hm & Hmem).
  destruct (builtInfos_keys r) as [Hnd _].
  pose proof (blockMembers_NoDup (builtInfos r) (tfBlock i0) Hnd) as Hndm.
  rewrite <- Hg.
  destruct (blockValue_cases merged (blockMembers (builtInfos r) (tfBlock i0)) Hndm)
    as (Htys & Hkeys & Hty & _).
  unfold accepts. rewrite Hm, Hty.
  change (attrTypeOf (nestBlock m)) with (ObjectType (attrTypeOf <$> m)).
  set (tys := (blockObject merged (blockMembers (builtInfos r) (tfBlock i0))).1.1) in *.
  assert (Heq : attrTypeOf <$> m = tys).
  { apply map_eq. intros f. rewrite lookup_fmap.
    destruct (m !! f) as [x|] eqn:Hx.
    - apply Hmem in Hx as (j & Hj & Hjb & Hjf & ->). cbn [fmap option_fmap option_map].
      rewrite attrTypeOf_kaiakAttrToTF. subst f. symmetry. apply Htys.
      by apply blockMembers_elem.
    - cbn. destruct (tys !! f) as [T|] eqn:HT; [|done].
      destruct (Hkeys f (mk_is_Some _ _ HT)) as (j & Hj & Hjf).
      apply blockMembers_elem in Hj as [Hj Hjb].
      assert (m !! f = Some (kaiakAttrToTF (attr j))) as Hc
        by (apply Hmem; by exists j).
      congruence. }
  rewrite Heq. apply AttrType_Equal_object.
  intros f T HT. destruct (Hkeys f (mk_is_Some _ _ HT)) as (j & Hj & Hjf).
  rewrite <- Hjf, (Htys j Hj) in HT. injection HT as <-. apply AttrType_Equal_tag.
Qed.

Lemma accepts_fixed (r : dynamicResource (Server := Server)) (k s0 : string) :
  translated r = true → k = "name" ∨ k = "id" →
  accepts (resourceSchema r) k (StringValue s0)
  = match blockMembers (builtInfos r) k with [] => true | _ => false end.
Proof.
  intros Htr Hk.
  destruct (resourceSchema_facts r Htr) as (_ & Hfixed & Hblock & _).
  destruct (blockMembers (builtInfos r) k) as [|i g] eqn:Hg.
  - unfold accepts. rewrite (Hfixed k Hk).
    + by destruct Hk as [-> | ->].
    + intros i Hi Hib.
      assert (Hin : i ∈ blockMembers (builtInfos r) k) by (by apply blockMembers_elem).
      rewrite Hg in Hin. by apply elem_of_nil in Hin.
  - assert (Hi : i ∈ builtInfos r ∧ tfBlock i = k).
    { apply blockMembers_elem. rewrite Hg. by left. }
    destruct Hi as [Hi Hib].
    destruct (Hblock i Hi) as (m & Hm & _).
    { rewrite Hib. by destruct Hk as [-> | ->]. }
    unfold accepts. by rewrite <- Hib, Hm.
Qed.

Lemma blockMembers_nil (infos : list attrInfo) (k : string) :
  blockMembers infos k = [] ↔ ∀ i, i ∈ infos → tfBlock i ≠ k.
Proof.
  split.
  - intros Hnil i Hi Hib.
    assert (Hin : i ∈ blockMembers infos k) by (by apply blockMembers_elem).
    rewrite Hnil in Hin. by apply elem_of_nil in Hin.
  - intros Hall. destruct (blockMembers infos k) as [|i g] eqn:Hg; [done|].
    assert (Hi : i ∈ infos ∧ tfBlock i = k).
    { apply blockMembers_elem. rewrite Hg. by left. }
    destruct Hi as [Hi Hib]. by destruct (Hall i Hi).
Qed.


Lemma groupByBlock_no_block (infos : list attrInfo) (k : string) :
  (∀ i, i ∈ infos → tfBlock i ≠ EmptyString → tfBlock i ≠ k) →
  groupByBlock (fun info => String.eqb (tfBlock info) EmptyString) infos !! k = None.
Proof.
  intros Hk. destruct (decide (k = EmptyString)) as [->|Hne].
  - apply groupByBlock_no_top.
  - rewrite groupByBlock_blocks by done.
    destruct (blockMembers infos k) as [|i g] eqn:Hg; [done|].
    assert (Hi : i ∈ blockMembers infos k) by (rewrite Hg; by left).
    apply blockMembers_elem in Hi as [Hi Hb]. exfalso. apply (Hk i Hi); congruence.
Qed.

Lemma SetAttribute_diags_known (sch : gmap string tfschema.Attribute)
    (st : gmap string Value) (p : string) (v : Value) :
  is_Some (sch !! p) →
  (SetAttribute sch st p v).2
  = if accepts sch p v then [] else [attributeError "Value Conversion Error" p].
Proof.
  unfold accepts, SetAttribute. intros [a ->]. by destruct (AttrType_Equal _ _).
Qed.

Lemma top_not_id (r : dynamicResource (Server := Server)) (info : attrInfo) :
  info ∈ builtInfos r → tfBlock info = EmptyString →
  tfField info ≠ "id" ∧ tfField info ≠ "name".
Proof.
  intros Hin Hb. destruct (builtInfos_keys r) as [_ Hres].
  rewrite Forall_forall in Hres. specialize (Hres info Hin).
  unfold topReserved in Hres. rewrite Hb in Hres. cbn in Hres.
  split; intros Hf; by rewrite Hf in Hres.
Qed.

(** *** What [writeState] returns after a successful read *)

Lemma writeResult_top (r : dynamicResource (Server := Server)) (name : string)
    (tfState : gmap string Value) (ds : Diagnostics)
    (planned : option (gmap string any)) (ks : gmap string any) (info : attrInfo) :
  info ∈ builtInfos r → tfBlock info = EmptyString →
  (∀ i, i ∈ builtInfos r → tfBlock i ≠ EmptyString → tfBlock i ≠ tfField info) →
  (writeResult (resourceSchema r) (builtInfos r) name tfState ds planned (Ok ks)).1
    !! tfField info
  = if wellTyped (mergedOf (builtInfos r) ks planned) info
    then Some (decoded (mergedOf (builtInfos r) ks planned) info)
    else tfState !! tfField info.
Proof.
  intros Hin Hb Hk. unfold writeResult. cbv zeta.
  destruct (SetAttribute (resourceSchema r) tfState "id" (StringValue name))
    as [tf1 d1] eqn:Hid.
  unfold writeBlocks.
  destruct (writeBlocks_fold (resourceSchema r) (mergedOf (builtInfos r) ks planned)
              (writeTop (resourceSchema r) (builtInfos r)
                 (mergedOf (builtInfos r) ks planned) (tf1, Append ds d1))
              (groupByBlock (fun info => String.eqb (tfBlock info) EmptyString)
                 (builtInfos r))) as [Hlk _].
  rewrite Hlk, (groupByBlock_no_block _ _ Hk).
  destruct (builtInfos_keys r) as [Hnd _].
  rewrite writeTop_set by done. rewrite accepts_top by done.
  fold (wellTyped (mergedOf (builtInfos r) ks planned) info).
  destruct (wellTyped _ info); [done|]. cbn [fst].
  change tf1 with (tf1, d1).1. rewrite <- Hid, SetAttribute_lookup.
  rewrite decide_False; [done|]. by apply (top_not_id r).
Qed.

Lemma writeResult_block (r : dynamicResource (Server := Server)) (name : string)
    (tfState : gmap string Value) (ds : Diagnostics)
    (planned : option (gmap string any)) (ks : gmap string any) (b : string) :
  b ≠ EmptyString → blockMembers (builtInfos r) b ≠ [] →
  (writeResult (resourceSchema r) (builtInfos r) name tfState ds planned (Ok ks)).1 !! b
  = Some (blockValue (mergedOf (builtInfos r) ks planned) (blockMembers (builtInfos r) b)).
Proof.
  intros Hb Hne. unfold writeResult. cbv zeta.
  destruct (SetAttribute (resourceSchema r) tfState "id" (StringValue name)) as [tf1 d1].
  unfold writeBlocks.
  destruct (writeBlocks_fold (resourceSchema r) (mergedOf (builtInfos r) ks planned)
              (writeTop (resourceSchema r) (builtInfos r)
                 (mergedOf (builtInfos r) ks planned) (tf1, Append ds d1))
              (groupByBlock (fun info => String.eqb (tfBlock info) EmptyString)
                 (builtInfos r))) as [Hlk _].
  rewrite Hlk, groupByBlock_blocks by done.
  pose proof (accepts_block r (mergedOf (builtInfos r) ks planned) b Hb Hne) as Hacc.
  destruct (blockMembers (builtInfos r) b) as [|i g]; [done|]. by rewrite Hacc.
Qed.

Lemma writeResult_id (r : dynamicResource (Server := Server)) (name : string)
    (tfState : gmap string Value) (ds : Diagnostics)
    (planned : option (gmap string any)) (ks : gmap string any) :
  translated r = true → blockMembers (builtInfos r) "id" = [] →
  (writeResult (resourceSchema r) (builtInfos r) name tfState ds planned (Ok ks)).1 !! "id"
  = Some (StringValue name).
Proof.
  intros Htr Hnil. unfold writeResult. cbv zeta.
  destruct (SetAttribute (resourceSchema r) tfState "id" (StringValue name))
    as [tf1 d1] eqn:Hid.
  unfold writeBlocks.
  destruct (writeBlocks_fold (resourceSchema r) (mergedOf (builtInfos r) ks planned)
              (writeTop (resourceSchema r) (builtInfos r)
                 (mergedOf (builtInfos r) ks planned) (tf1, Append ds d1))
              (groupByBlock (fun info => String.eqb (tfBlock info) EmptyString)
                 (builtInfos r))) as [Hlk _].
  rewrite Hlk, groupByBlock_no_block.
  - rewrite writeTop_frame.
    + cbn [fst]. change tf1 with (tf1, d1).1. rewrite <- Hid, SetAttribute_lookup.
      rewrite decide_True by done.
      rewrite accepts_fixed by auto. by rewrite Hnil.
    + intros i Hi Hib. by apply (top_not_id r).
  - intros i Hi _. by apply (blockMembers_nil (builtInfos r) "id").
Qed.

Lemma writeResult_frame (r : dynamicResource (Server := Server)) (name : string)
    (tfState : gmap string Value) (ds : Diagnostics)
    (planned : option (gmap string any)) (ks : gmap string any) (k : string) :
  k ≠ "id" →
  (∀ i, i ∈ builtInfos r → tfBlock i ≠ k ∧ (tfBlock i = EmptyString → tfField i ≠ k)) →
  (writeResult (resourceSchema r) (builtInfos r) name tfState ds planned (Ok ks)).1 !! k
  = tfState !! k.
Proof.
  intros Hid Hk. unfold writeResult. cbv zeta.
  destruct (SetAttribute (resourceSchema r) tfState "id" (StringValue name))
    as [tf1 d1] eqn:Hset.
  unfold writeBlocks.
  destruct (writeBlocks_fold (resourceSchema r) (mergedOf (builtInfos r) ks planned)
              (writeTop (resourceSchema r) (builtInfos r)
                 (mergedOf (builtInfos r) ks planned) (tf1, Append ds d1))
              (groupByBlock (fun info => String.eqb (tfBlock info) EmptyString)
                 (builtInfos r))) as [Hlk _].
  rewrite Hlk, groupByBlock_no_block by (intros i Hi _; by apply Hk).
  rewrite writeTop_frame by (intros i Hi; by apply Hk).
  cbn [fst]. change tf1 with (tf1, d1).1. rewrite <- Hset, SetAttribute_lookup.
  by rewrite decide_False.
Qed.

(** The diagnostics after a successful read, for a translated resource
    type: the earlier ones; Value Conversion Error at id when a block is
    called id; Value Conversion Error at the field of a top-level attribute
    the state does not accept; and the error of a block object that could
    not be built. *)
Lemma writeResult_diags (r : dynamicResource (Server := Server)) (name : string)
    (tfState : gmap string Value) (ds : Diagnostics)
    (planned : option (gmap string any)) (ks : gmap string any) (d : Diagnostic) :
  translated r = true →
  let merged := mergedOf (builtInfos r) ks planned in
  d ∈ (writeResult (resourceSchema r) (builtInfos r) name tfState ds planned (Ok ks)).2 ↔
  d ∈ ds ∨
  (blockMembers (builtInfos r) "id" ≠ [] ∧ d = attributeError "Value Conversion Error" "id") ∨
  (∃ info, info ∈ builtInfos r ∧ tfBlock info = EmptyString ∧
           accepts (resourceSchema r) (tfField info) (decoded merged info) = false ∧
           d = attributeError "Value Conversion Error" (tfField info)) ∨
  (∃ b, b ≠ EmptyString ∧ blockMembers (builtInfos r) b ≠ [] ∧
        d ∈ blockDiags merged (blockMembers (builtInfos r) b)).
Proof.
  intros Htr merged. unfold writeResult. cbv zeta. fold merged.
  destruct (resourceSchema_facts r Htr) as (_ & _ & _ & Hsome).
  destruct (SetAttribute (resourceSchema r) tfState "id" (StringValue name))
    as [tf1 d1] eqn:Hset.
  assert (Hd1 : d1 = if accepts (resourceSchema r) "id" (StringValue name) then []
                     else [attributeError "Value Conversion Error" "id"]).
  { change d1 with (tf1, d1).2. rewrite <- Hset. apply SetAttribute_diags_known.
    apply Hsome. auto. }
  rewrite accepts_fixed in Hd1 by auto.
  unfold writeBlocks.
  destruct (writeBlocks_fold (resourceSchema r) merged
              (writeTop (resourceSchema r) (builtInfos r) merged (tf1, Append ds d1))
              (groupByBlock (fun info => String.eqb (tfBlock info) EmptyString)
                 (builtInfos r))) as [_ Hds].
  rewrite Hds, writeTop_diags. cbn [snd]. rewrite elem_of_Append.
  assert (Hgroup : ∀ b g,
            groupByBlock (fun info => String.eqb (tfBlock info) EmptyString) (builtInfos r)
              !! b = Some g ↔
            b ≠ EmptyString ∧ blockMembers (builtInfos r) b ≠ [] ∧
            g = blockMembers (builtInfos r) b).
  { intros b g. destruct (decide (b = EmptyString)) as [->|Hb].
    - rewrite groupByBlock_no_top. split; [done|]. by intros [? _].
    - rewrite groupByBlock_blocks by done.
      destruct (blockMembers (builtInfos r) b) as [|i l].
      + split; [done|]. by intros (_ & ? & _).
      + split; [by intros [= <-]|]. by intros (_ & _ & ->). }
  split.
  - intros [[[H|H]|(i & Hi & Hib & Hd)]|(b & g & Hg & [Hd|Hd])].
    + by left.
    + right. left. rewrite Hd1 in H.
      destruct (blockMembers (builtInfos r) "id"); [by apply elem_of_nil in H|].
      split; [done|]. by apply list_elem_of_singleton in H.
    + right. right. left. exists i.
      rewrite SetAttribute_diags_known in Hd by (apply Hsome; right; right; by exists i).
      destruct (accepts (resourceSchema r) (tfField i) (decoded merged i));
        [by apply elem_of_nil in Hd|].
      split_and!; try done. by apply list_elem_of_singleton in Hd.
    + right. right. right. apply Hgroup in Hg as (Hb & Hne & ->). by exists b.
    + apply Hgroup in Hg as (Hb & Hne & ->).
      apply SetAttribute_diag_elem in Hd as [Hacc _].
      by rewrite accepts_block in Hacc.
  - intros [H|[[Hne ->]|[(i & Hi & Hib & Hacc & ->)|(b & Hb & Hne & Hd)]]].
    + by left; left; left.
    + left. left. right. rewrite Hd1.
      destruct (blockMembers (builtInfos r) "id"); [done|]. by apply list_elem_of_singleton.
    + left. right. exists i. split_and!; try done.
      rewrite SetAttribute_diags_known by (apply Hsome; right; right; by exists i).
      rewrite Hacc. by apply list_elem_of_singleton.
    + right. exists b, (blockMembers (builtInfos r) b). split; [by apply Hgroup|by left].
Qed.




Lemma writeResult_top_cases (r : dynamicResource (Server := Server)) (name : string)
    (tfState : gmap string Value) (ds : Diagnostics)
    (planned : option (gmap string any)) (ks : gmap string any) (info : attrInfo) :
  let merged := mergedOf (builtInfos r) ks planned in
  let written :=
    writeResult (resourceSchema r) (builtInfos r) name tfState ds planned (Ok ks) in
  info ∈ builtInfos r → tfBlock info = EmptyString →
  (∀ i, i ∈ builtInfos r → tfBlock i ≠ EmptyString → tfBlock i ≠ tfField info) →
  if wellTyped merged info
  then written.1 !! tfField info = Some (decoded merged info)
  else written.1 !! tfField info = tfState !! tfField info ∧
       attributeError "Value Conversion Error" (tfField info) ∈ written.2.
Proof.
  intros merged written Hin Hb Hk. unfold written.
  rewrite writeResult_top by done. fold merged.
  destruct (wellTyped merged info) eqn:Hwt; [done|]. split; [done|].
  apply writeResult_diags; [by eapply builtInfos_translated|].
  right. right. left. exists info. split_and!; try done.
  by rewrite accepts_top.
Qed.

Lemma blockDiags_elem (merged : gmap string any) (g : list attrInfo) (d : Diagnostic) :
  d ∈ blockDiags merged g → d = frameworkError "Invalid Object Attribute Type".
Proof.
  intros Hd. unfold blockDiags in Hd.
  destruct (blockObject merged g) as [[tys vals] has].
  destruct has; [|by apply elem_of_nil in Hd].
  unfold ObjectValue in Hd.
  destruct (_ && _); [by apply elem_of_nil in Hd|].
  by apply list_elem_of_singleton in Hd.
Qed.

Lemma writeResult_block_cases (r : dynamicResource (Server := Server)) (name : string)
    (tfState : gmap string Value) (ds : Diagnostics)
    (planned : option (gmap string any)) (ks : gmap string any) (b : string) :
  let infos := builtInfos r in
  let merged := mergedOf infos ks planned in
  let written := writeResult (resourceSchema r) infos name tfState ds planned (Ok ks) in
  let members := blockMembers infos b in
  b ≠ EmptyString → members ≠ [] →
  ∃ tys,
    (∀ i, i ∈ members →
          tys !! tfField i = Some (kaiakTypeToAttrType (schema.Type_ (attr i)))) ∧
    (∀ f, is_Some (tys !! f) → ∃ i, i ∈ members ∧ tfField i = f) ∧
    if forallb (unset merged) members then
      written.1 !! b = Some (ObjectNull tys)
    else if forallb (wellTyped merged) members then
      ∃ vals, written.1 !! b = Some (ObjectKnown tys vals) ∧
              dom vals = dom tys ∧
              ∀ i, i ∈ members → vals !! tfField i = Some (decoded merged i)
    else
      written.1 !! b = Some (ObjectUnknown tys) ∧ HasError written.2 = true.
Proof.
  intros infos merged written members Hb Hne.
  assert (Htr : translated r = true).
  { destruct members as [|i g] eqn:Hg; [done|].
    assert (Hi : i ∈ blockMembers infos b) by (fold members; rewrite Hg; by left).
    apply blockMembers_elem in Hi as [Hi _]. by eapply builtInfos_translated. }
  destruct (builtInfos_keys r) as [Hnd _]. fold infos in Hnd.
  pose proof (blockMembers_NoDup infos b Hnd) as Hndm. fold members in Hndm.
  destruct (blockValue_cases merged members Hndm) as (Htys & Hkeys & _ & Hcases).
  exists (blockObject merged members).1.1. split_and!; [done|done|].
  unfold written, infos. rewrite writeResult_block by done.
  fold infos. fold merged. fold members.
  destruct (forallb (unset merged) members).
  { by destruct Hcases as [-> _]. }
  destruct (forallb (wellTyped merged) members).
  { destruct Hcases as (vals & -> & Hdom & Hvals & _). by exists vals. }
  destruct Hcases as [-> Hbd]. split; [done|].
  apply HasError_true. exists (frameworkError "Invalid Object Attribute Type").
  split; [|done].
  apply (writeResult_diags r name tfState ds planned ks _ Htr).
  right. right. right. exists b. split_and!; try done.
  fold infos. fold merged. fold members. rewrite Hbd. by apply list_elem_of_singleton.
Qed.

(** Reconciliation, top level.  After a successful read, take a top-level
    attribute that no block is named after.  When the decoding of its
    merged value has the terraform type of the attribute's tag, the state
    holds that decoding under the attribute's field (the typed null when
    there is no merged value).  When it has not, the state refuses the
    write: the field is as it was and Value Conversion Error is reported
    at the field.  id is the instance name unless a block is called id,
    and a key that is neither id, nor the field of a top-level attribute,
    nor a block name, is as it was. *)
Theorem writeState_top_level (r : dynamicResource (Server := Server)) (name : string)
    (tfState : gmap string Value) (ds : Diagnostics)
    (planned : option (gmap string any)) (ks : gmap string any) :
  let infos := builtInfos r in
  let merged := mergedOf infos ks planned in
  let written := writeResult (resourceSchema r) infos name tfState ds planned (Ok ks) in
  (∀ info, info ∈ infos → tfBlock info = EmptyString →
           (∀ i, i ∈ infos → tfBlock i ≠ EmptyString → tfBlock i ≠ tfField info) →
           if wellTyped merged info
           then written.1 !! tfField info = Some (decoded merged info)
           else written.1 !! tfField info = tfState !! tfField info ∧
                attributeError "Value Conversion Error" (tfField info) ∈ written.2) ∧
  (translated r = true → (∀ i, i ∈ infos → tfBlock i ≠ "id") →
   written.1 !! "id" = Some (StringValue name)) ∧
  (∀ k, k ≠ "id" →
        (∀ i, i ∈ infos → tfBlock i ≠ k ∧ (tfBlock i = EmptyString → tfField i ≠ k)) →
        written.1 !! k = tfState !! k).
Proof.
  intros infos merged written. split_and!.
  - intros info Hin Hb Hk. by apply writeResult_top_cases.
  - intros Htr Hid. apply writeResult_id; [done|]. by apply blockMembers_nil.
  - intros k Hid Hk. by apply writeResult_frame.
Qed.

(** Reconciliation, blocks.  After a successful read, a block of the table
    is stored as one object whose attribute types are those of the tags of
    its members; the state always accepts it.  The object is null when the
    merged state has no value, or nil, for every member.  Otherwise, when
    every decoded member has the type of its tag, it is a known object
    that holds the decoding of each member (a typed null for a member that
    is not set); and when some member does not, it is an unknown object
    and an error is reported.  The diagnostics reconciliation adds after a
    successful read are that error and Value Conversion Error, at the path
    of the write the state refused. *)
Theorem writeState_block (r : dynamicResource (Server := Server)) (name : string)
    (tfState : gmap string Value) (ds : Diagnostics)
    (planned : option (gmap string any)) (ks : gmap string any) (b : string) :
  let infos := builtInfos r in
  let merged := mergedOf infos ks planned in
  let written := writeResult (resourceSchema r) infos name tfState ds planned (Ok ks) in
  let members := blockMembers infos b in
  b ≠ EmptyString → members ≠ [] →
  (∀ d, d ∈ written.2 →
        d ∈ ds ∨ d = frameworkError "Invalid Object Attribute Type" ∨
        ∃ p, d = attributeError "Value Conversion Error" p) ∧
  ∃ tys,
    (∀ i, i ∈ members →
          tys !! tfField i = Some (kaiakTypeToAttrType (schema.Type_ (attr i)))) ∧
    (∀ f, is_Some (tys !! f) → ∃ i, i ∈ members ∧ tfField i = f) ∧
    if forallb (unset merged) members then
      written.1 !! b = Some (ObjectNull tys)
    else if forallb (wellTyped merged) members then
      ∃ vals, written.1 !! b = Some (ObjectKnown tys vals) ∧
              dom vals = dom tys ∧
              ∀ i, i ∈ members → vals !! tfField i = Some (decoded merged i)
    else
      written.1 !! b = Some (ObjectUnknown tys) ∧ HasError written.2 = true.
Proof.
  intros infos merged written members Hb Hne. split.
  - assert (Htr : translated r = true).
    { destruct members as [|i g] eqn:Hg; [done|].
      assert (Hi : i ∈ blockMembers infos b) by (fold members; rewrite Hg; by left).
      apply blockMembers_elem in Hi as [Hi _]. by eapply builtInfos_translated. }
    intros d Hd. apply (writeResult_diags r name tfState ds planned ks d Htr) in Hd.
    destruct Hd as [Hd|[[_ ->]|[(i & _ & _ & _ & ->)|(b' & _ & _ & Hd)]]]; eauto.
    right. left. by eapply blockDiags_elem.
  - by apply writeResult_block_cases.
Qed.


(** *** What extraction stores *)

Lemma extractSingleAttr_other (src : gmap string Value) (p : string) (info : attrInfo)
    (state : gmap string any) (diags : Diagnostics) (k : string) :
  kaiakName info ≠ k →
  (extractSingleAttr src p info state diags).1 !! k = state !! k.
Proof.
  intros Hne. unfold extractSingleAttr.
  destruct (GetAttribute src p _) as [target d].
  destruct (isKnown target) as [v|]; [|done].
  destruct (goValueOf _ v) as [g|]; [|done].
  simpl. by rewrite lookup_insert_ne.
Qed.

Lemma extractTop_other (l : list attrInfo) (src : gmap string Value)
    (st : gmap string any * Diagnostics) (k : string) :
  (∀ i, i ∈ l → tfBlock i = EmptyString → kaiakName i ≠ k) →
  (extractTop l src st).1 !! k = st.1 !! k.
Proof.
  intros Hk. unfold extractTop.
  apply (fold_left_invariant
           (fun acc : gmap string any * Diagnostics => acc.1 !! k = st.1 !! k)); [done|].
  intros [state ds] info Hin IH.
  destruct (schema.ReadOnly (attr info)); [done|]. simpl.
  destruct (String.eqb_spec (tfBlock info) EmptyString) as [Hb|Hb]; [|done]. simpl.
  rewrite extractSingleAttr_other; [done|]. by apply Hk.
Qed.

Lemma extractTop_app (l1 l2 : list attrInfo) (src : gmap string Value)
    (st : gmap string any * Diagnostics) :
  extractTop (l1 ++ l2) src st = extractTop l2 src (extractTop l1 src st).
Proof. unfold extractTop. by rewrite fold_left_app. Qed.

Lemma extractTop_set (l : list attrInfo) (src : gmap string Value)
    (st : gmap string any * Diagnostics) (info : attrInfo) (v : Value) (g : any) :
  NoDup (map kaiakName l) → info ∈ l →
  schema.ReadOnly (attr info) = false → tfBlock info = EmptyString →
  src !! tfField info = Some v → kindOf v = kindFor (schema.Type_ (attr info)) →
  IsNull v = false → IsUnknown v = false →
  goValueOf (schema.Type_ (attr info)) v = Some g →
  (extractTop l src st).1 !! kaiakName info = Some g.
Proof.
  intros Hnd Hin Hro Hb Hv Hkind Hnull Hunk Hgo.
  apply list_elem_of_split in Hin as (l1 & l2 & ->).
  rewrite extractTop_app. change (info :: l2) with ([info] ++ l2). rewrite extractTop_app.
  rewrite extractTop_other.
  - destruct (extractTop l1 src st) as [state ds]. unfold extractTop. simpl.
    rewrite Hro, Hb. simpl. unfold extractSingleAttr, GetAttribute.
    rewrite Hv, decide_True by done. simpl. rewrite Hnull, Hunk. simpl.
    rewrite Hgo. simpl. by rewrite lookup_insert_eq.
  - intros i Hi _ Hname.
    rewrite map_app in Hnd. apply NoDup_app in Hnd as (_ & _ & Hnd).
    simpl in Hnd. apply NoDup_cons in Hnd as [Hnot _]. apply Hnot.
    apply list_elem_of_fmap. by exists i.
Qed.

Lemma extractBlockAttr_other (info : attrInfo) (v : Value) (state : gmap string any)
    (k : string) :
  kaiakName info ≠ k → extractBlockAttr info v state !! k = state !! k.
Proof.
  intros Hne. unfold extractBlockAttr. case_decide; [|done].
  destruct (isKnown (Some v)) as [v'|]; [|done].
  destruct (goValueOf _ v') as [g|]; [|done]. by rewrite lookup_insert_ne.
Qed.

Lemma extractBlock_other (src : gmap string Value) (b : string) (group : list attrInfo)
    (st : gmap string any * Diagnostics) (k : string) :
  (∀ i, i ∈ group → kaiakName i ≠ k) →
  (extractBlock src b group st).1 !! k = st.1 !! k.
Proof.
  intros Hk. destruct st as [state ds]. unfold extractBlock.
  destruct (GetAttribute src b KObject) as [target d].
  destruct (isKnown target) as [block|]; [|done]. simpl.
  apply (fold_left_invariant (fun acc : gmap string any => acc !! k = state !! k)); [done|].
  intros acc info Hin IH.
  destruct (ObjectAttributes block !! tfField info) as [v|]; [|done].
  rewrite extractBlockAttr_other; [done|]. by apply Hk.
Qed.

Lemma extractBlock_set (src : gmap string Value) (group : list attrInfo)
    (st : gmap string any * Diagnostics) (info : attrInfo)
    (tys : gmap string AttrType) (attrs : gmap string Value) (v : Value) (g : any) :
  NoDup (map kaiakName group) → info ∈ group →
  src !! tfBlock info = Some (ObjectKnown tys attrs) →
  attrs !! tfField info = Some v → kindOf v = kindFor (schema.Type_ (attr info)) →
  IsNull v = false → IsUnknown v = false →
  goValueOf (schema.Type_ (attr info)) v = Some g →
  (extractBlock src (tfBlock info) group st).1 !! kaiakName info = Some g.
Proof.
  intros Hnd Hin Hsrc Hv Hkind Hnull Hunk Hgo.
  destruct st as [state ds]. unfold extractBlock, GetAttribute.
  rewrite Hsrc, decide_True by done. simpl.
  apply list_elem_of_split in Hin as (l1 & l2 & ->).
  rewrite fold_left_app. simpl. rewrite Hv.
  set (f := fun (state0 : gmap string any) (info0 : attrInfo) =>
              match attrs !! tfField info0 with
              | Some v0 => extractBlockAttr info0 v0 state0
              | None => state0
              end).
  set (s1 := fold_left f l1 state).
  assert (Hs : extractBlockAttr info v s1 !! kaiakName info = Some g).
  { unfold extractBlockAttr. rewrite decide_True by done. simpl.
    rewrite Hnull, Hunk. simpl. rewrite Hgo. by rewrite lookup_insert_eq. }
  rewrite <- Hs.
  apply (fold_left_invariant
           (fun acc : gmap string any =>
              acc !! kaiakName info = extractBlockAttr info v s1 !! kaiakName info));
    [done|].
  intros acc i Hi IH. unfold f.
  destruct (attrs !! tfField i) as [vi|]; [|done].
  rewrite extractBlockAttr_other; [done|]. intros Hname.
  rewrite map_app in Hnd. apply NoDup_app in Hnd as (_ & _ & Hnd).
  simpl in Hnd. apply NoDup_cons in Hnd as [Hnot _]. apply Hnot.
  apply list_elem_of_fmap. by exists i.
Qed.

Lemma NoDup_names_filter (f : attrInfo → bool) (l : list attrInfo) :
  NoDup (map kaiakName l) → NoDup (map kaiakName (List.filter f l)).
Proof.
  induction l as [|x l IH]; [constructor|].
  simpl. intros Hnd. apply NoDup_cons in Hnd as [Hnot Hnd].
  destruct (f x); [|by apply IH].
  simpl. apply NoDup_cons. split; [|by apply IH].
  intros Hin. apply list_elem_of_fmap in Hin as (i & Hn & Hi).
  apply list_elem_of_In, List.filter_In in Hi as [Hi _].
  apply Hnot. apply list_elem_of_fmap. exists i. split; [done|by apply list_elem_of_In].
Qed.

Lemma extractBlocks_other (infos : list attrInfo) (src : gmap string Value)
    (st : gmap string any * Diagnostics) (k : string) :
  (∀ i, i ∈ infos → tfBlock i ≠ EmptyString → kaiakName i ≠ k) →
  (extractBlocks infos src st).1 !! k = st.1 !! k.
Proof.
  intros Hk. unfold extractBlocks.
  set (skip := fun info => schema.ReadOnly (attr info) || String.eqb (tfBlock info) EmptyString).
  pose proof (groupByBlock_members skip infos) as Hgroups. revert Hgroups.
  apply (map_fold_weak_ind
           (fun (r : gmap string any * Diagnostics) (m : gmap string (list attrInfo)) =>
              (∀ b g, m !! b = Some g →
                      ∀ i, i ∈ g → i ∈ infos ∧ skip i = false ∧ tfBlock i = b) →
              r.1 !! k = st.1 !! k)); [done|].
  intros b group m r Hfresh IH Hall.
  rewrite extractBlock_other.
  - apply IH. intros b' g' Hb'. apply (Hall b' g').
    rewrite lookup_insert_ne; [done|]. intros ->. by rewrite Hfresh in Hb'.
  - intros i Hi. destruct (Hall b group (lookup_insert_eq _ _ _) i Hi) as (Hin & Hs & _).
    apply Hk; [done|]. unfold skip in Hs. apply orb_false_elim in Hs as [_ Hs].
    by apply String.eqb_neq.
Qed.

Lemma extractBlocks_set (infos : list attrInfo) (src : gmap string Value)
    (st : gmap string any * Diagnostics) (info : attrInfo)
    (tys : gmap string AttrType) (attrs : gmap string Value) (v : Value) (g : any) :
  NoDup (map kaiakName infos) → info ∈ infos →
  schema.ReadOnly (attr info) = false → tfBlock info ≠ EmptyString →
  src !! tfBlock info = Some (ObjectKnown tys attrs) →
  attrs !! tfField info = Some v → kindOf v = kindFor (schema.Type_ (attr info)) →
  IsNull v = false → IsUnknown v = false →
  goValueOf (schema.Type_ (attr info)) v = Some g →
  (extractBlocks infos src st).1 !! kaiakName info = Some g.
Proof.
  intros Hnd Hin Hro Hb Hsrc Hv Hkind Hnull Hunk Hgo. unfold extractBlocks.
  set (skip := fun info => schema.ReadOnly (attr info) || String.eqb (tfBlock info) EmptyString).
  set (groups := groupByBlock skip infos).
  assert (Hskip : skip info = false).
  { unfold skip. rewrite Hro. simpl. by apply String.eqb_neq. }
  assert (Hmine : is_Some (groups !! tfBlock info)).
  { unfold groups. rewrite groupByBlock_lookup.
    destruct (List.filter _ infos) as [|x l] eqn:Hf; [|done].
    assert (Hi : List.In info []); [|done].
    rewrite <- Hf. apply List.filter_In. split; [by apply list_elem_of_In|].
    by rewrite Hskip, String.eqb_refl. }
  assert (Hsub : ∀ b g', groups !! b = Some g' → groups !! b = Some g') by done.
  revert Hmine Hsub. generalize groups at 1 2 4.
  intros m. revert m.
  apply (map_fold_weak_ind
           (fun (r : gmap string any * Diagnostics) (m : gmap string (list attrInfo)) =>
              is_Some (m !! tfBlock info) →
              (∀ b g', m !! b = Some g' → groups !! b = Some g') →
              r.1 !! kaiakName info = Some g)).
  { intros [? H]. by rewrite lookup_empty in H. }
  intros b group m r Hfresh IH Hsome Hsub.
  assert (Hgroup : groups !! b = Some group) by (apply Hsub; by rewrite lookup_insert_eq).
  destruct (decide (b = tfBlock info)) as [->|Hne].
  - apply (extractBlock_set src group r info tys attrs v g); try done.
    + unfold groups in Hgroup. rewrite groupByBlock_lookup in Hgroup.
      destruct (List.filter _ infos) as [|x l] eqn:Hf; [done|].
      injection Hgroup as <-. rewrite <- Hf. by apply NoDup_names_filter.
    + unfold groups in Hgroup. rewrite groupByBlock_lookup in Hgroup.
      destruct (List.filter _ infos) as [|x l] eqn:Hf; [done|].
      injection Hgroup as <-. rewrite <- Hf.
      apply list_elem_of_In, List.filter_In. split; [by apply list_elem_of_In|].
      by rewrite Hskip, String.eqb_refl.
  - rewrite extractBlock_other.
    + apply IH.
      * by rewrite lookup_insert_ne in Hsome.
      * intros b' g' Hb'. apply Hsub. rewrite lookup_insert_ne; [done|].
        intros ->. by rewrite Hfresh in Hb'.
    + intros i Hi Hname.
      destruct (groupByBlock_members skip infos b group Hgroup i Hi) as (Hi' & _ & Hbi).
      assert (i = info) by (eapply NoDup_names_eq; eauto). congruence.
Qed.

(** Extraction is complete: a writable attribute of the table whose
    planned value is known and of the kind its tag asks for is stored
    under its kaiak name, as the Go value of that tag; for a block member
    the value is that of the known block object. *)
Theorem extractAttrs_stores_known_writable (w : World) (plan : gmap string Value)
    (diags : Diagnostics) :
  cacheOK (self w) →
  let state := (extractAttrs plan diags w).1.1 in
  ∀ info v g,
    info ∈ builtInfos (self w) → schema.ReadOnly (attr info) = false →
    kindOf v = kindFor (schema.Type_ (attr info)) →
    IsNull v = false → IsUnknown v = false →
    goValueOf (schema.Type_ (attr info)) v = Some g →
    (tfBlock info = EmptyString → plan !! tfField info = Some v →
     state !! kaiakName info = Some g) ∧
    (tfBlock info ≠ EmptyString →
     ∀ tys attrs, plan !! tfBlock info = Some (ObjectKnown tys attrs) →
                  attrs !! tfField info = Some v →
                  state !! kaiakName info = Some g).
Proof.
  intros Hc state info v g Hin Hro Hkind Hnull Hunk Hgo. subst state.
  destruct (extractAttrs_run plan diags w Hc) as (w' & -> & _). simpl.
  pose proof (builtInfos_NoDup (self w)) as Hnd.
  split.
  - intros Hb Hv. rewrite extractBlocks_other.
    + by eapply extractTop_set.
    + intros i Hi Hbi Hname.
      assert (i = info) by (eapply NoDup_names_eq; eauto). congruence.
  - intros Hb tys attrs Hsrc Hv. by eapply extractBlocks_set.
Qed.

(** *** Labels and names *)

Lemma hexDigit_byte (c : ascii) :
  isLowerHex (hexDigit (N_of_ascii c / 16)) = true ∧
  isLowerHex (hexDigit (N_of_ascii c mod 16)) = true ∧
  Ascii.eqb (hexDigit (N_of_ascii c / 16)) dot = false ∧
  Ascii.eqb (hexDigit (N_of_ascii c mod 16)) dot = false.
Proof. destruct c as [[] [] [] [] [] [] [] []]; vm_compute; done. Qed.

Lemma hex_EncodeToString_chars (b : list ascii) :
  String.length (hex_EncodeToString b) = 2 * length b ∧
  string_forall isLowerHex (hex_EncodeToString b) = true ∧
  gostrings.Index (hex_EncodeToString b) dot = None.
Proof.
  induction b as [|c b (IHl & IHf & IHi)]; [done|].
  destruct (hexDigit_byte c) as (H1 & H2 & H3 & H4).
  cbn [hex_EncodeToString fold_right String.length string_forall gostrings.Index length].
  fold (hex_EncodeToString b).
  rewrite H1, H2, H3, H4, IHf, IHi, IHl. split_and!; [lia|done|done].
Qed.

(** The label [generateLabel] returns is tf_ followed by eight lowercase
    hexadecimal digits, so it is not empty and has no dot; the call uses
    four random bytes and changes nothing else. *)
Theorem generateLabel_format (w : World) :
  (generateLabel w).2 = labelWorld w ∧
  ∃ h, (generateLabel w).1 = "tf_" +:+ h ∧
       String.length h = 8 ∧
       string_forall isLowerHex h = true ∧
       gostrings.Index ((generateLabel w).1) dot = None.
Proof.
  rewrite generateLabel_run. split; [done|].
  set (b := take 4 (random w ++ replicate 4 Ascii.zero)).
  assert (Hb : length b = 4).
  { unfold b. rewrite length_take, length_app, length_replicate. lia. }
  destruct (hex_EncodeToString_chars b) as (Hl & Hf & Hi).
  exists (hex_EncodeToString b). split_and!; [done|lia|done|].
  cbn [fst]. change ("tf_" +:+ hex_EncodeToString b)
    with (String "t" (String "f" (String "_" (hex_EncodeToString b)))).
  cbn [gostrings.Index]. rewrite Hi. reflexivity.
Qed.

Lemma ImportState_matching (r : dynamicResource (Server := Server)) (t l : string)
    (resp : Response) :
  gostrings.Index t dot = None → t ≠ EmptyString → l ≠ EmptyString →
  t = schema.MetaName (meta r) →
  let ID := t +:+ "." +:+ l in
  let first := SetAttribute (resourceSchema r) (State resp) "id" (StringValue ID) in
  let second := SetAttribute (resourceSchema r) first.1 "name" (StringValue l) in
  ImportState r ID resp =
    {| State := second.1;
       Diagnostics_of := Append (Append (Diagnostics_of resp) first.2) second.2 |}.
Proof.
  intros Hidx Ht Hl Hname. cbv zeta.
  rewrite (ImportState_split r _ t l resp) by (by apply Index_app_None).
  destruct (String.eqb_spec t EmptyString) as [|_]; [done|].
  destruct (String.eqb_spec l EmptyString) as [|_]; [done|].
  subst t. by rewrite String.eqb_refl.
Qed.

(** What an import with a well-formed ID of the receiver's type leaves:
    id and name are written when the state accepts a string there, which
    it does unless a block has that name; nothing else is written, and
    every diagnostic added is an error. *)
Lemma ImportState_matching_state (r : dynamicResource (Server := Server)) (t l : string)
    (resp : Response) :
  gostrings.Index t dot = None → t ≠ EmptyString → l ≠ EmptyString →
  t = schema.MetaName (meta r) →
  let ID := t +:+ "." +:+ l in
  let imported := ImportState r ID resp in
  let sch := resourceSchema r in
  (∀ k, k ≠ "id" → k ≠ "name" → State imported !! k = State resp !! k) ∧
  State imported !! "id"
  = (if accepts sch "id" (StringValue ID) then Some (StringValue ID)
     else State resp !! "id") ∧
  State imported !! "name"
  = (if accepts sch "name" (StringValue l) then Some (StringValue l)
     else State resp !! "name") ∧
  (accepts sch "id" (StringValue ID) = true → accepts sch "name" (StringValue l) = true →
   imported =
     {| State := <["name" := StringValue l]> (<["id" := StringValue ID]> (State resp));
        Diagnostics_of := Diagnostics_of resp |}) ∧
  (accepts sch "id" (StringValue ID) = false ∨ accepts sch "name" (StringValue l) = false →
   HasError (Diagnostics_of imported) = true) ∧
  (∀ p v, (p = "id" ∧ v = StringValue ID) ∨ (p = "name" ∧ v = StringValue l) →
          accepts sch p v = false → is_Some (sch !! p) →
          attributeError "Value Conversion Error" p ∈ Diagnostics_of imported).
Proof.
  intros Hidx Ht Hl Hname. cbv zeta.
  rewrite (ImportState_matching r t l resp Hidx Ht Hl Hname). cbn [State Diagnostics_of].
  set (ID := t +:+ "." +:+ l). set (sch := resourceSchema r).
  split_and!.
  - intros k Hid Hn. rewrite !SetAttribute_lookup. by rewrite !decide_False.
  - rewrite !SetAttribute_lookup. rewrite decide_False by done. by rewrite decide_True.
  - rewrite !SetAttribute_lookup. rewrite decide_True by done.
    destruct (accepts sch "name" (StringValue l)); [done|]. by rewrite decide_False.
  - intros Hi Hn. rewrite (SetAttribute_accepted _ _ _ _ Hi). cbn [fst snd].
    by rewrite (SetAttribute_accepted _ _ _ _ Hn).
  - intros [Hi|Hn].
    + destruct (SetAttribute_refused_error sch (State resp) "id" (StringValue ID) Hi)
        as (d & Hd & He & _).
      apply HasError_true. exists d. split; [|done].
      apply elem_of_Append. left. apply elem_of_Append. by right.
    + destruct (SetAttribute_refused_error sch
                  (SetAttribute sch (State resp) "id" (StringValue ID)).1
                  "name" (StringValue l) Hn) as (d & Hd & He & _).
      apply HasError_true. exists d. split; [|done].
      apply elem_of_Append. by right.
  - intros p v [[-> ->]|[-> ->]] Hacc Hsome.
    + apply elem_of_Append. left. apply elem_of_Append. right.
      rewrite SetAttribute_diags_known, Hacc by done. by apply list_elem_of_singleton.
    + apply elem_of_Append. right.
      rewrite SetAttribute_diags_known, Hacc by done. by apply list_elem_of_singleton.
Qed.

(** Import after create.  For a resource type that translates, has no
    block called id or name, and whose name is not empty and has no dot,
    ImportState accepts the name fullName builds from any non-empty label,
    stores it as id and recovers the label as name, adding no diagnostic.
    For a resource type whose name is empty or has a dot, ImportState
    rejects every ID and leaves the state as it was. *)
Theorem ImportState_of_fullName (r : dynamicResource (Server := Server))
    (label : string) (resp : Response) :
  (translated r = true →
   (∀ i, i ∈ builtInfos r → tfBlock i ≠ "id" ∧ tfBlock i ≠ "name") →
   schema.MetaName (meta r) ≠ EmptyString →
   gostrings.Index (schema.MetaName (meta r)) dot = None →
   label ≠ EmptyString →
   ImportState r (fullName r label) resp =
     {| State := <["name" := StringValue label]>
                   (<["id" := StringValue (fullName r label)]> (State resp));
        Diagnostics_of := Diagnostics_of resp |}) ∧
  (schema.MetaName (meta r) = EmptyString ∨
   gostrings.Index (schema.MetaName (meta r)) dot ≠ None →
   ∀ ID, State (ImportState r ID resp) = State resp ∧
         HasError (Diagnostics_of (ImportState r ID resp)) = true).
Proof.
  split.
  - intros Htr Hfree Hne Hidx Hl. unfold fullName.
    destruct (ImportState_matching_state r (schema.MetaName (meta r)) label resp
                Hidx Hne Hl eq_refl) as (_ & _ & _ & Hok & _).
    apply Hok.
    + rewrite accepts_fixed by auto.
      rewrite (proj2 (blockMembers_nil (builtInfos r) "id")); [done|].
      intros i Hi. by apply Hfree.
    + rewrite accepts_fixed by auto.
      rewrite (proj2 (blockMembers_nil (builtInfos r) "name")); [done|].
      intros i Hi. by apply Hfree.
  - intros Hname ID. destruct (gostrings.Cut ID dot) as [[t l]|] eqn:Hcut.
    + rewrite (ImportState_split r ID t l resp Hcut).
      destruct (String.eqb t EmptyString || String.eqb l EmptyString) eqn:He.
      { split; [done|apply HasError_AddError]. }
      destruct (String.eqb_spec t (schema.MetaName (meta r))) as [Ht|Ht]; cbn [negb].
      * exfalso. apply Cut_Some in Hcut as [_ Hidx]. subst t.
        apply orb_false_elim in He as [He _]. apply String.eqb_neq in He.
        destruct Hname; done.
      * split; [done|apply HasError_AddError].
    + destruct (ImportState_no_split r ID resp Hcut) as [Hst [detail Hd]].
      split; [done|]. rewrite Hd. apply HasError_AddError.
Qed.


(** *** From the plan to the state *)

(** The submitted value survives.  Provided %v prints a string as itself:
    when a writable top-level attribute (no block bears its field name)
    is planned as a known bool, float or string value and the server
    state read back has no value for it, the reconciliation that follows
    the extraction stores the planned value itself; when the server state
    has a value, the decoding of that value is stored if it has the type
    of the attribute, and the attribute is left as it was otherwise. *)
Theorem planned_value_survives (r : dynamicResource (Server := Server))
    (plan tfState : gmap string Value) (ds0 ds : Diagnostics) (name : string)
    (ks : gmap string any) (info : attrInfo) (v : Value) :
  (∀ s, fmt_Sprint_v (go_string s) = s) →
  let infos := builtInfos r in
  let attrs := (extractResult infos plan ds0).1 in
  let written := writeResult (resourceSchema r) infos name tfState ds (Some attrs) (Ok ks) in
  info ∈ infos → schema.ReadOnly (attr info) = false → tfBlock info = EmptyString →
  (∀ i, i ∈ infos → tfBlock i ≠ EmptyString → tfBlock i ≠ tfField info) →
  plan !! tfField info = Some v →
  knownScalarOf (schema.Type_ (attr info)) v →
  written.1 !! tfField info =
    match ks !! kaiakName info with
    | None => Some v
    | Some sv =>
        let t := schema.Type_ (attr info) in
        if AttrType_Equal (kaiakTypeToAttrType t) (Value_Type (kaiakValueToTF sv t))
        then Some (kaiakValueToTF sv t)
        else tfState !! tfField info
    end.
Proof.
  intros Hfmt infos attrs written Hin Hro Hb Hk Hv Hscalar.
  unfold written, infos. rewrite writeResult_top by done.
  unfold wellTyped, decoded, mergedOf. rewrite mergePlanned_lookup.
  destruct (ks !! kaiakName info) as [sv|]; [done|].
  assert (Hw : writable (builtInfos r) (kaiakName info) = true).
  { unfold writable. apply existsb_exists. exists info.
    split; [by apply list_elem_of_In|]. by rewrite String.eqb_refl, Hro. }
  rewrite Hw.
  destruct (knownScalarOf_round_trip _ v Hfmt Hscalar) as (g & Hgo & _ & Hback & Hty).
  assert (Hkind : kindOf v = kindFor (schema.Type_ (attr info)) ∧
                  IsNull v = false ∧ IsUnknown v = false).
  { destruct Hscalar as [(-> & b & ->)|[(-> & f & ->)|(Hs & _ & s & ->)]]; try done.
    apply stringShaped_tests in Hs as (H1 & H2 & H3 & H4 & H5).
    unfold kindFor. by rewrite H1, H2, H3, H4, H5. }
  destruct Hkind as (Hkind & Hnull & Hunk).
  assert (Hattrs : attrs !! kaiakName info = Some g).
  { unfold attrs, extractResult. rewrite extractBlocks_other.
    - eapply extractTop_set; eauto. apply (builtInfos_NoDup r).
    - intros i Hi Hbi Hname.
      assert (i = info)
        by (eapply NoDup_names_eq; eauto; apply (builtInfos_NoDup r)).
      congruence. }
  fold infos. fold attrs. rewrite Hattrs. cbn [default id]. rewrite Hback, Hty.
  by rewrite AttrType_Equal_tag.
Qed.

(** The table behind every method.  [getInfos] returns the table that
    [buildResourceSchema] gives for the metadata of the receiver, whether
    the receiver is fresh, has answered [Schema] or [Configure], or has
    built the table before; none of these changes the metadata. *)
Theorem getInfos_same_table (w : World) (sresp : SchemaResponse) (data : ProviderData)
    (ds : Diagnostics) :
  cacheOK (self w) →
  let table :=
    (buildResourceSchema (schema.MetaName (meta (self w)))
       (schema.Attributes (meta (self w)))).1.2 in
  (getInfos w).1 = table ∧
  (getInfos (getInfos w).2).1 = table ∧
  (getInfos (Schema sresp w).2).1 = table ∧
  (getInfos (Configure data ds w).2).1 = table.
Proof.
  intros Hc table.
  assert (Hrun : ∀ w' : World, cacheOK (self w') → meta (self w') = meta (self w) →
                       (getInfos w').1 = table).
  { intros w' Hc' Hm. destruct (getInfos_run w' Hc') as (w2 & -> & _).
    unfold table, builtInfos. simpl. by rewrite Hm. }
  split_and!.
  - by apply Hrun.
  - destruct (getInfos_run w Hc) as (w1 & Hg & Hsame). rewrite Hg. simpl.
    destruct Hsame as (_ & _ & _ & Hm & _ & Hc1). by apply Hrun.
  - apply Hrun; [by apply Schema_cacheOK|].
    unfold Schema. rewrite bind_run. unfold get_self.
    destruct (buildResourceSchema _ _) as [[s l] diags].
    destruct (HasError _); [done|]. by rewrite bind_run.
  - destruct data; simpl; try by apply Hrun.
Qed.

End MoreControllerFacts.

(* ===================================================================== *)
(** * The settings of the provider *)
(* ===================================================================== *)

Section ProviderFacts.
Context `{RT : GoRuntime} {Server : Type}.
Variable httpclient_New : string → list ClientOpt → result (Client (Server := Server)).
Variable ListResources : Client (Server := Server) → result (list schema.ResourceMeta).

Lemma resolveEndpoint_not_empty (env : gmap string string) :
  resolveEndpoint env ≠ EmptyString.
Proof.
  unfold resolveEndpoint.
  destruct (String.eqb_spec (os_Getenv env "KAIAK_ENDPOINT") EmptyString); simpl; done.
Qed.

(** Configure and Resources share their settings.  After a Configure whose
    configuration was read without error, the cached endpoint is the
    configured one, else the one of KAIAK_ENDPOINT, else the default, and
    is never empty; the cached key is the configured one, else the one of
    KAIAK_API_KEY; a bearer token is sent exactly when the key is not
    empty.  In the same environment, Resources then makes its client for
    that endpoint with those options: it lists the resource types through
    the client Configure handed to the resources, and returns no factory
    when Configure could not make a client. *)
Theorem provider_settings_shared (env : gmap string string) (p : kaiakProvider)
    (config : kaiakProviderModel) (getDiags : Diagnostics)
    (resp : ProviderConfigureResponse (Server := Server)) :
  HasError (Append (ProviderDiagnostics resp) getDiags) = false →
  let out := providerConfigure httpclient_New env p config getDiags resp in
  let configured := ValueString (Endpoint config) in
  let key := ValueString (ApiKey config) in
  endpoint out.1 ≠ EmptyString ∧
  endpoint out.1 =
    (if String.eqb configured EmptyString then
       if String.eqb (os_Getenv env "KAIAK_ENDPOINT") EmptyString
       then "http://localhost:8084/api" else os_Getenv env "KAIAK_ENDPOINT"
     else configured) ∧
  apiKey out.1 =
    (if String.eqb key EmptyString then os_Getenv env "KAIAK_API_KEY" else key) ∧
  version out.1 = version p ∧
  match httpclient_New (endpoint out.1)
          (if String.eqb (apiKey out.1) EmptyString then []
           else [OptReqToken Bearer (apiKey out.1)]) with
  | Ok cl =>
      ResourceData out.2 = Some cl ∧ DataSourceData out.2 = Some cl ∧
      ProviderDiagnostics out.2 = Append (ProviderDiagnostics resp) getDiags ∧
      Resources httpclient_New ListResources env out.1 =
        match ListResources cl with
        | Ok resources => map (fun meta _ => newDynamicResource meta) resources
        | Err _ => []
        end
  | Err e =>
      ResourceData out.2 = ResourceData resp ∧
      DataSourceData out.2 = DataSourceData resp ∧
      HasError (ProviderDiagnostics out.2) = true ∧
      Resources httpclient_New ListResources env out.1 = []
  end.
Proof.
  intros Hno. cbv zeta. unfold providerConfigure. rewrite Hno.
  set (e1 := if String.eqb (ValueString (Endpoint config)) EmptyString
             then resolveEndpoint env else ValueString (Endpoint config)).
  set (k1 := if String.eqb (ValueString (ApiKey config)) EmptyString
             then resolveApiKey env else ValueString (ApiKey config)).
  assert (He1 : e1 ≠ EmptyString).
  { unfold e1. destruct (String.eqb_spec (ValueString (Endpoint config)) EmptyString);
      [apply resolveEndpoint_not_empty|done]. }
  assert (Hopts : tokenOpts k1
                  = if String.eqb k1 EmptyString then [] else [OptReqToken Bearer k1]).
  { unfold tokenOpts. by destruct (String.eqb k1 EmptyString). }
  assert (Hres : Resources httpclient_New ListResources env
                   {| version := version p; endpoint := e1; apiKey := k1 |}
                 = match httpclient_New e1 (tokenOpts k1) with
                   | Ok cl =>
                       match ListResources cl with
                       | Ok resources => map (fun meta _ => newDynamicResource meta) resources
                       | Err _ => []
                       end
                   | Err _ => []
                   end).
  { unfold Resources. simpl.
    apply String.eqb_neq in He1. rewrite He1.
    assert ((if String.eqb k1 EmptyString then resolveApiKey env else k1) = k1) as ->;
      [|done].
    destruct (String.eqb_spec k1 EmptyString) as [Hk|Hk]; [|done].
    unfold k1 in *.
    destruct (String.eqb_spec (ValueString (ApiKey config)) EmptyString); congruence. }
  assert (Hprec : e1 = if String.eqb (ValueString (Endpoint config)) EmptyString then
                         if String.eqb (os_Getenv env "KAIAK_ENDPOINT") EmptyString
                         then "http://localhost:8084/api"
                         else os_Getenv env "KAIAK_ENDPOINT"
                       else ValueString (Endpoint config)).
  { unfold e1, resolveEndpoint.
    destruct (String.eqb (ValueString (Endpoint config)) EmptyString); [|done].
    by destruct (String.eqb (os_Getenv env "KAIAK_ENDPOINT") EmptyString). }
  destruct (httpclient_New e1 (tokenOpts k1)) as [cl|e] eqn:Hnew; simpl;
    rewrite <- Hopts, Hnew.
  - by split_and!.
  - split_and!; try done. apply HasError_AddError.
Qed.

End ProviderFacts.

(* ===================================================================== *)
(** * Map tags without a value type *)
(* ===================================================================== *)

Section MapTagFacts.
Context `{RT : GoRuntime} `{FM : !GoFmt}.

Lemma map_tag_no_value_type (t : string) :
  String.eqb t "bool" = false → String.eqb t "int" = false →
  String.eqb t "uint" = false → String.eqb t "float" = false →
  gostrings.HasPrefix t "[]" = false → gostrings.HasPrefix t "map[" = true →
  match gostrings.Index t rbracket with
  | Some idx => idx + 1 <? String.length t
  | None => false
  end = false →
  kaiakTypeToAttrType t = MapType StringType ∧
  (∀ v, kaiakValueToTF v t = MapNull StringType) ∧
  (∀ V, goValueOf t V = None).
Proof.
  intros E1 E2 E3 E4 E5 E6 E7.
  assert (Helem : kaiakMapElemType t = StringType).
  { unfold kaiakMapElemType, kaiakMapElemType_with.
    destruct (gostrings.Index t rbracket) as [idx|]; [|done]. by rewrite E7. }
  split_and!.
  - rewrite kaiakTypeToAttrType_unfold, E1, E2, E3, E4, E5, E6. cbn [orb]. by rewrite Helem.
  - intros v. destruct (any_nil_dec v) as [->|Hnil].
    + cbn [kaiakValueToTF]. unfold kaiakNullValue. rewrite E1, E2, E3, E4, E5, E6.
      cbn [orb]. by rewrite Helem.
    + rewrite kaiakValueToTF_not_nil by done. rewrite E1, E2, E3, E4, E5, E6. cbn [orb].
      unfold kaiakMapToTF, kaiakMapToTF_with. rewrite Helem.
      destruct v; try done.
      destruct (gostrings.Index t rbracket) as [idx|]; [|done]. by rewrite E7.
  - intros V. unfold goValueOf. rewrite E1, E2, E3, E4, E5, E6. cbn [orb].
    destruct (gostrings.Index t rbracket) as [idx|]; [|done]. by rewrite E7.
Qed.

(** A map tag that names no value type (no closing bracket, or nothing
    after it) makes an attribute that is never sent and never read: its
    terraform type is a map of strings, every server value decodes to the
    null map, and extraction stores nothing for any planned value. *)
Theorem map_tag_without_value_type (K t : string) :
  gostrings.Index K rbracket = None →
  t = "map[" +:+ K ∨ t = "map[" +:+ K +:+ "]" →
  kaiakTypeToAttrType t = MapType StringType ∧
  (∀ v, kaiakValueToTF v t = MapNull StringType) ∧
  (∀ V, goValueOf t V = None).
Proof.
  intros HK [->| ->].
  - apply map_tag_no_value_type; try done.
    + apply (HasPrefix_append "map[" K).
    + assert (gostrings.Index ("map[" +:+ K) rbracket = None) as ->; [|done].
      by apply Index_append_None.
  - apply map_tag_no_value_type; try done.
    + apply (HasPrefix_append "map[" (K +:+ "]")).
    + assert (Hpre : gostrings.Index ("map[" +:+ K) rbracket = None)
        by (by apply Index_append_None).
      change ("map[" +:+ K +:+ "]") with (("map[" +:+ K) +:+ String rbracket EmptyString).
      rewrite (Index_append _ _ _ Hpre).
      apply Nat.ltb_ge. rewrite length_append. simpl. lia.
Qed.

End MapTagFacts.

(* ===================================================================== *)
(** * The further facts on the examples *)
(* ===================================================================== *)

(** The demo resource translates, and its attribute a is in the schema. *)
Lemma buildResourceSchema_top_level_witness :
  let built :=
    buildResourceSchema (RT := sampleRuntime) "demo" (schema.Attributes (sampleMeta false)) in
  HasError built.2 = false ∧
  tfschema.Attributes built.1.1 !! "a" = Some (kaiakAttrToTF (stringAttr "a" false false)).
Proof.
  cbv zeta. split; [reflexivity|].
  refine (proj1 (proj1 (buildResourceSchema_top_level (RT := sampleRuntime) "demo"
                          (schema.Attributes (sampleMeta false))
                          (buildResourceSchema (RT := sampleRuntime) "demo"
                             (schema.Attributes (sampleMeta false))).1.1
                          (buildResourceSchema (RT := sampleRuntime) "demo"
                             (schema.Attributes (sampleMeta false))).1.2
                          (buildResourceSchema (RT := sampleRuntime) "demo"
                             (schema.Attributes (sampleMeta false))).2 _ _)
                   (stringAttr "a" false false) _ _) _).
  - vm_compute. reflexivity.
  - reflexivity.
  - left.
  - reflexivity.
  - intros b Hb Hne. exfalso. apply Hne.
    apply list_elem_of_In in Hb. simpl in Hb. destruct Hb as [<-|[<-|[]]]; reflexivity.
Defined.

(** The known boolean true goes to the Go value true and back. *)
Lemma encode_decode_round_trip_witness :
  (∀ s, @fmt_Sprint_v sampleRuntime sampleFmt (go_string s) = s) ∧
  ∃ g, goValueOf (RT := sampleRuntime) (FM := sampleFmt) "bool" (BoolValue true) = Some g ∧
       kaiakValueToTF (FM := sampleFmt) g "bool" = BoolValue true.
Proof.
  split; [reflexivity|].
  refine (proj1 (encode_decode_round_trip (RT := sampleRuntime) (FM := sampleFmt) _)
            "bool" (BoolValue true) _).
  - reflexivity.
  - left. split; [reflexivity|]. by exists true.
Defined.

(** A resource without a client refuses a read. *)
Lemma CRUD_without_client_witness :
  client (self (sampleWorld None false)) = None ∧
  Read (FM := sampleFmt) sampleIdState sampleResponse (sampleWorld None false)
  = ({| State := ∅; Diagnostics_of := notConfigured [] |}, sampleWorld None false).
Proof.
  split; [reflexivity|].
  exact (proj1 (proj2 (CRUD_without_client (FM := sampleFmt) (sampleWorld None false)
                         samplePlan sampleIdState sampleResponse eq_refl))).
Defined.

(** Deleting demo.x sends one destroy and empties the state. *)
Lemma Delete_outcomes_witness :
  let w := sampleWorld (Some (scriptedClient None None ∅)) false in
  Delete sampleIdState sampleResponse w
  = ({| State := ∅; Diagnostics_of := [] |}, reqWorld w tt [CallDestroy "demo.x" false]).
Proof.
  cbv zeta.
  exact (proj1 (Delete_outcomes
                  (sampleWorld (Some (scriptedClient None None ∅)) false)
                  (scriptedClient None None ∅) sampleIdState sampleResponse
                  eq_refl eq_refl)
           (StringValue "demo.x") eq_refl eq_refl).
Defined.

(** Reading demo.x from a server that has a = 1 sends one read. *)
Lemma Read_outcome_witness :
  let w := sampleWorld (Some (scriptedClient None None sampleServerState)) false in
  ∃ w', Read (FM := sampleFmt) sampleIdState sampleResponse w
        = ({| State := {[ "id" := StringValue "demo.x"; "a" := StringValue "1";
                          "b" := StringNull ]};
              Diagnostics_of := [] |}, w') ∧
        remote w' = tt ∧ calls w' = [CallGet "demo.x"] ∧ random w' = [].
Proof.
  cbv zeta.
  exact (proj1 (Read_outcome (FM := sampleFmt)
                  (sampleWorld (Some (scriptedClient None None sampleServerState)) false)
                  (scriptedClient None None sampleServerState) sampleIdState sampleResponse
                  (StringValue "demo.x") eq_refl (or_introl eq_refl) eq_refl eq_refl eq_refl)).
Defined.

(** Updating demo.x sends the update and one read, and stores what the
    server returns. *)
Lemma Update_outcomes_witness :
  let w := sampleWorld (Some (scriptedClient None None sampleServerState)) false in
  ∃ w', random w' = [] ∧
        Update (FM := sampleFmt) sampleIdState samplePlan sampleResponse w
        = ({| State := {[ "id" := StringValue "demo.x"; "a" := StringValue "1";
                          "b" := StringNull ]};
              Diagnostics_of := [] |}, w') ∧
        remote w' = tt ∧
        calls w' = [CallUpdate "demo.x" {[ "a" := go_string "/x" ]} true; CallGet "demo.x"].
Proof.
  cbv zeta.
  exact (Update_outcomes (FM := sampleFmt)
           (sampleWorld (Some (scriptedClient None None sampleServerState)) false)
           (scriptedClient None None sampleServerState) sampleIdState samplePlan
           sampleResponse (StringValue "demo.x")
           eq_refl (or_introl eq_refl) eq_refl eq_refl eq_refl).
Defined.


(** Create against a server that accepts: the three requests, and the
    state read back. *)
Lemma Create_success_witness :
  let w := sampleWorld (Some (scriptedClient None None sampleServerState)) false in
  ∃ w', Create (FM := sampleFmt) samplePlan sampleResponse w
        = ({| State := {[ "id" := StringValue "demo.tf_00000000"; "a" := StringValue "1";
                          "b" := StringNull ]};
              Diagnostics_of := [] |}, w') ∧
        remote w' = tt ∧
        calls w' = [CallCreate "demo.tf_00000000";
                    CallUpdate "demo.tf_00000000" {[ "a" := go_string "/x" ]} true;
                    CallGet "demo.tf_00000000"] ∧
        random w' = [].
Proof.
  cbv zeta.
  exact (Create_success (FM := sampleFmt)
           (sampleWorld (Some (scriptedClient None None sampleServerState)) false)
           (scriptedClient None None sampleServerState) samplePlan sampleResponse
           eq_refl (or_introl eq_refl) eq_refl eq_refl eq_refl).
Defined.

(** The block tls of the web resource, when the server has a certificate
    and no key: a known object with the certificate and a null key. *)
Lemma writeState_block_witness :
  let written :=
    writeResult (FM := sampleFmt) (resourceSchema sampleBlockResource)
      (builtInfos sampleBlockResource) "web.x" ∅ [] None
      (Ok {[ "tls.cert" := go_string "pem" ]}) in
  ∃ tys vals,
    tys !! "cert" = Some StringType ∧
    written.1 !! "tls" = Some (ObjectKnown tys vals) ∧
    vals !! "cert" = Some (StringValue "pem") ∧
    vals !! "key" = Some StringNull.
Proof.
  cbv zeta.
  destruct (writeState_block (FM := sampleFmt) sampleBlockResource "web.x" ∅ [] None
              {[ "tls.cert" := go_string "pem" ]} "tls")
    as [_ (tys & Ht & _ & H)].
  - discriminate.
  - vm_compute. discriminate.
  - match type of H with
    | (if ?c then _ else _) => change c with false in H
    end.
    cbv iota in H.
    match type of H with
    | (if ?c then _ else _) => change c with true in H
    end.
    cbv iota in H. destruct H as (vals & Hw & _ & Hv).
    exists tys, vals. split_and!.
    + apply (Ht (newAttrInfo (stringAttr "tls.cert" true false))). vm_compute. left.
    + exact Hw.
    + apply (Hv (newAttrInfo (stringAttr "tls.cert" true false))). vm_compute. left.
    + apply (Hv (newAttrInfo (stringAttr "tls.key" false false))). vm_compute. right. left.
Defined.

(** Extraction on the demo resource stores a, whose planned value is known. *)
Lemma extractAttrs_stores_known_writable_witness :
  cacheOK (self (sampleWorld None false)) ∧
  (extractAttrs (FM := sampleFmt) samplePlan [] (sampleWorld None false)).1.1 !! "a"
  = Some (go_string "/x").
Proof.
  split; [by left|].
  refine (proj1 (extractAttrs_stores_known_writable (FM := sampleFmt)
                   (sampleWorld None false) samplePlan [] _
                   (newAttrInfo (stringAttr "a" false false)) (StringValue "/x")
                   (go_string "/x") _ _ _ _ _ _) _ _).
  - by left.
  - vm_compute. left.
  - reflexivity.
  - reflexivity.
  - reflexivity.
  - reflexivity.
  - reflexivity.
  - reflexivity.
  - reflexivity.
Defined.

(** The planned value of a survives a read that returns no value for it. *)
Lemma planned_value_survives_witness :
  let infos := builtInfos (self (sampleWorld None false)) in
  (∀ s, @fmt_Sprint_v sampleRuntime sampleFmt (go_string s) = s) ∧
  (writeResult (FM := sampleFmt) (resourceSchema (self (sampleWorld None false))) infos
     "demo.x" ∅ []
     (Some (extractResult (FM := sampleFmt) infos samplePlan []).1) (Ok ∅)).1 !! "a"
  = Some (StringValue "/x").
Proof.
  cbv zeta. split; [reflexivity|].
  refine (planned_value_survives (FM := sampleFmt) (self (sampleWorld None false))
            samplePlan ∅ [] [] "demo.x" ∅ (newAttrInfo (stringAttr "a" false false))
            (StringValue "/x") _ _ _ _ _ _ _).
  - reflexivity.
  - vm_compute. left.
  - reflexivity.
  - reflexivity.
  - intros i Hi Hne. exfalso. apply Hne.
    apply list_elem_of_In in Hi. vm_compute in Hi. destruct Hi as [<-|[<-|[]]]; reflexivity.
  - reflexivity.
  - right. right. split_and!; [reflexivity|discriminate|by exists "/x"].
Defined.

(** The demo resource returns the same table after it answered Schema. *)
Lemma getInfos_same_table_witness :
  cacheOK (self (sampleWorld None false)) ∧
  (getInfos (Schema {| Schema_of := tfschema.empty; SchemaDiagnostics := [] |}
               (sampleWorld None false)).2).1
  = (buildResourceSchema (RT := sampleRuntime) "demo"
       (schema.Attributes (sampleMeta false))).1.2.
Proof.
  split; [by left|].
  exact (proj1 (proj2 (proj2 (getInfos_same_table (sampleWorld None false)
                                {| Schema_of := tfschema.empty; SchemaDiagnostics := [] |}
                                ProviderNil [] (or_introl eq_refl))))).
Defined.

(** A provider configured with a key only, in an environment that names
    the endpoint: both are cached, and Resources lists the demo type. *)
Lemma provider_settings_shared_witness :
  let env : gmap string string := {[ "KAIAK_ENDPOINT" := "http://kaiak:8084/api" ]} in
  let resp :=
    {| ProviderDiagnostics := []; DataSourceData := None; ResourceData := None |} in
  let out := providerConfigure sampleNew env sampleProvider sampleConfig [] resp in
  endpoint out.1 = "http://kaiak:8084/api" ∧
  apiKey out.1 = "secret" ∧
  ResourceData out.2 = Some (scriptedClient None None ∅) ∧
  Resources sampleNew sampleList env out.1 = [fun _ => newDynamicResource (sampleMeta false)].
Proof.
  cbv zeta.
  destruct (provider_settings_shared sampleNew sampleList
              {[ "KAIAK_ENDPOINT" := "http://kaiak:8084/api" ]} sampleProvider sampleConfig []
              {| ProviderDiagnostics := []; DataSourceData := None; ResourceData := None |}
              eq_refl) as (_ & He & Hk & _ & Hr & _ & _ & Hres).
  split_and!; [exact He|exact Hk|exact Hr|exact Hres].
Defined.

(** The tag map[string] names no value type: a string decodes to the null
    map. *)
Lemma map_tag_without_value_type_witness :
  gostrings.Index "string" rbracket = None ∧
  kaiakValueToTF (RT := sampleRuntime) (FM := sampleFmt) (go_string "x") "map[string]"
  = MapNull StringType.
Proof.
  split; [reflexivity|].
  exact (proj1 (proj2 (map_tag_without_value_type (RT := sampleRuntime) (FM := sampleFmt)
                         "string" "map[string]" eq_refl (or_intror eq_refl)))
           (go_string "x")).
Defined.

(* --------------------------------------------------------------------- *)
(** ** Reconciliation on the gauge resource *)
(* --------------------------------------------------------------------- *)

(** The reconciliation example in writeState, with b writable: the server
    state a = 1 and the fallback a = 9, b = 2 leave a = 1 and b = 2 in the
    state, and no diagnostic. *)
Example writeState_example_writable :
  let c := scriptedClient None None sampleServerState in
  let written :=
    (writeState (FM := sampleFmt) c "gauge.x" ∅ [] (Some samplePlanned)
       (sampleTypedWorld (Some c) false)).1 in
  written.1 !! "a" = Some (@Float64Value sampleRuntime 1%Z) ∧
  written.1 !! "b" = Some (@Float64Value sampleRuntime 2%Z) ∧
  written.2 = [].
Proof. vm_compute. done. Qed.

(** The reconciliation example, with b read-only: a = 1, and b is the null
    float. *)
Example writeState_example_read_only :
  let c := scriptedClient None None sampleServerState in
  let written :=
    (writeState (FM := sampleFmt) c "gauge.x" ∅ [] (Some samplePlanned)
       (sampleTypedWorld (Some c) true)).1 in
  written.1 !! "a" = Some (@Float64Value sampleRuntime 1%Z) ∧
  written.1 !! "b" = Some Float64Null ∧
  written.2 = [].
Proof. vm_compute. done. Qed.

(** An integer from the plan.  The planned value of n reaches the fallback
    as an int64, which the int case of kaiakValueToTF does not decode: the
    text it prints is refused, and n is not stored. *)
Example writeState_example_planned_int :
  let c := scriptedClient None None ∅ in
  let written :=
    (writeState (FM := sampleFmt) c "gauge.x" ∅ []
       (Some {[ "n" := @go_int64 sampleRuntime 2%Z ]})
       (sampleTypedWorld (Some c) false)).1 in
  written.1 !! "n" = None ∧
  written.2 = [attributeError "Value Conversion Error" "n"].
Proof. vm_compute. done. Qed.



(* --------------------------------------------------------------------- *)
(** ** Import into a resource with a block called name *)
(* --------------------------------------------------------------------- *)

